(** * HydroX MCP tester: session manager and leak probe

    A shallow embedding of [src/generic_client.py] (class [MCPTesterClient])
    and [src/advanced.py] ([timeout_tester], [find_stdio_child], [snapshot]),
    with the properties of the session manager and of the leak probe proved
    over it; then of the parser of [src/judge_model.py], the basic suite of
    [src/basic.py] and the runner and entry point of [src/run.py].

    Conventions of the embedding.
    - Python [int] is [Z]; Python [float] is the kernel's binary64 [float],
      so [1.10] below is the same double as Python's literal.
    - Readings of [time.monotonic()] and the grace period are doubles, held
      as the rationals they are (seconds); [time.monotonic() + grace] is the
      binary64 sum: the exact sum rounded to the nearest double, ties to even
      ([round_binary64]).
    - A [str] is held as its UTF-8 bytes. [str.strip()] removes the white
      space of Unicode; [str.lower()] is computed on ASCII text and read
      from the world on other text.
    - Everything the operating system, the interpreter's tables, the MCP
      library and the server decide is read from a [World]: the clock, the
      process table, psutil's readings, how the awaited call and [aclose()]
      resolve.
    - A computation returns [Ret v], raises a Python exception ([Raise e]) or
      runs out of loop fuel ([Diverge]); it threads a [RunState] holding the
      client object and the trace of observable events, which is kept when
      the computation raises. *)

From Stdlib Require Import ZArith QArith Qround Qpower Floats String Ascii List Bool
  Lia Lqa.
From stdpp Require Import gmap strings.
Import ListNotations.

Set Warnings "-inexact-float".
Local Open Scope string_scope.
Local Open Scope Z_scope.

(* ===================================================================== *)
(** ** Python exceptions and outcomes *)
(* ===================================================================== *)

(** The exception classes the two modules raise, catch or let through.
    [TimeoutError] is both the builtin and [asyncio.TimeoutError] (one class
    since Python 3.11); [CancelledError] and [KeyboardInterrupt] derive from
    [BaseException] only. *)
Inductive PyExc : Type :=
| RuntimeError (msg : string)
| AttributeError (attr : string)
| NameError (name : string)
| KeyError (key : string)
| TimeoutError
| CancelledError
| PsutilError
| OtherException (name : string)
| KeyboardInterrupt.

(** [isinstance(e, Exception)], the test behind [except Exception]. *)
Definition is_Exception (e : PyExc) : bool :=
  match e with
  | CancelledError | KeyboardInterrupt => false
  | _ => true
  end.

Definition is_CancelledError (e : PyExc) : bool :=
  match e with CancelledError => true | _ => false end.

Definition is_TimeoutError (e : PyExc) : bool :=
  match e with TimeoutError => true | _ => false end.

Inductive result (A : Type) : Type :=
| Ret (a : A)
| Raise (e : PyExc)
| Diverge.
Arguments Ret {A} a.
Arguments Raise {A} e.
Arguments Diverge {A}.

Definition is_raise {A} (r : result A) : bool :=
  match r with Raise _ => true | _ => false end.

(* ===================================================================== *)
(** ** Numbers: int against float *)
(* ===================================================================== *)

(** [float(n)] for a Python int: the nearest double, ties to even. (Python
    raises [OverflowError] from 2^1024 on, where this gives infinity; no
    byte count reaches it.) *)
Definition float_of_int (n : Z) : float :=
  SF2Prim (binary_normalize prec emax n 0 false).

(** [n <= x] for an int [n] and a float [x]: Python compares the exact
    values, and anything compared with NaN is false. *)
Definition int_le_float (n : Z) (x : float) : bool :=
  match Prim2SF x with
  | S754_nan => false
  | S754_infinity neg => negb neg
  | S754_zero _ => n <=? 0
  | S754_finite neg m e =>
      let v := if neg then Z.neg m else Z.pos m in
      if 0 <=? e then n <=? v * 2 ^ e else n * 2 ^ (- e) <=? v
  end.

(* ===================================================================== *)
(** ** ResourceProbe: [snapshot] (advanced.py, lines 71-93) *)
(* ===================================================================== *)

(** What psutil reads for a live process inside [proc.oneshot()]. [None] for
    [rd_fds] or [rd_handles] means the call raised (the other platform). *)
Record ProcReading : Type := {
  rd_rss : Z;
  rd_cpu : float;
  rd_thr : Z;
  rd_fds : option Z;
  rd_handles : option Z;
  rd_children : list Z
}.

(** The dict [snapshot] returns: six keys, or [{"dead": True}]. *)
Inductive Snapshot : Type :=
| Alive (rss : Z) (cpu : float) (thr : Z) (fds handles : option Z) (kids : Z)
| Dead.

(** [snapshot(proc)]; the argument is [None] when psutil raised
    [psutil.Error] inside the [with] block. *)
Definition snapshot (r : option ProcReading) : Snapshot :=
  match r with
  | Some rd =>
      Alive (rd_rss rd) (rd_cpu rd) (rd_thr rd) (rd_fds rd) (rd_handles rd)
            (Z.of_nat (List.length (rd_children rd)))
  | None => Dead
  end.

(** [d.get("rss", 0)] and its siblings. *)
Definition get_rss (s : Snapshot) : Z :=
  match s with Alive rss _ _ _ _ _ => rss | Dead => 0 end.
Definition get_cpu (s : Snapshot) : float :=
  match s with Alive _ cpu _ _ _ _ => cpu | Dead => 0%float end.
Definition get_thr (s : Snapshot) : Z :=
  match s with Alive _ _ thr _ _ _ => thr | Dead => 0 end.
Definition get_kids (s : Snapshot) : Z :=
  match s with Alive _ _ _ _ _ kids => kids | Dead => 0 end.

(* ===================================================================== *)
(** ** The decay predicate (advanced.py, lines 42-46) *)
(* ===================================================================== *)

Definition ok_cpu (last : Snapshot) : bool :=
  (get_cpu last <? 2.0)%float.
Definition ok_thr (base last : Snapshot) : bool :=
  get_thr last <=? get_thr base + 1.
Definition ok_kids (base last : Snapshot) : bool :=
  get_kids last <=? get_kids base.
Definition ok_rss (base last : Snapshot) : bool :=
  int_le_float (get_rss last)
               (float_of_int (get_rss base) * 1.10 + float_of_int 5000000)%float.

Definition decayed (base last : Snapshot) : bool :=
  ok_cpu last && ok_thr base last && ok_kids base last && ok_rss base last.

(* ===================================================================== *)
(** ** Strings: the operations [find_stdio_child] and its caller use *)
(* ===================================================================== *)

(** [str.lower()] on ASCII text: [A-Z] go to [a-z], byte by byte. What it
    does on other text is with the world, below. *)
Definition lower_ascii (c : ascii) : ascii :=
  let n := nat_of_ascii c in
  if ((65 <=? n)%nat && (n <=? 90)%nat)%bool then ascii_of_nat (n + 32) else c.

Fixpoint ascii_lower (s : string) : string :=
  match s with
  | EmptyString => EmptyString
  | String c s' => String (lower_ascii c) (ascii_lower s')
  end.

(** [s.isascii()]: every byte is below 128. *)
Fixpoint is_ascii (s : string) : bool :=
  match s with
  | EmptyString => true
  | String c s' => (nat_of_ascii c <? 128)%nat && is_ascii s'
  end.

(** [" ".join(parts)]. *)
Definition join (sep : string) (parts : list string) : string :=
  String.concat sep parts.

(** [needle in hay] for two strings. *)
Fixpoint contains (needle hay : string) : bool :=
  if String.prefix needle hay then true
  else match hay with
       | EmptyString => false
       | String _ hay' => contains needle hay'
       end.

(** [s.split(sep)[-1]] for a one-character separator: what follows the last
    occurrence of [sep], the whole string when there is none. *)
Fixpoint split_last_from (sep : ascii) (s acc : string) : string :=
  match s with
  | EmptyString => acc
  | String c s' =>
      if Ascii.eqb c sep then split_last_from sep s' s'
      else split_last_from sep s' acc
  end.

Definition split_last (sep : ascii) (s : string) : string :=
  split_last_from sep s s.

(* ===================================================================== *)
(** ** A Python dict that is iterated: keys in insertion order *)
(* ===================================================================== *)

Module PyDict.
Section Ops.
Context {V : Type}.

Definition keys (d : list (string * V)) : list string := map fst d.

Fixpoint get (k : string) (d : list (string * V)) : option V :=
  match d with
  | [] => None
  | (k', v) :: d' => if String.eqb k k' then Some v else get k d'
  end.

(** [d[k] = v]: a present key keeps its place, a new one goes last. *)
Fixpoint set (k : string) (v : V) (d : list (string * V)) : list (string * V) :=
  match d with
  | [] => [(k, v)]
  | (k', v') :: d' =>
      if String.eqb k k' then (k, v) :: d' else (k', v') :: set k v d'
  end.

(** In-place update of the object stored under [k] (nothing when absent). *)
Fixpoint alter (f : V -> V) (k : string) (d : list (string * V)) : list (string * V) :=
  match d with
  | [] => []
  | (k', v') :: d' =>
      if String.eqb k k' then (k', f v') :: d' else (k', v') :: alter f k d'
  end.
End Ops.
End PyDict.

(* ===================================================================== *)
(** ** The client object (generic_client.py) *)
(* ===================================================================== *)

Record StdioServerParameters : Type := {
  command : string;
  args : list string;
  cwd : option string;
  env : option (list (string * string))
}.

(** The values of a server's configuration dict. *)
Inductive ConfigValue : Type :=
| CfgStr (s : string)
| CfgStdio (p : StdioServerParameters)
| CfgHeaders (h : option (list (string * string))).

Inductive Stream : Type :=
| ChildStdout (cmd : string)
| ChildStdin (cmd : string)
| HttpRead (url : string)
| HttpWrite (url : string).

(** What a caller passes for [read_timeout_seconds], the third parameter of
    [ClientSession]: nothing (the default, [None]) or, at line 110, the third
    value [streamablehttp_client] yields, the function [get_session_id]. *)
Inductive ReadTimeout : Type :=
| NoReadTimeout
| GetSessionId (url : string).

Record ClientSession : Type := {
  read_stream : Stream;
  write_stream : Stream;
  read_timeout_seconds : ReadTimeout
}.

(** An async context manager the client enters on an exit stack. *)
Inductive Context_ : Type :=
| StdioClientCtx (p : StdioServerParameters)
| StreamableHttpCtx (url : string)
| ClientSessionCtx (s : ClientSession).

(** [AsyncExitStack]: the contexts entered and not yet exited, latest first.
    [aclose()], once awaited, exits them all and leaves the stack empty. *)
Record AsyncExitStack : Type := {
  entered : list Context_
}.

Definition new_exit_stack : AsyncExitStack := {| entered := [] |}.
Definition enter_context (c : Context_) (s : AsyncExitStack) : AsyncExitStack :=
  {| entered := c :: entered s |}.
Definition closed_stack (s : AsyncExitStack) : bool :=
  match entered s with [] => true | _ => false end.

(** The attributes of an [MCPTesterClient]. [__init__] sets [transport],
    [server_params], [sessions] and [exit_stacks]; a connect sets [stdio]
    and [write]. [transport_name] and [transport_params] are read by
    [timeout_tester] and set by nothing in the repository: [None] is an
    attribute that does not exist. *)
Record MCPTesterClient : Type := {
  transport : option string;
  server_params : gmap string (gmap string ConfigValue);
  sessions : gmap string ClientSession;
  exit_stacks : list (string * AsyncExitStack);
  stdio : option Stream;
  write : option Stream;
  transport_name : option string;
  transport_params : option (gmap string (gmap string ConfigValue))
}.

(** [MCPTesterClient(transport)]. *)
Definition init (tr : option string) : MCPTesterClient :=
  {| transport := tr; server_params := ∅; sessions := ∅; exit_stacks := [];
     stdio := None; write := None;
     transport_name := None; transport_params := None |}.

Definition set_server_params m (c : MCPTesterClient) : MCPTesterClient :=
  {| transport := transport c; server_params := m; sessions := sessions c;
     exit_stacks := exit_stacks c; stdio := stdio c; write := write c;
     transport_name := transport_name c; transport_params := transport_params c |}.
Definition set_sessions m (c : MCPTesterClient) : MCPTesterClient :=
  {| transport := transport c; server_params := server_params c; sessions := m;
     exit_stacks := exit_stacks c; stdio := stdio c; write := write c;
     transport_name := transport_name c; transport_params := transport_params c |}.
Definition set_exit_stacks d (c : MCPTesterClient) : MCPTesterClient :=
  {| transport := transport c; server_params := server_params c;
     sessions := sessions c; exit_stacks := d; stdio := stdio c; write := write c;
     transport_name := transport_name c; transport_params := transport_params c |}.
Definition set_streams (r w : Stream) (c : MCPTesterClient) : MCPTesterClient :=
  {| transport := transport c; server_params := server_params c;
     sessions := sessions c; exit_stacks := exit_stacks c;
     stdio := Some r; write := Some w;
     transport_name := transport_name c; transport_params := transport_params c |}.

(* ===================================================================== *)
(** ** The world, the run state and the monad of runs *)
(* ===================================================================== *)

(** A child process as psutil shows it. [cmdline = None]: [p.cmdline()]
    raises [psutil.Error]. *)
Record Proc : Type := {
  pid : Z;
  is_running : bool;
  cmdline : option (list string)
}.

Record World : Type := {
  (** [os.sep] *)
  os_sep : ascii;
  (** the lowercase mapping of the interpreter's Unicode tables: what
      [str.lower()] gives on text that is not ASCII *)
  str_lower : string -> string;
  (** the n-th reading of [time.monotonic()] in the run *)
  clock : nat -> Q;
  (** [me.children(recursive=False)] at the n-th scan of the process table *)
  children : nat -> list Proc;
  (** psutil's reading of process [pid] at the n-th [snapshot] of the run;
      [None] when it raises [psutil.Error] *)
  probe : Z -> nat -> option ProcReading;
  (** the module globals [tool] and [args] of advanced.py, when bound *)
  glob_tool : option string;
  glob_args : option string;
  (** what [await task] raises after [task.cancel()], if anything *)
  await_task : option PyExc;
  (** what awaiting [aclose()] on the stack of a server raises, if anything *)
  aclose_raises : string -> option PyExc;
  (** what entering the transport, entering the session and the handshake
      [wait_for(session.initialize(), 5.0)] raise for a server, if anything *)
  enter_transport : string -> option PyExc;
  enter_session : string -> option PyExc;
  initialize : string -> option PyExc
}.

Inductive LogLevel : Type := INFO | WARNING | ERROR.

Inductive Event : Type :=
| EvLog (lvl : LogLevel) (msg : string)
| EvSleep (seconds : Q)
| EvScan (n : nat)
| EvSnapshot (pid : Z) (s : Snapshot)
| EvCallTool (tool args : string)
| EvCancel
| EvAwaitTask
| EvAclose (server_id : string)
| EvMonotonic (t : Q)
| EvEnter (server_id : string) (c : Context_)
| EvInitialize (server_id : string).

Record RunState : Type := {
  client : MCPTesterClient;
  clock_reads : nat;
  scans : nat;
  probes : nat;
  trace : list Event
}.

Definition start (c : MCPTesterClient) : RunState :=
  {| client := c; clock_reads := 0; scans := 0; probes := 0; trace := [] |}.

Definition M (A : Type) : Type := World -> RunState -> result A * RunState.

Definition ret {A} (a : A) : M A := fun _ st => (Ret a, st).
Definition raise {A} (e : PyExc) : M A := fun _ st => (Raise e, st).
Definition diverge {A} : M A := fun _ st => (Diverge, st).
Definition bind {A B} (m : M A) (k : A -> M B) : M B :=
  fun w st =>
    match m w st with
    | (Ret a, st') => k a w st'
    | (Raise e, st') => (Raise e, st')
    | (Diverge, st') => (Diverge, st')
    end.

Declare Scope run_scope.
Delimit Scope run_scope with run.
Notation "x <- m ;; k" := (bind m (fun x => k))
  (at level 100, m at next level, right associativity) : run_scope.
Notation "m ;; k" := (bind m (fun _ => k))
  (at level 100, right associativity) : run_scope.
Local Open Scope run_scope.

(** [try: m  except <class>: handler] *)
Definition try_except {A} (m : M A) (catches : PyExc -> bool)
           (handler : PyExc -> M A) : M A :=
  fun w st =>
    match m w st with
    | (Raise e, st') => if catches e then handler e w st' else (Raise e, st')
    | other => other
    end.

Definition emit (e : Event) : M unit :=
  fun _ st =>
    (Ret tt, {| client := client st; clock_reads := clock_reads st;
                scans := scans st; probes := probes st;
                trace := trace st ++ [e] |}).

Definition get_client : M MCPTesterClient := fun _ st => (Ret (client st), st).

Definition put_client (c : MCPTesterClient) : M unit :=
  fun _ st =>
    (Ret tt, {| client := c; clock_reads := clock_reads st;
                scans := scans st; probes := probes st; trace := trace st |}).

Definition ask {A} (f : World -> A) : M A := fun w st => (Ret (f w), st).

(** [d[k]] and [obj.attr], which raise when the key or attribute is absent. *)
Definition subscript {A} (key : string) (o : option A) : M A :=
  match o with Some a => ret a | None => raise (KeyError key) end.
Definition getattr {A} (attr : string) (o : option A) : M A :=
  match o with Some a => ret a | None => raise (AttributeError attr) end.
Definition global {A} (name : string) (o : option A) : M A :=
  match o with Some a => ret a | None => raise (NameError name) end.

(** [await m] for a call that may raise. *)
Definition may_raise (o : option PyExc) : M unit :=
  match o with Some e => raise e | None => ret tt end.

Definition log (lvl : LogLevel) (msg : string) : M unit := emit (EvLog lvl msg).
Definition sleep (seconds : Q) : M unit := emit (EvSleep seconds).

(** [time.monotonic()] *)
Definition monotonic : M Q :=
  fun w st =>
    let t := clock w (clock_reads st) in
    (Ret t, {| client := client st; clock_reads := S (clock_reads st);
               scans := scans st; probes := probes st;
               trace := trace st ++ [EvMonotonic t] |}).

(** [me.children(recursive=False)] *)
Definition scan_children : M (list Proc) :=
  fun w st =>
    (Ret (children w (scans st)),
     {| client := client st; clock_reads := clock_reads st;
        scans := S (scans st); probes := probes st;
        trace := trace st ++ [EvScan (scans st)] |}).

(** [snapshot(proc)] in a run *)
Definition take_snapshot (p : Proc) : M Snapshot :=
  fun w st =>
    let s := snapshot (probe w (pid p) (probes st)) in
    (Ret s, {| client := client st; clock_reads := clock_reads st;
               scans := scans st; probes := S (probes st);
               trace := trace st ++ [EvSnapshot (pid p) s] |}).

(** [await stack.aclose()] on the stack of [server_id]: every context is
    exited, the stack is left empty, and the call raises what the world says. *)
Definition await_aclose (server_id : string) : M unit :=
  emit (EvAclose server_id) ;;
  c <- get_client ;;
  put_client (set_exit_stacks
                (PyDict.alter (fun _ => new_exit_stack) server_id (exit_stacks c))
                c) ;;
  o <- ask (fun w => aclose_raises w server_id) ;;
  may_raise o.

(* ===================================================================== *)
(** ** TransportManager: [add_server], the connects, [cleanup] *)
(* ===================================================================== *)

(** Log messages carry the server id; the [repr] of objects that the
    f-strings also print is left out. *)

(** [add_server] (generic_client.py, lines 68-76) *)
Definition add_server (server_id : string) (params : gmap string ConfigValue) : M unit :=
  log INFO ("Adding server " ++ server_id) ;;
  c <- get_client ;;
  put_client (set_server_params (<[server_id := params]> (server_params c)) c).

(** [await exit_stack.enter_async_context(cm)]: when [__aenter__] raises
    nothing is pushed. The local [exit_stack] of a connect is the object it
    has just stored under [server_id], so the update goes to that entry. *)
Definition enter_async_context (server_id : string) (ctx : Context_)
           (raises : World -> string -> option PyExc) : M unit :=
  emit (EvEnter server_id ctx) ;;
  o <- ask (fun w => raises w server_id) ;;
  may_raise o ;;
  c <- get_client ;;
  put_client (set_exit_stacks
                (PyDict.alter (enter_context ctx) server_id (exit_stacks c)) c).

(** [exit_stack.aclose()] with no [await] (lines 94 and 117): the call only
    builds a coroutine object, which is dropped; no context is exited. *)
Definition unawaited_aclose (server_id : string) : M unit := ret tt.

(** [await asyncio.wait_for(session.initialize(), timeout=5.0)]. The request
    reads the session's timeout with [read_timeout_seconds.total_seconds()]
    when it is not [None]: on the function that line 110 passed there, this
    raises [AttributeError] at once. Otherwise the world says how the
    handshake ends. *)
Definition await_initialize (server_id : string) (session : ClientSession) : M unit :=
  emit (EvInitialize server_id) ;;
  match read_timeout_seconds session with
  | GetSessionId _ => raise (AttributeError "total_seconds")
  | NoReadTimeout =>
      o <- ask (fun w => initialize w server_id) ;;
      may_raise o
  end.

(** The handshake and its handler, shared by both connects
    (lines 90-99 and 113-122). *)
Definition handshake (kind server_id : string) (session : ClientSession)
  : M (option ClientSession) :=
  try_except
    (log INFO ("Initializing session for " ++ kind ++ " server " ++ server_id) ;;
     await_initialize server_id session ;;
     ret (Some session))
    is_TimeoutError
    (fun _ =>
       unawaited_aclose server_id ;;
       c <- get_client ;;
       put_client (set_sessions (delete server_id (sessions c)) c) ;;
       log ERROR ("Timeout while initializing session for server " ++ server_id) ;;
       ret None).

(** [connect_server_stdio] (lines 78-99) *)
Definition connect_server_stdio (server_id : string) (p : StdioServerParameters)
  : M (option ClientSession) :=
  c <- get_client ;;
  put_client (set_exit_stacks
                (PyDict.set server_id new_exit_stack (exit_stacks c)) c) ;;
  enter_async_context server_id (StdioClientCtx p) enter_transport ;;
  let rd := ChildStdout (command p) in
  let wr := ChildStdin (command p) in
  c <- get_client ;;
  put_client (set_streams rd wr c) ;;
  let session := {| read_stream := rd; write_stream := wr;
                    read_timeout_seconds := NoReadTimeout |} in
  enter_async_context server_id (ClientSessionCtx session) enter_session ;;
  c <- get_client ;;
  put_client (set_sessions (<[server_id := session]> (sessions c)) c) ;;
  handshake "stdio" server_id session.

(** [connect_server_streamable_https] (lines 102-122). [streams] (line 109)
    holds the three values [streamablehttp_client] yields, and line 110
    unpacks all three into the arguments of [ClientSession]. *)
Definition connect_server_streamable_https (server_id server_url : string)
  : M (option ClientSession) :=
  c <- get_client ;;
  put_client (set_exit_stacks
                (PyDict.set server_id new_exit_stack (exit_stacks c)) c) ;;
  enter_async_context server_id (StreamableHttpCtx server_url) enter_transport ;;
  let session := {| read_stream := HttpRead server_url;
                    write_stream := HttpWrite server_url;
                    read_timeout_seconds := GetSessionId server_url |} in
  enter_async_context server_id (ClientSessionCtx session) enter_session ;;
  c <- get_client ;;
  put_client (set_sessions (<[server_id := session]> (sessions c)) c) ;;
  handshake "streamable https" server_id session.

(** The loop of [cleanup] over [self.exit_stacks.items()] (lines 129-135). *)
Fixpoint close_each (items : list (string * AsyncExitStack)) : M unit :=
  match items with
  | [] => ret tt
  | (server_id, _) :: rest =>
      try_except
        (log INFO ("Closing connection to " ++ server_id) ;;
         await_aclose server_id)
        is_Exception
        (fun _ => log WARNING ("Error closing " ++ server_id)) ;;
      close_each rest
  end.

(** [cleanup] (lines 124-140) *)
Definition cleanup : M unit :=
  log INFO "Cleaning up MCP client connections..." ;;
  c <- get_client ;;
  close_each (exit_stacks c) ;;
  c <- get_client ;;
  put_client (set_exit_stacks [] (set_sessions ∅ c)) ;;
  log INFO "All connections cleaned up".

(* ===================================================================== *)
(** ** ProcessLocator: [find_stdio_child] (advanced.py, lines 53-69) *)
(* ===================================================================== *)

(** [s.lower()]. ASCII text is lowered byte by byte; other text is lowered
    by the Unicode tables. Whatever the text, the result holds none of
    [A-Z]: lowering its ASCII letters again changes nothing of what
    [str.lower()] returns. *)
Definition lower (w : World) (s : string) : string :=
  ascii_lower (if is_ascii s then s else str_lower w s).

(** The body of the [for] loop: the lowered, joined command line contains
    the stem; a [psutil.Error] from [cmdline()] is passed over. *)
Definition matches (w : World) (cmd_stem : string) (p : Proc) : bool :=
  match cmdline p with
  | Some cl => contains cmd_stem (lower w (join " " cl))
  | None => false
  end.

Fixpoint first_match (w : World) (cmd_stem : string) (candidates : list Proc)
  : option Proc :=
  match candidates with
  | [] => None
  | p :: rest =>
      if matches w cmd_stem p then Some p else first_match w cmd_stem rest
  end.

Definition find_stdio_child (cmd_stem : string) : M Proc :=
  sleep (1 # 10) ;;
  cs <- scan_children ;;
  let candidates := List.filter is_running cs in
  found <- ask (fun w => first_match w cmd_stem candidates) ;;
  match found with
  | Some p => ret p
  | None => raise (RuntimeError "Could not locate stdio server process")
  end.

(* ===================================================================== *)
(** ** LeakDetector: [timeout_tester] (advanced.py, lines 7-50) *)
(* ===================================================================== *)

Record Kwargs : Type := {
  kw_grace : option Q;
  kw_server_id : option string
}.

(** ["clean"] and ["suspect_leak"] *)
Inductive Status : Type := Clean | SuspectLeak.

(** The dict the probe returns; [final = None] is Python's [None]. *)
Record ProbeResult : Type := {
  status : Status;
  baseline : Snapshot;
  final : option Snapshot
}.

Definition Qltb (a b : Q) : bool := negb (Qle_bool b a).

(** *** Binary64 addition (line 37)

    [x + y] on two doubles is their exact sum rounded to the nearest double,
    ties to the even mantissa. A double is [m * 2^e] with [|m| < 2^53] and
    [-1074 <= e <= 971]. A sum of [2^1024] or more stands for [inf]: every
    double is below it, as every double is below [inf]. *)
Definition pow2 (z : Z) : Q := (2 ^ z)%Q.

Definition binary64 (r : Q) : Prop :=
  exists m e : Z,
    Z.abs m < 2 ^ 53 /\ -1074 <= e <= 971 /\ (r == inject_Z m * pow2 e)%Q.

(** [floor (log2 x)] for a positive [x]. *)
Definition ilog2 (x : Q) : Z :=
  let k := Z.log2 (Qnum x) - Z.log2 (Z.pos (Qden x)) in
  if Qle_bool (pow2 k) x then k else k - 1.

(** The nearest integer, ties to even. *)
Definition round_half_even (s : Q) : Z :=
  let f := Qfloor s in
  match (s - inject_Z f ?= 1 # 2)%Q with
  | Lt => f
  | Gt => f + 1
  | Eq => if Z.even f then f else f + 1
  end.

(** The exponent of the last place of the doubles around a positive [x]:
    53 bits of mantissa, and no exponent below that of the subnormals. *)
Definition ulp_exponent (x : Q) : Z := Z.max (ilog2 x - 52) (-1074).

Definition round_positive (x : Q) : Q :=
  let e := ulp_exponent x in
  (inject_Z (round_half_even (x / pow2 e)) * pow2 e)%Q.

Definition round_binary64 (x : Q) : Q :=
  match (x ?= 0)%Q with
  | Eq => 0%Q
  | Gt => round_positive x
  | Lt => (- round_positive (- x))%Q
  end.

(** The rational a finite double is, to compare [round_binary64] with the
    addition of the kernel's doubles. *)
Definition Q_of_float (f : float) : Q :=
  match Prim2SF f with
  | S754_finite s m e =>
      (inject_Z (if s then Z.neg m else Z.pos m) * pow2 e)%Q
  | _ => 0%Q
  end.

(** [kwargs.get("grace", 5)] and [kwargs.get("server_id", "1")] *)
Definition grace_of (kw : Kwargs) : Q := default (5 # 1) (kw_grace kw).
Definition server_id_of (kw : Kwargs) : string := default "1" (kw_server_id kw).

(** Lines 28-31: [await task], where only [CancelledError] is passed over. *)
Definition await_cancelled_task : M unit :=
  try_except
    (emit EvAwaitTask ;;
     o <- ask await_task ;;
     may_raise o)
    is_CancelledError
    (fun _ => ret tt).

(** Lines 10-27: the guard, the lookups, the baseline snapshot, the call and
    the request to cancel it. Returns the process and the baseline. *)
Definition baseline_and_cancel (kw : Kwargs) : M (Proc * Snapshot) :=
  c <- get_client ;;
  tn <- getattr "transport_name" (transport_name c) ;;
  if negb (String.eqb tn "stdio")
  then raise (RuntimeError "timeout_tester only works with stdio transport")
  else
    let server_id := server_id_of kw in
    log INFO ("Running timeout_tester on server " ++ server_id) ;;
    tp <- getattr "transport_params" (transport_params c) ;;
    cfg <- subscript server_id (tp !! server_id) ;;
    v <- subscript "server_params" (cfg !! "server_params") ;;
    session <- subscript server_id (sessions c !! server_id) ;;
    stack <- subscript server_id (PyDict.get server_id (exit_stacks c)) ;;
    cmd <- match v with
           | CfgStdio p => ret (command p)
           | _ => raise (AttributeError "command")
           end ;;
    sep <- ask os_sep ;;
    cmd_stem <- ask (fun w => lower w (split_last sep cmd)) ;;
    proc <- find_stdio_child cmd_stem ;;
    base <- take_snapshot proc ;;
    gt <- ask glob_tool ;;
    tool <- global "tool" gt ;;
    ga <- ask glob_args ;;
    args <- global "args" ga ;;
    emit (EvCallTool tool args) ;;
    sleep (2 # 10) ;;
    emit EvCancel ;;
    ret (proc, base).

(** Lines 10-34: the above, then awaiting the cancelled call and the forced
    close of the session's exit stack. *)
Definition prelude (kw : Kwargs) : M (Proc * Snapshot) :=
  pb <- baseline_and_cancel kw ;;
  await_cancelled_task ;;
  await_aclose (server_id_of kw) ;;
  ret pb.

(** Lines 39-50: the drain loop, with [fuel] bounding its iterations. *)
Fixpoint drain (fuel : nat) (proc : Proc) (deadline : Q) (base : Snapshot)
         (last : option Snapshot) : M ProbeResult :=
  match fuel with
  | O => diverge
  | S fuel' =>
      t <- monotonic ;;
      if Qltb t deadline then
        s <- take_snapshot proc ;;
        if decayed base s
        then ret {| status := Clean; baseline := base; final := Some s |}
        else sleep (2 # 10) ;; drain fuel' proc deadline base (Some s)
      else ret {| status := SuspectLeak; baseline := base; final := last |}
  end.

(** [timeout_tester] (lines 7-50); [EvCallTool] is the
    [asyncio.create_task(session.call_tool(tool, args))] of line 24. *)
Definition timeout_tester (fuel : nat) (kw : Kwargs) : M ProbeResult :=
  pb <- prelude kw ;;
  t0 <- monotonic ;;
  drain fuel (fst pb) (round_binary64 (t0 + grace_of kw)) (snd pb) None.

(* ===================================================================== *)
(** ** Reading a run *)
(* ===================================================================== *)

(** The events of [n] full turns of the drain loop that starts at the
    [c0]-th clock reading and the [p0]-th snapshot, none of them decayed. *)
Fixpoint drain_events (w : World) (p : Z) (c0 p0 n : nat) : list Event :=
  match n with
  | O => []
  | S n' =>
      EvMonotonic (clock w c0)
        :: EvSnapshot p (snapshot (probe w p p0))
        :: EvSleep (2 # 10)
        :: drain_events w p (S c0) (S p0) n'
  end.

(** The [j]-th deadline check and the [j]-th snapshot of the drain loop in a
    run of [timeout_tester]: reading 0 of the clock is line 37 and snapshot
    0 is the baseline. *)
Definition drain_clock (w : World) (j : nat) : Q := clock w (S j).
Definition drain_snapshot (w : World) (proc : Proc) (j : nat) : Snapshot :=
  snapshot (probe w (pid proc) (S j)).

(** [deadline = time.monotonic() + grace] (line 37) *)
Definition deadline_of (w : World) (kw : Kwargs) : Q :=
  round_binary64 (clock w 0 + grace_of kw).

(** The value of [last] after [n] turns of the loop. *)
Definition last_taken (w : World) (proc : Proc) (n : nat) : option Snapshot :=
  match n with
  | O => None
  | S m => Some (drain_snapshot w proc m)
  end.

(** The snapshots a trace records, and the server ids whose stack it closes. *)
Definition snapshots_of (tr : list Event) : list Snapshot :=
  flat_map (fun e => match e with EvSnapshot _ s => [s] | _ => [] end) tr.
Definition closes_of (tr : list Event) : list string :=
  flat_map (fun e => match e with EvAclose i => [i] | _ => [] end) tr.

Definition is_snapshot_event (e : Event) : bool :=
  match e with EvSnapshot _ _ => true | _ => false end.
Definition is_call_event (e : Event) : bool :=
  match e with EvCallTool _ _ => true | _ => false end.
Definition is_cancel_event (e : Event) : bool :=
  match e with EvCancel => true | _ => false end.
Definition is_aclose_event (e : Event) : bool :=
  match e with EvAclose _ => true | _ => false end.

(** Every event satisfying [later] has one satisfying [earlier] strictly
    before it in the trace. *)
Definition precedes (earlier later : Event -> bool) (tr : list Event) : Prop :=
  forall l1 e l2,
    tr = (l1 ++ e :: l2)%list -> later e = true ->
    exists e', In e' l1 /\ earlier e' = true.

(** No event satisfying [a] occurs before an event satisfying [b]. *)
Definition never_before (a b : Event -> bool) (tr : list Event) : Prop :=
  forall l1 e l2,
    tr = (l1 ++ e :: l2)%list -> b e = true ->
    forall e', In e' l1 -> a e' = false.

(** Both orders, decided by one pass over the trace; [seen] records whether
    an [earlier] (an [a]) event has occurred so far. *)
Fixpoint precedes_b (earlier later : Event -> bool) (seen : bool)
         (tr : list Event) : bool :=
  match tr with
  | [] => true
  | e :: tr' =>
      (negb (later e) || seen)
      && precedes_b earlier later (seen || earlier e) tr'
  end.

Fixpoint never_before_b (a b : Event -> bool) (seen : bool)
         (tr : list Event) : bool :=
  match tr with
  | [] => true
  | e :: tr' =>
      (negb (b e) || negb seen)
      && never_before_b a b (seen || a e) tr'
  end.

(** The order [timeout_tester] keeps, as one check of a trace. *)
Definition ordered_b (tr : list Event) : bool :=
  precedes_b is_snapshot_event is_call_event false tr
  && precedes_b is_cancel_event is_aclose_event false tr
  && never_before_b is_aclose_event is_cancel_event false tr.

(** What the drain loop emits. *)
Definition is_drain_event (e : Event) : bool :=
  match e with
  | EvMonotonic _ | EvSnapshot _ _ | EvSleep _ => true
  | _ => false
  end.

(** The events of [cleanup]'s loop over [items] when every exception that a
    close raises is an [Exception]. *)
Definition close_events (w : World) (items : list (string * AsyncExitStack))
  : list Event :=
  flat_map
    (fun item =>
       EvLog INFO ("Closing connection to " ++ fst item)
         :: EvAclose (fst item)
         :: match aclose_raises w (fst item) with
            | Some _ => [EvLog WARNING ("Error closing " ++ fst item)]
            | None => []
            end)
    items.

(** The dict of stacks after [aclose()] was awaited on those of [ids]. *)
Definition close_stacks (ids : list string) (d : list (string * AsyncExitStack))
  : list (string * AsyncExitStack) :=
  fold_left (fun d id => PyDict.alter (fun _ => new_exit_stack) id d) ids d.

(** The events of lines 10-27 when every step succeeds. *)
Definition baseline_events (kw : Kwargs) (proc : Proc) (base : Snapshot)
           (tool args : string) : list Event :=
  [ EvLog INFO ("Running timeout_tester on server " ++ server_id_of kw);
    EvSleep (1 # 10); EvScan 0; EvSnapshot (pid proc) base;
    EvCallTool tool args; EvSleep (2 # 10); EvCancel ].

(** The events of lines 28-34 when the forced close is reached. *)
Definition cancelling_events (kw : Kwargs) : list Event :=
  [EvAwaitTask; EvAclose (server_id_of kw)].

(** The client after [await stack.aclose()] on the stack of [server_id]. *)
Definition closed_client (server_id : string) (c : MCPTesterClient) : MCPTesterClient :=
  set_exit_stacks
    (PyDict.alter (fun _ => new_exit_stack) server_id (exit_stacks c)) c.

(* ===================================================================== *)
(** ** A concrete client and world *)
(* ===================================================================== *)

Definition demo_params : StdioServerParameters :=
  {| command := "/usr/bin/Python3"; args := ["server.py"];
     cwd := None; env := None |}.

Definition demo_config : gmap string ConfigValue :=
  <["transport" := CfgStr "stdio"]>
    (<["server_params" := CfgStdio demo_params]> ∅).

Definition demo_reading (rss : Z) : ProcReading :=
  {| rd_rss := rss; rd_cpu := 1.0%float; rd_thr := 4; rd_fds := Some 3;
     rd_handles := None; rd_children := [] |}.

(** The lowercase mapping of the capital letters of Latin-1, U+00C0 to
    U+00DE without the multiplication sign U+00D7: in UTF-8, byte 195
    followed by a byte from 128 to 158 other than 151, to which 32 is added.
    The other bytes are kept. *)
Fixpoint latin1_lower (s : string) : string :=
  match s with
  | String c1 ((String c2 rest) as tail) =>
      let n := nat_of_ascii c2 in
      if ((nat_of_ascii c1 =? 195) && (128 <=? n) && (n <=? 158)
          && negb (n =? 151))%nat
      then String c1 (String (ascii_of_nat (n + 32)) (latin1_lower rest))
      else String c1 (latin1_lower tail)
  | other => other
  end.

(** The server is child 42; its memory is back at the baseline at the fourth
    snapshot of the run (the third of the drain loop) and far above before. *)
Definition demo_world : World :=
  {| os_sep := "/"%char;
     str_lower := latin1_lower;
     clock := fun n => (Z.of_nat n # 1)%Q;
     children := fun _ =>
       [ {| pid := 7; is_running := false; cmdline := Some ["python3"] |};
         {| pid := 8; is_running := true; cmdline := None |};
         {| pid := 42; is_running := true;
            cmdline := Some ["/usr/bin/python3"; "server.py"] |} ];
     probe := fun _ n =>
       Some (demo_reading (if (n =? 0)%nat || (n =? 3)%nat
                           then 50000000 else 200000000));
     glob_tool := Some "slow_tool";
     glob_args := Some "{}";
     await_task := Some CancelledError;
     aclose_raises := fun _ => None;
     enter_transport := fun _ => None;
     enter_session := fun _ => None;
     initialize := fun _ => None |}.

(** The same, with a server that never gives its memory back. *)
Definition leaky_world : World :=
  {| os_sep := os_sep demo_world;
     str_lower := str_lower demo_world;
     clock := clock demo_world;
     children := children demo_world;
     probe := fun _ n =>
       Some (demo_reading (if (n =? 0)%nat then 50000000 else 200000000));
     glob_tool := glob_tool demo_world;
     glob_args := glob_args demo_world;
     await_task := await_task demo_world;
     aclose_raises := aclose_raises demo_world;
     enter_transport := enter_transport demo_world;
     enter_session := enter_session demo_world;
     initialize := initialize demo_world |}.

(** What run.py does for [--transport stdio]: construct, register, connect. *)
Definition connected_client : MCPTesterClient :=
  client (snd ((add_server "1" demo_config ;;
                connect_server_stdio "1" demo_params)
                 demo_world (start (init (Some "stdio"))))).

(** A caller that sets the two attributes [timeout_tester] reads. *)
Definition with_probe_attributes (c : MCPTesterClient) : MCPTesterClient :=
  {| transport := transport c; server_params := server_params c;
     sessions := sessions c; exit_stacks := exit_stacks c;
     stdio := stdio c; write := write c;
     transport_name := Some "stdio";
     transport_params := Some (server_params c) |}.

Definition demo_client : MCPTesterClient :=
  with_probe_attributes connected_client.

Definition default_kwargs : Kwargs := {| kw_grace := None; kw_server_id := None |}.

Definition demo_proc : Proc :=
  {| pid := 42; is_running := true;
     cmdline := Some ["/usr/bin/python3"; "server.py"] |}.
Definition demo_base : Snapshot := Alive 50000000 1.0%float 4 (Some 3) None 0.

(** The world of [demo_world] in which the cancelled call fails with an
    error of the MCP library instead of [CancelledError]. *)
Definition failing_call_world : World :=
  {| os_sep := os_sep demo_world;
     str_lower := str_lower demo_world;
     clock := clock demo_world;
     children := children demo_world;
     probe := probe demo_world;
     glob_tool := glob_tool demo_world;
     glob_args := glob_args demo_world;
     await_task := Some (OtherException "McpError");
     aclose_raises := aclose_raises demo_world;
     enter_transport := enter_transport demo_world;
     enter_session := enter_session demo_world;
     initialize := initialize demo_world |}.

(** A client whose [transport_name] says streamable HTTP. *)
Definition https_client : MCPTesterClient :=
  {| transport := Some "https"; server_params := ∅; sessions := ∅;
     exit_stacks := []; stdio := None; write := None;
     transport_name := Some "streamable_https"; transport_params := Some ∅ |}.

Definition zero_grace : Kwargs := {| kw_grace := Some (0 # 1); kw_server_id := None |}.

(** A world in which the server is not yet in the process table at the
    first scan and is there from the second on. *)
Definition late_child_world : World :=
  {| os_sep := os_sep demo_world;
     str_lower := str_lower demo_world;
     clock := clock demo_world;
     children := fun n => if (n =? 0)%nat then [] else [demo_proc];
     probe := probe demo_world;
     glob_tool := glob_tool demo_world;
     glob_args := glob_args demo_world;
     await_task := await_task demo_world;
     aclose_raises := aclose_raises demo_world;
     enter_transport := enter_transport demo_world;
     enter_session := enter_session demo_world;
     initialize := initialize demo_world |}.

(** A second configuration for the same server id. *)
Definition https_config : gmap string ConfigValue :=
  <["transport" := CfgStr "streamable_https"]>
    (<["server_url" := CfgStr "https://example.com/mcp"]> ∅).

(** A world in which the handshake of every server times out. *)
Definition timeout_world : World :=
  {| os_sep := os_sep demo_world;
     str_lower := str_lower demo_world;
     clock := clock demo_world;
     children := children demo_world;
     probe := probe demo_world;
     glob_tool := glob_tool demo_world;
     glob_args := glob_args demo_world;
     await_task := await_task demo_world;
     aclose_raises := aclose_raises demo_world;
     enter_transport := enter_transport demo_world;
     enter_session := enter_session demo_world;
     initialize := fun _ => Some TimeoutError |}.

(** A world in which closing the stack of server ["a"] raises. *)
Definition faulty_close_world : World :=
  {| os_sep := os_sep demo_world;
     str_lower := str_lower demo_world;
     clock := clock demo_world;
     children := children demo_world;
     probe := probe demo_world;
     glob_tool := glob_tool demo_world;
     glob_args := glob_args demo_world;
     await_task := await_task demo_world;
     aclose_raises := fun id =>
       if String.eqb id "a" then Some (RuntimeError "broken pipe") else None;
     enter_transport := enter_transport demo_world;
     enter_session := enter_session demo_world;
     initialize := initialize demo_world |}.

(** A client connected to three servers, in this order. *)
Definition three_server_client : MCPTesterClient :=
  client (snd ((connect_server_stdio "a" demo_params ;;
                connect_server_stdio "b" demo_params ;;
                connect_server_streamable_https "c" "https://example.com/mcp")
                 demo_world (start (init None)))).

(** The world of [demo_world] as the repository leaves it: advanced.py binds
    neither [tool] nor [args]. *)
Definition unbound_world : World :=
  {| os_sep := os_sep demo_world;
     str_lower := str_lower demo_world;
     clock := clock demo_world;
     children := children demo_world;
     probe := probe demo_world;
     glob_tool := None;
     glob_args := None;
     await_task := await_task demo_world;
     aclose_raises := aclose_raises demo_world;
     enter_transport := enter_transport demo_world;
     enter_session := enter_session demo_world;
     initialize := initialize demo_world |}.

(** A world in which the handshake of every server fails with an error of
    the MCP library, and one in which no transport can be entered (the child
    cannot be spawned). *)
Definition handshake_error_world : World :=
  {| os_sep := os_sep demo_world;
     str_lower := str_lower demo_world;
     clock := clock demo_world;
     children := children demo_world;
     probe := probe demo_world;
     glob_tool := glob_tool demo_world;
     glob_args := glob_args demo_world;
     await_task := await_task demo_world;
     aclose_raises := aclose_raises demo_world;
     enter_transport := enter_transport demo_world;
     enter_session := enter_session demo_world;
     initialize := fun _ => Some (OtherException "McpError") |}.

Definition spawn_failure_world : World :=
  {| os_sep := os_sep demo_world;
     str_lower := str_lower demo_world;
     clock := clock demo_world;
     children := children demo_world;
     probe := probe demo_world;
     glob_tool := glob_tool demo_world;
     glob_args := glob_args demo_world;
     await_task := await_task demo_world;
     aclose_raises := aclose_raises demo_world;
     enter_transport := fun _ => Some (OtherException "FileNotFoundError");
     enter_session := enter_session demo_world;
     initialize := initialize demo_world |}.

(** The session object a stdio connect builds for a command. *)
Definition stdio_session (p : StdioServerParameters) : ClientSession :=
  {| read_stream := ChildStdout (command p);
     write_stream := ChildStdin (command p);
     read_timeout_seconds := NoReadTimeout |}.

(** The session object a streamable-HTTP connect builds for a URL. *)
Definition https_session (url : string) : ClientSession :=
  {| read_stream := HttpRead url; write_stream := HttpWrite url;
     read_timeout_seconds := GetSessionId url |}.

(** A session over the two streams of a streamable-HTTP connection, built
    with the default read timeout. *)
Definition http_stream_session (url : string) : ClientSession :=
  {| read_stream := HttpRead url; write_stream := HttpWrite url;
     read_timeout_seconds := NoReadTimeout |}.

(** A client whose [transport_name] says ["stdio"] and whose server ["1"] is
    registered with a command, while the session and the exit stack stored
    under ["1"] are those of a streamable-HTTP connection. *)
Definition mixed_client : MCPTesterClient :=
  let url := "https://example.com/mcp" in
  with_probe_attributes
    (set_exit_stacks
       [("1", {| entered := [ClientSessionCtx (http_stream_session url);
                             StreamableHttpCtx url] |})]
       (set_sessions
          (<["1" := http_stream_session url]> ∅)
          (client (snd (add_server "1" demo_config demo_world
                                   (start (init (Some "stdio")))))))).

(** Every server id with a session has an exit stack. *)
Definition lockstep (c : MCPTesterClient) : Prop :=
  forall id, is_Some (sessions c !! id) ->
             is_Some (PyDict.get id (exit_stacks c)).



(** A world in which closing the stack of server ["b"] is cancelled:
    [CancelledError] is not an [Exception]. *)
Definition cancelled_close_world : World :=
  {| os_sep := os_sep demo_world;
     str_lower := str_lower demo_world;
     clock := clock demo_world;
     children := children demo_world;
     probe := probe demo_world;
     glob_tool := glob_tool demo_world;
     glob_args := glob_args demo_world;
     await_task := await_task demo_world;
     aclose_raises := fun id =>
       if String.eqb id "b" then Some CancelledError else None;
     enter_transport := enter_transport demo_world;
     enter_session := enter_session demo_world;
     initialize := initialize demo_world |}.







(** The characters of a string; an uppercase ASCII letter, as [str.lower()]
    sees it. *)
Definition chars (s : string) : list ascii := list_ascii_of_string s.

Definition is_upper (c : ascii) : bool :=
  let n := nat_of_ascii c in ((65 <=? n)%nat && (n <=? 90)%nat)%bool.

Definition has_upper (s : string) : bool := existsb is_upper (chars s).

(** A child the locator can consider: running, with a command line that can
    be read. *)
Definition readable (p : Proc) : bool :=
  is_running p && match cmdline p with Some _ => true | None => false end.

(* ===================================================================== *)
(** ** The judge: [parse_judgement] (judge_model.py, lines 81-95) *)
(* ===================================================================== *)

(** What [str.strip()] removes is the white space of Unicode. A [str] being
    held as its UTF-8 bytes, a white-space character is one, two or three
    bytes:
    - one byte: U+0009 to U+000D, U+001C to U+001F and the space U+0020;
    - two bytes: U+0085 (194 133) and U+00A0 (194 160);
    - three bytes: U+1680 (225 154 128); U+2000 to U+200A, U+2028, U+2029
      and U+202F (226 128, then 128 to 138, 168, 169 or 175); U+205F
      (226 129 159); U+3000 (227 128 128). *)
Definition is_space (c : ascii) : bool :=
  let n := nat_of_ascii c in
  (((9 <=? n)%nat && (n <=? 13)%nat)
   || ((28 <=? n)%nat && (n <=? 31)%nat)
   || (n =? 32)%nat)%bool.

Definition two_byte_space (c1 c2 : ascii) : bool :=
  let n2 := nat_of_ascii c2 in
  ((nat_of_ascii c1 =? 194)%nat && ((n2 =? 133)%nat || (n2 =? 160)%nat))%bool.

Definition three_byte_space (c1 c2 c3 : ascii) : bool :=
  let n1 := nat_of_ascii c1 in
  let n2 := nat_of_ascii c2 in
  let n3 := nat_of_ascii c3 in
  (((n1 =? 225)%nat && (n2 =? 154)%nat && (n3 =? 128)%nat)
   || ((n1 =? 226)%nat && (n2 =? 128)%nat
       && (((128 <=? n3)%nat && (n3 <=? 138)%nat)
           || (n3 =? 168)%nat || (n3 =? 169)%nat || (n3 =? 175)%nat))
   || ((n1 =? 226)%nat && (n2 =? 129)%nat && (n3 =? 159)%nat)
   || ((n1 =? 227)%nat && (n2 =? 128)%nat && (n3 =? 128)%nat))%bool.

(** [s.lstrip()]: the white-space characters [s] starts with are dropped. *)
Fixpoint lstrip (s : string) : string :=
  match s with
  | EmptyString => EmptyString
  | String c1 r1 =>
      if is_space c1 then lstrip r1 else
      match r1 with
      | EmptyString => s
      | String c2 r2 =>
          if two_byte_space c1 c2 then lstrip r2 else
          match r2 with
          | EmptyString => s
          | String c3 r3 =>
              if three_byte_space c1 c2 c3 then lstrip r3 else s
          end
      end
  end.

(** Only white space: nothing is left of it. *)
Definition blank (s : string) : bool :=
  match lstrip s with EmptyString => true | _ => false end.

(** [s.rstrip()]: the text up to the point from which only white space
    follows. (Inside a character of several bytes nothing that follows is
    blank: white space starts with none of the bytes 128 to 191.) *)
Fixpoint rstrip (s : string) : string :=
  match s with
  | EmptyString => EmptyString
  | String c s' => if blank s then EmptyString else String c (rstrip s')
  end.

Definition strip (s : string) : string := rstrip (lstrip s).

(** A byte of ASCII that is no white space, and a text of such bytes. *)
Definition plain (c : ascii) : bool :=
  ((nat_of_ascii c <? 128)%nat && negb (is_space c))%bool.

Fixpoint all_plain (s : string) : bool :=
  match s with
  | EmptyString => true
  | String c s' => plain c && all_plain s'
  end.

(** [sep not in s] *)
Fixpoint free_of (sep : ascii) (s : string) : bool :=
  match s with
  | EmptyString => true
  | String c s' => negb (Ascii.eqb c sep) && free_of sep s'
  end.

(** [s.split(sep, 1)] when it gives two parts; [None] when [sep] does not
    occur and it gives one. *)
Fixpoint split_once (sep : ascii) (s : string) : option (string * string) :=
  match s with
  | EmptyString => None
  | String c s' =>
      if Ascii.eqb c sep then Some (EmptyString, s')
      else match split_once sep s' with
           | Some (head, tail) => Some (String c head, tail)
           | None => None
           end
  end.

(** The dict [parse_judgement] returns. *)
Record Judgement : Type := {
  risk_level : string;
  explanation : string
}.

Definition risk_levels : list string := ["Strong"; "Moderate"; "Low"].

Definition unknown_judgement : Judgement :=
  {| risk_level := "Unknown"; explanation := "Could not parse the response." |}.

(** The [try] block: the judgement, or the message of the [ValueError] it
    raises (from the unpacking of line 87 or from line 91). *)
Definition parse_response (response : string) : string + Judgement :=
  match split_once ":" response with
  | None => inl "not enough values to unpack (expected 2, got 1)"
  | Some (head, tail) =>
      let level := strip head in
      let expl := strip tail in
      if existsb (String.eqb level) risk_levels
      then inr {| risk_level := level; explanation := expl |}
      else inl "Invalid risk level"
  end.

(** [parse_judgement]: both errors are [Exception]s, caught by line 93. *)
Definition parse_judgement (response : string) : M Judgement :=
  match parse_response response with
  | inr j => ret j
  | inl msg =>
      log ERROR ("Failed to parse response: " ++ response ++ ". Error: " ++ msg) ;;
      ret unknown_judgement
  end.

(* ===================================================================== *)
(** ** The basic suite (basic.py) *)
(* ===================================================================== *)

(** A tool as [list_tools()] describes it. *)
Record Tool : Type := {
  tool_name : string;
  tool_description : option string
}.

(** What the judge model and the sessions decide.
    [server_ids] is [server_params.keys()]: the registered ids in the order
    of the dict, which the [gmap] of the client does not keep. *)
Record JudgeWorld : Type := {
  server_ids : list string;
  (** what [JudgeModel(model_path=MODEL_PATH)] raises, if anything *)
  load_model : option PyExc;
  (** [await session.list_tools()] on the session of a server *)
  list_tools : string -> PyExc + list Tool;
  (** [judge_model.judge(description)] for the n-th tool of a server *)
  judge : string -> nat -> PyExc + string
}.

(** [server_ids] lists the keys of [server_params], once each. *)
Definition lists_the_servers (jw : JudgeWorld) (c : MCPTesterClient) : Prop :=
  List.NoDup (server_ids jw)
  /\ forall id, In id (server_ids jw) <-> is_Some (server_params c !! id).

Definition MODEL_PATH : string :=
  "/home/alex/Desktop/projectCompliance/Llama-3.1-8B-Instruct-hf".

Definition returned {A} (r : PyExc + A) : M A :=
  match r with inl e => raise e | inr a => ret a end.

(** [not tool_description] *)
Definition no_description (t : Tool) : bool :=
  match tool_description t with
  | None => true
  | Some d => String.eqb d EmptyString
  end.

(** Lines 34-39: the log line of a risk level; nothing for ["Unknown"]. *)
Definition log_risk (t : Tool) (j : Judgement) : M unit :=
  if String.eqb (risk_level j) "Strong"
  then log WARNING ("Tool " ++ tool_name t ++ " has a strong risk level.")
  else if String.eqb (risk_level j) "Moderate"
  then log WARNING ("Tool " ++ tool_name t ++ " has a moderate risk level.")
  else if String.eqb (risk_level j) "Low"
  then log INFO ("Tool " ++ tool_name t ++ " has a low risk level.")
  else ret tt.

(** Lines 26-39, for the [i]-th tool of a server. The "judged as" line
    carries the risk level; the [repr] of the whole dict is left out. *)
Definition judge_tool (jw : JudgeWorld) (server_id : string) (i : nat) (t : Tool)
  : M unit :=
  log INFO ("Evaluating tool " ++ tool_name t) ;;
  (if no_description t
   then log WARNING ("Tool " ++ tool_name t ++ " has no description")
   else ret tt) ;;
  response <- returned (judge jw server_id i) ;;
  judgement <- parse_judgement response ;;
  log INFO ("Tool " ++ tool_name t ++ " judged as " ++ risk_level judgement) ;;
  log_risk t judgement.

Fixpoint judge_tools (jw : JudgeWorld) (server_id : string) (i : nat)
         (tools : list Tool) : M unit :=
  match tools with
  | [] => ret tt
  | t :: rest => judge_tool jw server_id i t ;; judge_tools jw server_id (S i) rest
  end.

(** Lines 21-39, for one server. *)
Definition scan_server (jw : JudgeWorld) (server_id : string) : M unit :=
  log INFO ("Testing server " ++ server_id) ;;
  c <- get_client ;;
  session <- subscript server_id (sessions c !! server_id) ;;
  tools <- returned (list_tools jw server_id) ;;
  judge_tools jw server_id 0 tools.

Fixpoint scan_servers (jw : JudgeWorld) (ids : list string) : M unit :=
  match ids with
  | [] => ret tt
  | id :: rest => scan_server jw id ;; scan_servers jw rest
  end.

(** [tool_description_pinjection] (basic.py, lines 11-40) *)
Definition tool_description_pinjection (jw : JudgeWorld) : M unit :=
  log INFO "Running tool description prompt injection test on servers" ;;
  may_raise (load_model jw) ;;
  log INFO ("Loaded model from " ++ MODEL_PATH) ;;
  scan_servers jw (server_ids jw).

Fixpoint log_servers (ids : list string) : M unit :=
  match ids with
  | [] => ret tt
  | id :: rest => log INFO ("Testing server " ++ id) ;; log_servers rest
  end.

(** [tool_response_pinjection] (basic.py, lines 42-52) *)
Definition tool_response_pinjection (jw : JudgeWorld) : M unit :=
  log INFO "Running tool response prompt injection test on servers" ;;
  log_servers (server_ids jw) ;;
  raise (OtherException "NotImplementedError").

(** *** Reading a scan *)

(** The state after more events, nothing else changed. *)
Definition after (st : RunState) (evs : list Event) : RunState :=
  {| client := client st; clock_reads := clock_reads st; scans := scans st;
     probes := probes st; trace := (trace st ++ evs)%list |}.

(** A computation that ends and only adds log lines to the trace. *)
Definition is_log (e : Event) : bool :=
  match e with EvLog _ _ => true | _ => false end.

Definition only_logs {A} (m : M A) : Prop :=
  forall w st,
    exists evs,
      snd (m w st) = after st evs
      /\ forallb is_log evs = true
      /\ fst (m w st) <> Diverge.

(** The names in the "Evaluating tool" lines of a trace, in order. *)
Fixpoint strip_prefix (p s : string) : option string :=
  match p with
  | EmptyString => Some s
  | String a p' =>
      match s with
      | String b s' => if Ascii.eqb a b then strip_prefix p' s' else None
      | EmptyString => None
      end
  end.

Definition evaluated_in (e : Event) : list string :=
  match e with
  | EvLog INFO msg =>
      match strip_prefix "Evaluating tool " msg with
      | Some name => [name]
      | None => []
      end
  | _ => []
  end.

Definition evaluated (tr : list Event) : list string := flat_map evaluated_in tr.

(** The events of a scan in which nothing raises: [answers] are the
    responses of the judge, by position of the tool. *)
Definition judgement_of (response : string) : Judgement :=
  match parse_response response with
  | inr j => j
  | inl _ => unknown_judgement
  end.

Definition parse_events (response : string) : list Event :=
  match parse_response response with
  | inr _ => []
  | inl msg =>
      [EvLog ERROR ("Failed to parse response: " ++ response ++ ". Error: " ++ msg)]
  end.

Definition risk_events (t : Tool) (j : Judgement) : list Event :=
  if String.eqb (risk_level j) "Strong"
  then [EvLog WARNING ("Tool " ++ tool_name t ++ " has a strong risk level.")]
  else if String.eqb (risk_level j) "Moderate"
  then [EvLog WARNING ("Tool " ++ tool_name t ++ " has a moderate risk level.")]
  else if String.eqb (risk_level j) "Low"
  then [EvLog INFO ("Tool " ++ tool_name t ++ " has a low risk level.")]
  else [].

Definition tool_events (t : Tool) (response : string) : list Event :=
  (EvLog INFO ("Evaluating tool " ++ tool_name t)
   :: (if no_description t
       then [EvLog WARNING ("Tool " ++ tool_name t ++ " has no description")]
       else [])
   ++ parse_events response
   ++ EvLog INFO ("Tool " ++ tool_name t ++ " judged as "
                    ++ risk_level (judgement_of response))
   :: risk_events t (judgement_of response))%list.

Fixpoint tools_events (answers : nat -> string) (i : nat) (tools : list Tool)
  : list Event :=
  match tools with
  | [] => []
  | t :: rest => (tool_events t (answers i) ++ tools_events answers (S i) rest)%list
  end.

Definition server_events (tools : string -> list Tool)
           (answers : string -> nat -> string) (server_id : string) : list Event :=
  EvLog INFO ("Testing server " ++ server_id)
  :: tools_events (answers server_id) 0 (tools server_id).

(** A server with two tools, the second without a description, and a judge
    whose second answer has no colon. *)
Definition demo_tools : list Tool :=
  [ {| tool_name := "echo"; tool_description := Some "Echo the input" |};
    {| tool_name := "shell"; tool_description := None |} ].

Definition demo_answers (i : nat) : string :=
  match i with
  | O => "Low: The input appears safe."
  | _ => "I cannot assess this input"
  end.

Definition demo_judge_world : JudgeWorld :=
  {| server_ids := ["1"];
     load_model := None;
     list_tools := fun _ => inr demo_tools;
     judge := fun _ i => inr (demo_answers i) |}.

(** A client with server "1" registered and not connected, and the same
    with a session. *)
Definition registered_client : MCPTesterClient :=
  set_server_params (<["1" := demo_config]> ∅) (init None).

Definition scanned_client : MCPTesterClient :=
  set_sessions (<["1" := stdio_session demo_params]> ∅) registered_client.

(* ===================================================================== *)
(** ** The registries and the runner (basic.py, advanced.py, run.py) *)
(* ===================================================================== *)

(** A test as the runner calls it: [tool_func(tester_client, **kwargs)],
    whose value is dropped. *)
Definition TestFunction : Type := Kwargs -> M unit.

(** [cancel_tester] (advanced.py, lines 97-105) takes no keyword argument:
    called with one it raises [TypeError] before its body, which raises
    [NotImplementedError]. *)
Definition cancel_tester : TestFunction :=
  fun kw =>
    match kw_grace kw, kw_server_id kw with
    | None, None => raise (OtherException "NotImplementedError")
    | _, _ => raise (OtherException "TypeError")
    end.

Definition BASIC_TEST_REGISTRY (jw : JudgeWorld) : list (string * TestFunction) :=
  [ ("tool_description_pinjection", fun _ => tool_description_pinjection jw);
    ("tool_response_pinjection", fun _ => tool_response_pinjection jw) ].

Definition ADVANCED_TOOL_REGISTRY (fuel : nat) : list (string * TestFunction) :=
  [ ("timeout_tester", fun kw => timeout_tester fuel kw ;; ret tt);
    ("cancel_tester", cancel_tester) ].

(** [TEST_REGISTRY] of run.py. run.py imports the second registry under the
    name [ADVANCED_TEST_REGISTRY], which advanced.py does not define; the
    registry of advanced.py is [ADVANCED_TOOL_REGISTRY]. [run_tests] and
    [main] below take the registry they look up as an argument. *)
Definition TEST_REGISTRY (jw : JudgeWorld) (fuel : nat)
  : list (string * list (string * TestFunction)) :=
  [ ("basic", BASIC_TEST_REGISTRY jw); ("advanced", ADVANCED_TOOL_REGISTRY fuel) ].

(** How a call ends when [sys.exit] can be reached: it returns, or
    [SystemExit] is on its way out with a status. [SystemExit] is no
    [Exception]: no handler of run.py catches it. *)
Inductive Exit (A : Type) : Type :=
| Done (a : A)
| SysExit (status : Z).
Arguments Done {A} a.
Arguments SysExit {A} status.

(** [if test:] *)
Definition given (test : option string) : option string :=
  match test with
  | Some t => if String.eqb t EmptyString then None else Some t
  | None => None
  end.

Fixpoint run_all (reg : list (string * TestFunction)) (kw : Kwargs) : M unit :=
  match reg with
  | [] => ret tt
  | (_, tool_func) :: rest => tool_func kw ;; run_all rest kw
  end.

(** [run_tests] (run.py, lines 88-108); [test_kwargs] is not used. *)
Definition run_tests (registry : list (string * list (string * TestFunction)))
           (server_id suite : string) (test : option string) : M (Exit unit) :=
  try_except
    (let test_registry := PyDict.get suite registry in
     let common_kwargs := {| kw_grace := None; kw_server_id := Some server_id |} in
     match given test with
     | Some t =>
         match test_registry with
         | None => raise (OtherException "TypeError")
         | Some reg =>
             match PyDict.get t reg with
             | Some tool_func =>
                 log INFO ("Running specific test '" ++ t ++ "' from suite '"
                             ++ suite ++ "'") ;;
                 tool_func common_kwargs ;;
                 ret (Done tt)
             | None =>
                 log ERROR ("Test '" ++ t ++ "' not found in suite '"
                              ++ suite ++ "'") ;;
                 ret (SysExit 1)
             end
         end
     | None =>
         log INFO ("Running all tests from suite '" ++ suite ++ "'") ;;
         match test_registry with
         | None => raise (AttributeError "items")
         | Some reg => run_all reg common_kwargs ;; ret (Done tt)
         end
     end)
    is_Exception
    (fun _ => log ERROR "Error running tests" ;; ret (SysExit 1)).

(* ===================================================================== *)
(** ** The command line: [main] (run.py, lines 110-176) *)
(* ===================================================================== *)

(** The namespace [parser.parse_args()] returns; an option that was not
    given is [None]. [--url] is taken as given. *)
Record Args : Type := {
  a_server_id : string;
  a_transport : string;
  a_suite : string;
  a_test : option string;
  a_cmd : option string;
  a_arg : option (list string);
  a_cwd : option string;
  a_env : option (list string);
  a_url : string;
  a_header : option (list string)
}.

(** [dict(x.split('=', 1) for x in items)], filling [d]: an item without
    ['='] has one part and [dict] raises [ValueError]. *)
Fixpoint dict_of (items : list string) (d : list (string * string))
  : option (list (string * string)) :=
  match items with
  | [] => Some d
  | x :: rest =>
      match split_once "=" x with
      | Some (k, v) => dict_of rest (PyDict.set k v d)
      | None => None
      end
  end.

(** [dict(...) if items else None] *)
Definition pairs_or_None (items : option (list string))
  : PyExc + option (list (string * string)) :=
  match items with
  | Some (x :: rest) =>
      match dict_of (x :: rest) [] with
      | Some d => inr (Some d)
      | None => inl (OtherException "ValueError")
      end
  | _ => inr None
  end.

(** Lines 136-141: the arguments are evaluated first, then the model is
    validated, and [command] must be a string. *)
Definition stdio_parameters (a : Args) : PyExc + StdioServerParameters :=
  match pairs_or_None (a_env a) with
  | inl e => inl e
  | inr e =>
      match a_cmd a with
      | None => inl (OtherException "ValidationError")
      | Some c =>
          inr {| command := c;
                 args := match a_arg a with Some l => l | None => [] end;
                 cwd := a_cwd a;
                 env := e |}
      end
  end.

(** Lines 128-153, the body of the first [try]. The parameters read back
    for the connect are the ones just stored. *)
Definition create_and_connect (a : Args) : M unit :=
  let server_id := a_server_id a in
  if String.eqb (a_transport a) "stdio" then
    log INFO "Creating MCPTesterClient with stdio transport" ;;
    put_client (init (Some "stdio")) ;;
    log INFO "Adding server configuration..." ;;
    p <- returned (stdio_parameters a) ;;
    add_server server_id
      (<["transport" := CfgStr "stdio"]> (<["server_params" := CfgStdio p]> ∅)) ;;
    connect_server_stdio server_id p ;;
    ret tt
  else if String.eqb (a_transport a) "http" then
    put_client (init (Some "https")) ;;
    h <- returned (pairs_or_None (a_header a)) ;;
    add_server server_id
      (<["transport" := CfgStr "streamable_https"]>
         (<["server_url" := CfgStr (a_url a)]>
            (<["headers" := CfgHeaders h]> ∅))) ;;
    connect_server_streamable_https server_id (a_url a) ;;
    ret tt
  else raise (OtherException "ValueError").

(** [try: body finally: finalizer]: the finalizer runs however the body
    ends, and what it raises replaces the outcome of the body. *)
Definition finally_ {A} (body : M A) (finalizer : M unit) : M A :=
  fun w st =>
    match body w st with
    | (Diverge, st') => (Diverge, st')
    | (r, st') =>
        match finalizer w st' with
        | (Ret _, st'') => (r, st'')
        | (Raise e, st'') => (Raise e, st'')
        | (Diverge, st'') => (Diverge, st'')
        end
    end.

(** Lines 171-172: the loop over [exit_stacks.values()]. *)
Fixpoint close_all (stacks : list (string * AsyncExitStack)) : M unit :=
  match stacks with
  | [] => ret tt
  | (server_id, _) :: rest => await_aclose server_id ;; close_all rest
  end.

(** Lines 168-175, the [finally] block. *)
Definition close_connections : M unit :=
  try_except
    (c <- get_client ;;
     close_all (exit_stacks c) ;;
     log INFO "Cleaned up MCP connections")
    is_Exception
    (fun _ => log WARNING "Error during cleanup").

(** [main], from line 120 on: the arguments are parsed. *)
Definition main (registry : list (string * list (string * TestFunction)))
           (a : Args) : M (Exit unit) :=
  let server_id := a_server_id a in
  log INFO ("Starting MCP Tester with server_id=" ++ server_id
              ++ ", transport=" ++ a_transport a) ;;
  connected <- try_except
                 (create_and_connect a ;; ret (Done tt))
                 is_Exception
                 (fun _ => log ERROR "Unexpected error" ;; ret (SysExit 1)) ;;
  match connected with
  | SysExit status => ret (SysExit status)
  | Done _ =>
      c <- get_client ;;
      match sessions c !! server_id with
      | None =>
          log ERROR "Failed to create or connect MCPTesterClient." ;;
          ret (SysExit 1)
      | Some _ =>
          finally_
            (try_except
               (run_tests registry server_id (a_suite a) (a_test a))
               is_Exception
               (fun _ => log ERROR "Unexpected error" ;; ret (SysExit 1)))
            close_connections
      end
  end.

(** *** Reading a run of [main] *)

(** The events of the session manager and the log lines: what is neither a
    process scan, a snapshot, a tool call, a sleep nor a clock reading. *)
Definition is_cli_event (e : Event) : bool :=
  match e with
  | EvLog _ _ | EvEnter _ _ | EvInitialize _ | EvAclose _ => true
  | _ => false
  end.

(** The arguments of the documented stdio invocations. *)
Definition demo_args (suite : string) (test : option string) : Args :=
  {| a_server_id := "1"; a_transport := "stdio"; a_suite := suite; a_test := test;
     a_cmd := Some "python"; a_arg := Some ["tester_server.py"]; a_cwd := None;
     a_env := None; a_url := EmptyString; a_header := None |}.

(** The third usage line of run.py: [--transport https]. *)
Definition https_args : Args :=
  {| a_server_id := "remote_server"; a_transport := "https";
     a_suite := "advanced"; a_test := None;
     a_cmd := None; a_arg := None; a_cwd := None; a_env := None;
     a_url := "https://api.example.com/mcp"; a_header := None |}.

(** A clock and a grace on which the binary64 sum of line 37 is below the
    exact sum: the first reading is the double 0.1, the grace the double
    0.7, and the next reading, 0.7999999999999999, is their binary64 sum. *)
Definition rounding_world : World :=
  {| os_sep := os_sep demo_world;
     str_lower := str_lower demo_world;
     clock := fun n => if (n =? 0)%nat then Q_of_float 0.1
                       else Q_of_float 0.7999999999999999;
     children := children demo_world;
     probe := probe demo_world;
     glob_tool := glob_tool demo_world;
     glob_args := glob_args demo_world;
     await_task := await_task demo_world;
     aclose_raises := aclose_raises demo_world;
     enter_transport := enter_transport demo_world;
     enter_session := enter_session demo_world;
     initialize := initialize demo_world |}.

Definition rounding_kwargs : Kwargs :=
  {| kw_grace := Some (Q_of_float 0.7); kw_server_id := None |}.

(** The no-break space U+00A0 and the ideographic space U+3000, in UTF-8;
    the capital and the small letter a with grave, U+00C0 and U+00E0. *)
Definition nbsp : string :=
  String (ascii_of_nat 194) (String (ascii_of_nat 160) EmptyString).
Definition ideographic_space : string :=
  String (ascii_of_nat 227)
         (String (ascii_of_nat 128) (String (ascii_of_nat 128) EmptyString)).
Definition capital_a_grave : string :=
  String (ascii_of_nat 195) (String (ascii_of_nat 128) EmptyString).
Definition small_a_grave : string :=
  String (ascii_of_nat 195) (String (ascii_of_nat 160) EmptyString).

(* ===================================================================== *)
(** * Properties *)
(* ===================================================================== *)

Local Open Scope list_scope.

(** ** The decay predicate on the scenarios of the specification *)

(** Scenario A: baseline rss 50 MB, 4 threads, no child; a drain snapshot
    with rss 48 MB, 5 threads, no child, cpu 1.0 is decayed. *)
Example scenario_A_decayed :
  decayed (Alive 50000000 0%float 4 None None 0)
          (Alive 48000000 1.0%float 5 None None 0) = true.
Proof. vm_compute. reflexivity. Qed.

(** Scenario B: a drain snapshot with rss 200 MB is not. *)
Example scenario_B_not_decayed :
  decayed (Alive 50000000 0%float 4 None None 0)
          (Alive 200000000 1.0%float 4 None None 0) = false.
Proof. vm_compute. reflexivity. Qed.

(** The rss bound in Scenario A is the double [60000000.000000007]: Python's
    [50_000_000 * 1.10 + 5_000_000]. An rss of 60 000 000 passes, one byte
    more does not. *)
Example rss_threshold :
  ok_rss (Alive 50000000 0%float 4 None None 0)
         (Alive 60000000 0%float 4 None None 0) = true
  /\ ok_rss (Alive 50000000 0%float 4 None None 0)
            (Alive 60000001 0%float 4 None None 0) = false.
Proof. split; vm_compute; reflexivity. Qed.

(** A process that has exited reads as all zeros, which is decayed. *)
Example dead_is_decayed :
  decayed (Alive 50000000 0%float 4 None None 0) Dead = true.
Proof. vm_compute. reflexivity. Qed.

Lemma decayed_iff (base last : Snapshot) :
  decayed base last = true <->
  ok_cpu last = true /\ ok_thr base last = true
  /\ ok_kids base last = true /\ ok_rss base last = true.
Proof.
  unfold decayed. rewrite !andb_true_iff. tauto.
Qed.

(** ** Comparisons of clock readings *)

Lemma Qltb_lt (a b : Q) : Qltb a b = true <-> (a < b)%Q.
Proof.
  unfold Qltb. rewrite negb_true_iff. split; intro H.
  - apply Qnot_le_lt. intro Hle. apply Qle_bool_iff in Hle. congruence.
  - destruct (Qle_bool b a) eqn:E; [ | reflexivity ].
    apply Qle_bool_iff in E. exfalso. exact (Qlt_not_le _ _ H E).
Qed.

Lemma Qltb_ge (a b : Q) : Qltb a b = false <-> (b <= a)%Q.
Proof.
  unfold Qltb. rewrite negb_false_iff. apply Qle_bool_iff.
Qed.

(** ** The binary64 sum *)

Lemma pow2_pos z : (0 < pow2 z)%Q.
Proof. apply Qpower_0_lt. reflexivity. Qed.

Lemma pow2_add a b : (pow2 (a + b) == pow2 a * pow2 b)%Q.
Proof. apply Qpower_plus. discriminate. Qed.

Lemma pow2_le a b : a <= b -> (pow2 a <= pow2 b)%Q.
Proof. intro H. apply Qpower_le_compat_l; [ exact H | discriminate ]. Qed.

Lemma pow2_Z z : 0 <= z -> (pow2 z == inject_Z (2 ^ z))%Q.
Proof. intro H. unfold pow2. now rewrite (Zpower_Qpower 2 z H). Qed.

Lemma div_pow2 x e : (x / pow2 e == x * pow2 (- e))%Q.
Proof. unfold Qdiv, pow2. now rewrite Qpower_opp. Qed.

Lemma mul_div_pow2 x e : (x / pow2 e * pow2 e == x)%Q.
Proof.
  rewrite div_pow2, <- Qmult_assoc.
  rewrite <- pow2_add. replace (- e + e) with 0 by lia.
  change (pow2 0) with 1%Q. ring.
Qed.

Lemma inject_Z_pos z : 0 < z -> (0 < inject_Z z)%Q.
Proof. intro H. change 0%Q with (inject_Z 0). now rewrite <- Zlt_Qlt. Qed.

(** [pow2 (a - b)] as a quotient of integers. *)
Lemma pow2_sub a b :
  0 <= a -> 0 <= b -> (pow2 (a - b) == inject_Z (2 ^ a) / inject_Z (2 ^ b))%Q.
Proof.
  intros Ha Hb. replace (a - b) with (a + - b) by lia.
  rewrite pow2_add, <- (pow2_Z a Ha), <- (pow2_Z b Hb).
  unfold Qdiv, pow2. now rewrite Qpower_opp.
Qed.

Lemma ilog2_spec x :
  (0 < x)%Q -> (pow2 (ilog2 x) <= x)%Q /\ (x < pow2 (ilog2 x + 1))%Q.
Proof.
  intro Hx. destruct x as [n d]. unfold ilog2. cbn [Qnum Qden].
  unfold Qlt in Hx. cbn in Hx.
  assert (Hn : 0 < n) by lia.
  pose proof (Z.log2_spec n Hn) as [Hn1 Hn2].
  pose proof (Z.log2_spec (Z.pos d) (Pos2Z.is_pos d)) as [Hd1 Hd2].
  pose proof (Z.log2_nonneg n) as Ha.
  pose proof (Z.log2_nonneg (Z.pos d)) as Hb.
  remember (Z.log2 n) as a eqn:Ea. remember (Z.log2 (Z.pos d)) as b eqn:Eb.
  clear Ea Eb.
  assert (Hpa : 0 < 2 ^ a) by (apply Z.pow_pos_nonneg; lia).
  assert (Hpb : 0 < 2 ^ b) by (apply Z.pow_pos_nonneg; lia).
  rewrite Z.pow_succ_r in Hn2, Hd2 by assumption.
  assert (Hup : (n # d < pow2 (a - b + 1))%Q).
  { replace (a - b + 1) with (Z.succ a - b) by lia.
    rewrite pow2_sub by lia.
    apply Qlt_shift_div_l; [ now apply inject_Z_pos | ].
    rewrite Z.pow_succ_r by assumption.
    unfold Qlt, Qmult, inject_Z. cbn [Qnum Qden].
    rewrite Pos2Z.inj_mul. nia. }
  assert (Hlow : (pow2 (a - b - 1) <= n # d)%Q).
  { replace (a - b - 1) with (a - Z.succ b) by lia.
    rewrite pow2_sub by lia.
    apply Qle_shift_div_r;
      [ apply inject_Z_pos; apply Z.pow_pos_nonneg; lia | ].
    rewrite Z.pow_succ_r by assumption.
    unfold Qle, Qmult, inject_Z. cbn [Qnum Qden].
    rewrite Pos2Z.inj_mul. nia. }
  destruct (Qle_bool (pow2 (a - b)) (n # d)) eqn:E.
  - split; [ now apply Qle_bool_iff | exact Hup ].
  - split; [ exact Hlow | ].
    replace (a - b - 1 + 1) with (a - b) by lia.
    apply Qnot_le_lt. intro H. apply Qle_bool_iff in H. congruence.
Qed.

Lemma round_half_even_ge s : Qfloor s <= round_half_even s.
Proof.
  unfold round_half_even.
  destruct (s - inject_Z (Qfloor s) ?= 1 # 2)%Q; [ destruct (Z.even _) | | ]; lia.
Qed.

Lemma round_half_even_le s : round_half_even s <= Qceiling s.
Proof.
  pose proof (Qle_floor_ceiling s) as Hfc. rewrite <- Zle_Qle in Hfc.
  assert (Hup : (inject_Z (Qfloor s) < s)%Q -> Qfloor s + 1 <= Qceiling s).
  { intro H. pose proof (Qle_ceiling s) as Hc.
    assert (Hlt : (inject_Z (Qfloor s) < inject_Z (Qceiling s))%Q)
      by (eapply Qlt_le_trans; eauto).
    rewrite <- Zlt_Qlt in Hlt. lia. }
  unfold round_half_even.
  destruct (s - inject_Z (Qfloor s) ?= 1 # 2)%Q eqn:E.
  - destruct (Z.even _); [ exact Hfc | ].
    apply Hup. apply Qeq_alt in E. lra.
  - exact Hfc.
  - apply Hup. apply Qgt_alt in E. lra.
Qed.

(** A positive double that is not below [y] is a multiple of the unit in
    the last place of [y]. *)
Lemma multiple_of_ulp y m e :
  (0 < y)%Q -> Z.abs m < 2 ^ 53 -> -1074 <= e ->
  (y <= inject_Z m * pow2 e)%Q ->
  exists z, (inject_Z m * pow2 e == inject_Z z * pow2 (ulp_exponent y))%Q.
Proof.
  intros Hy Hm He Hle.
  destruct (ilog2_spec y Hy) as [Hlow _].
  destruct (Z_le_gt_dec (ulp_exponent y) e) as [Hge | Hlt].
  - exists (m * 2 ^ (e - ulp_exponent y)).
    rewrite inject_Z_mult, <- pow2_Z by lia.
    rewrite <- Qmult_assoc, <- pow2_add.
    now replace (e - ulp_exponent y + ulp_exponent y) with e by lia.
  - exfalso. unfold ulp_exponent in Hlt.
    assert (He2 : 53 + e <= ilog2 y) by lia.
    assert (Hm2 : (inject_Z m < inject_Z (2 ^ 53))%Q) by (rewrite <- Zlt_Qlt; lia).
    assert (Hq : (inject_Z m * pow2 e < pow2 (53 + e))%Q).
    { rewrite pow2_add, (pow2_Z 53) by lia.
      apply Qmult_lt_compat_r; [ apply pow2_pos | exact Hm2 ]. }
    pose proof (pow2_le _ _ He2) as Hp. lra.
Qed.

Lemma round_positive_le y q :
  (0 < y)%Q -> binary64 q -> (y <= q)%Q -> (round_positive y <= q)%Q.
Proof.
  intros Hy (m & e & Hm & [He _] & Hq) Hle.
  rewrite Hq in Hle.
  destruct (multiple_of_ulp y m e Hy Hm He Hle) as (z & Hz).
  rewrite Hq, Hz. unfold round_positive.
  apply Qmult_le_compat_r; [ | apply Qlt_le_weak, pow2_pos ].
  rewrite <- Zle_Qle.
  etransitivity; [ apply round_half_even_le | ].
  rewrite <- (Qceiling_Z z). apply Qceiling_resp_le.
  apply (Qmult_le_r _ _ (pow2 (ulp_exponent y))); [ apply pow2_pos | ].
  rewrite mul_div_pow2, <- Hz. exact Hle.
Qed.

Lemma round_positive_nonneg y : (0 < y)%Q -> (0 <= round_positive y)%Q.
Proof.
  intro Hy. unfold round_positive.
  apply Qmult_le_0_compat; [ | apply Qlt_le_weak, pow2_pos ].
  change 0%Q with (inject_Z 0). rewrite <- Zle_Qle.
  etransitivity; [ | apply round_half_even_ge ].
  change 0 with (Qfloor 0). apply Qfloor_resp_le.
  apply Qle_shift_div_l; [ apply pow2_pos | lra ].
Qed.

Lemma round_positive_ge y q :
  (0 < y)%Q -> binary64 q -> (q <= y)%Q -> (q <= round_positive y)%Q.
Proof.
  intros Hy (m & e & Hm & [He _] & Hq) Hle.
  destruct (Qlt_le_dec 0 q) as [Hpos | Hneg];
    [ | eapply Qle_trans; [ exact Hneg | now apply round_positive_nonneg ] ].
  destruct (ilog2_spec y Hy) as [Hlow _].
  rewrite Hq in Hle, Hpos.
  destruct (Z_le_gt_dec (ulp_exponent y) e) as [Hge | Hlt].
  - assert (Hz : (inject_Z m * pow2 e
                  == inject_Z (m * 2 ^ (e - ulp_exponent y))
                     * pow2 (ulp_exponent y))%Q).
    { rewrite inject_Z_mult, <- pow2_Z by lia.
      rewrite <- Qmult_assoc, <- pow2_add.
      now replace (e - ulp_exponent y + ulp_exponent y) with e by lia. }
    rewrite Hq, Hz. unfold round_positive.
    apply Qmult_le_compat_r; [ | apply Qlt_le_weak, pow2_pos ].
    rewrite <- Zle_Qle.
    etransitivity; [ | apply round_half_even_ge ].
    rewrite <- (Qfloor_Z (m * 2 ^ (e - ulp_exponent y))) at 1.
    apply Qfloor_resp_le.
    apply (Qmult_le_r _ _ (pow2 (ulp_exponent y))); [ apply pow2_pos | ].
    rewrite mul_div_pow2, <- Hz. exact Hle.
  - assert (Hu : ulp_exponent y = ilog2 y - 52) by (unfold ulp_exponent in *; lia).
    assert (He2 : 53 + e <= ilog2 y) by lia.
    assert (Hm2 : (inject_Z m < inject_Z (2 ^ 53))%Q) by (rewrite <- Zlt_Qlt; lia).
    assert (Hq2 : (inject_Z m * pow2 e < pow2 (ilog2 y))%Q).
    { eapply Qlt_le_trans; [ | apply (pow2_le _ _ He2) ].
      rewrite pow2_add, (pow2_Z 53) by lia.
      apply Qmult_lt_compat_r; [ apply pow2_pos | exact Hm2 ]. }
    rewrite Hq. apply Qlt_le_weak. eapply Qlt_le_trans; [ exact Hq2 | ].
    unfold round_positive. rewrite Hu.
    assert (Hk : (pow2 (ilog2 y) == inject_Z (2 ^ 52) * pow2 (ilog2 y - 52))%Q).
    { rewrite <- pow2_Z, <- pow2_add by lia.
      now replace (52 + (ilog2 y - 52)) with (ilog2 y) by lia. }
    rewrite Hk at 1.
    apply Qmult_le_compat_r; [ | apply Qlt_le_weak, pow2_pos ].
    rewrite <- Zle_Qle.
    etransitivity; [ | apply round_half_even_ge ].
    rewrite <- (Qfloor_Z (2 ^ 52)) at 1.
    apply Qfloor_resp_le.
    apply (Qmult_le_r _ _ (pow2 (ilog2 y - 52))); [ apply pow2_pos | ].
    rewrite mul_div_pow2, <- Hk. exact Hlow.
Qed.

Lemma binary64_opp q : binary64 q -> binary64 (- q).
Proof.
  intros (m & e & Hm & He & Hq). exists (- m), e.
  split; [ lia | split; [ exact He | ] ].
  rewrite Hq, inject_Z_opp. ring.
Qed.

(** The double nearest to [x] is not above a double that [x] is not above,
    nor below one that [x] is not below. *)
Lemma round_binary64_le x r :
  binary64 r -> (x <= r)%Q -> (round_binary64 x <= r)%Q.
Proof.
  intros Hr Hle. unfold round_binary64.
  destruct (x ?= 0)%Q eqn:E.
  - apply Qeq_alt in E. lra.
  - apply Qlt_alt in E.
    assert (H : (- r <= round_positive (- x))%Q).
    { apply round_positive_ge; [ lra | now apply binary64_opp | lra ]. }
    lra.
  - apply Qgt_alt in E. now apply round_positive_le.
Qed.

Lemma round_binary64_ge x r :
  binary64 r -> (r <= x)%Q -> (r <= round_binary64 x)%Q.
Proof.
  intros Hr Hle. unfold round_binary64.
  destruct (x ?= 0)%Q eqn:E.
  - apply Qeq_alt in E. lra.
  - apply Qlt_alt in E.
    assert (H : (round_positive (- x) <= - r)%Q).
    { apply round_positive_le; [ lra | now apply binary64_opp | lra ]. }
    lra.
  - apply Qgt_alt in E. now apply round_positive_ge.
Qed.

(** [round_binary64] on some sums, against the addition of the kernel's
    doubles: a sum that rounds down, the default grace, a tie, a subnormal
    sum, a negative sum. *)
Example round_binary64_agrees :
  forallb (fun xy => Qeq_bool (round_binary64 (Q_of_float (fst xy) + Q_of_float (snd xy)))
                              (Q_of_float (fst xy + snd xy)%float))
          [ (0.1, 0.7); (0.1, 5.0); (0.1, 0.2); (9007199254740992.0, 1.0);
            (9007199254740992.0, 3.0); (1e-310, 3e-320); (-0.1, -0.7);
            (123456.789, 0.3); (1.0, -0.9999999999999999) ]%float
  = true.
Proof. vm_compute. reflexivity. Qed.

(** ** The drain loop *)

Section Drain.
Variable w : World.
Variable proc : Proc.
Variable deadline : Q.
Variable base : Snapshot.

(** The loop from a state [st], when the snapshot of turn [k] is the first
    decayed one and every deadline check up to it passes. *)
Lemma drain_clean (k : nat) :
  forall fuel last st,
    (forall j, (j <= k)%nat -> (clock w (clock_reads st + j) < deadline)%Q) ->
    (forall j, (j < k)%nat ->
               decayed base (snapshot (probe w (pid proc) (probes st + j))) = false) ->
    decayed base (snapshot (probe w (pid proc) (probes st + k))) = true ->
    (k < fuel)%nat ->
    drain fuel proc deadline base last w st =
      (Ret {| status := Clean; baseline := base;
              final := Some (snapshot (probe w (pid proc) (probes st + k))) |},
       {| client := client st;
          clock_reads := clock_reads st + k + 1;
          scans := scans st;
          probes := probes st + k + 1;
          trace := trace st
                   ++ drain_events w (pid proc) (clock_reads st) (probes st) k
                   ++ [EvMonotonic (clock w (clock_reads st + k));
                       EvSnapshot (pid proc)
                         (snapshot (probe w (pid proc) (probes st + k)))] |}).
Proof.
  induction k as [|k' IH]; intros fuel last st Hclk Hno Hyes Hfuel;
    (destruct fuel as [|fuel']; [ lia | ]).
  - pose proof (Hclk 0%nat (Nat.le_refl _)) as H0.
    rewrite Nat.add_0_r in H0, Hyes. apply Qltb_lt in H0.
    cbn [drain]. unfold bind, monotonic, take_snapshot, ret. cbn.
    rewrite H0. cbn. rewrite Hyes. cbn.
    rewrite !Nat.add_0_r, <- app_assoc.
    repeat (f_equal; try lia).
  - pose proof (Hclk 0%nat (Nat.le_0_l _)) as H0.
    pose proof (Hno 0%nat (Nat.lt_0_succ _)) as Hn0.
    rewrite Nat.add_0_r in H0, Hn0. apply Qltb_lt in H0.
    cbn [drain]. unfold bind, monotonic, take_snapshot, sleep, emit, ret. cbn.
    rewrite H0. cbn. rewrite Hn0. cbn.
    rewrite (IH fuel' _ _); cbn.
    + rewrite <- !app_assoc, <- !Nat.add_succ_r. cbn.
      repeat (f_equal; try lia).
    + intros j Hj. rewrite <- Nat.add_succ_r. apply Hclk. lia.
    + intros j Hj. rewrite <- Nat.add_succ_r. apply Hno. lia.
    + rewrite <- Nat.add_succ_r. exact Hyes.
    + lia.
Qed.

(** The loop from a state [st], when the deadline check of turn [n] is the
    first to fail and no snapshot before it is decayed. *)
Lemma drain_suspect (n : nat) :
  forall fuel last st,
    (forall j, (j < n)%nat -> (clock w (clock_reads st + j) < deadline)%Q) ->
    (deadline <= clock w (clock_reads st + n))%Q ->
    (forall j, (j < n)%nat ->
               decayed base (snapshot (probe w (pid proc) (probes st + j))) = false) ->
    (n < fuel)%nat ->
    drain fuel proc deadline base last w st =
      (Ret {| status := SuspectLeak; baseline := base;
              final := match n with
                       | O => last
                       | S m => Some (snapshot (probe w (pid proc) (probes st + m)))
                       end |},
       {| client := client st;
          clock_reads := clock_reads st + n + 1;
          scans := scans st;
          probes := probes st + n;
          trace := trace st
                   ++ drain_events w (pid proc) (clock_reads st) (probes st) n
                   ++ [EvMonotonic (clock w (clock_reads st + n))] |}).
Proof.
  induction n as [|n' IH]; intros fuel last st Hclk Hend Hno Hfuel;
    (destruct fuel as [|fuel']; [ lia | ]).
  - rewrite Nat.add_0_r in Hend. apply Qltb_ge in Hend.
    cbn [drain]. unfold bind, monotonic, ret. cbn.
    rewrite Hend. cbn. rewrite !Nat.add_0_r.
    repeat (f_equal; try lia).
  - pose proof (Hclk 0%nat (Nat.lt_0_succ _)) as H0.
    pose proof (Hno 0%nat (Nat.lt_0_succ _)) as Hn0.
    rewrite Nat.add_0_r in H0, Hn0. apply Qltb_lt in H0.
    cbn [drain]. unfold bind, monotonic, take_snapshot, sleep, emit, ret. cbn.
    rewrite H0. cbn. rewrite Hn0. cbn.
    rewrite (IH fuel' _ _); cbn.
    + rewrite <- !app_assoc, <- !Nat.add_succ_r. cbn.
      destruct n' as [|m].
      * rewrite Nat.add_0_r. repeat (f_equal; try lia).
      * rewrite <- !Nat.add_succ_r. repeat (f_equal; try lia).
    + intros j Hj. rewrite <- Nat.add_succ_r. apply Hclk. lia.
    + rewrite <- Nat.add_succ_r. exact Hend.
    + intros j Hj. rewrite <- Nat.add_succ_r. apply Hno. lia.
    + lia.
Qed.
End Drain.

(** ** Stepping through a run *)

Ltac run_in H :=
  cbv beta iota zeta delta
      [bind ret raise diverge getattr subscript global may_raise ask emit log
       sleep get_client put_client monotonic scan_children take_snapshot
       try_except find_stdio_child await_aclose await_cancelled_task
       baseline_and_cancel prelude timeout_tester start
       client clock_reads scans probes trace fst snd app] in H.

Ltac run :=
  cbv beta iota zeta delta
      [bind ret raise diverge getattr subscript global may_raise ask emit log
       sleep get_client put_client monotonic scan_children take_snapshot
       try_except find_stdio_child await_aclose await_cancelled_task
       baseline_and_cancel prelude timeout_tester start
       client clock_reads scans probes trace fst snd app].

(** Case analysis on the innermost stuck [match] of a hypothesis. *)
Ltac case_in H :=
  match type of H with
  | context [match ?x with _ => _ end] =>
      lazymatch x with
      | context [match _ with _ => _ end] => fail
      | _ => destruct x eqn:?; run_in H; try discriminate H
      end
  end.

(** ** The phases before the drain loop *)

Lemma baseline_and_cancel_inv kw w c pb st1 :
  baseline_and_cancel kw w (start c) = (Ret pb, st1) ->
  exists tool args,
    st1 = {| client := c; clock_reads := 0; scans := 1; probes := 1;
             trace := baseline_events kw (fst pb) (snd pb) tool args |}
    /\ snd pb = snapshot (probe w (pid (fst pb)) 0)
    /\ transport_name c = Some "stdio"
    /\ is_Some (PyDict.get (server_id_of kw) (exit_stacks c)).
Proof.
  intro H. run_in H. repeat case_in H.
  inversion H; subst; clear H.
  apply negb_false_iff, String.eqb_eq in Heqb. subst.
  do 2 eexists. cbn. repeat split; eauto.
Qed.

Lemma prelude_inv kw w c pb st1 :
  prelude kw w (start c) = (Ret pb, st1) ->
  exists tool args,
    st1 = {| client := closed_client (server_id_of kw) c;
             clock_reads := 0; scans := 1; probes := 1;
             trace := baseline_events kw (fst pb) (snd pb) tool args
                      ++ cancelling_events kw |}
    /\ snd pb = snapshot (probe w (pid (fst pb)) 0)
    /\ transport_name c = Some "stdio"
    /\ (await_task w = None \/ await_task w = Some CancelledError)
    /\ aclose_raises w (server_id_of kw) = None.
Proof.
  intro H. unfold prelude in H. unfold bind at 1 in H.
  destruct (baseline_and_cancel kw w (start c)) as [[pb'| |] st'] eqn:E;
    try discriminate H.
  apply baseline_and_cancel_inv in E.
  destruct E as (tool & args & -> & Hbase & Htn & _).
  run_in H. repeat case_in H; inversion H; subst; clear H;
    exists tool, args; repeat split; auto;
    match goal with
    | Hc : is_CancelledError ?e = true |- _ => destruct e; try discriminate Hc; auto
    end.
Qed.

(** Lines 10-34 return when the two attributes exist, the server has a
    stdio configuration, a session and an exit stack, a child matches, both
    globals are bound, the awaited call raises [CancelledError] or nothing,
    and the close raises nothing. *)
Lemma prelude_returns kw w c tp cfg p session stack proc tool args :
  transport_name c = Some "stdio" ->
  transport_params c = Some tp ->
  tp !! server_id_of kw = Some cfg ->
  cfg !! "server_params" = Some (CfgStdio p) ->
  sessions c !! server_id_of kw = Some session ->
  PyDict.get (server_id_of kw) (exit_stacks c) = Some stack ->
  first_match w (lower w (split_last (os_sep w) (command p)))
              (List.filter is_running (children w 0)) = Some proc ->
  glob_tool w = Some tool ->
  glob_args w = Some args ->
  await_task w = None \/ await_task w = Some CancelledError ->
  aclose_raises w (server_id_of kw) = None ->
  prelude kw w (start c) =
  (Ret (proc, snapshot (probe w (pid proc) 0)),
   {| client := closed_client (server_id_of kw) c;
      clock_reads := 0; scans := 1; probes := 1;
      trace := baseline_events kw proc (snapshot (probe w (pid proc) 0)) tool args
               ++ cancelling_events kw |}).
Proof.
  intros Htn Htp Hcfg Hsp Hse Hst Hfm Hgt Hga Haw Hcl. run.
  rewrite Htn. cbn. rewrite Htp, Hcfg, Hsp, Hse, Hst. cbn.
  rewrite Hfm, Hgt, Hga. cbn.
  destruct Haw as [-> | ->]; cbn; rewrite Hcl; reflexivity.
Qed.

(** ** Searching for the first turn at which something happens *)

Lemma first_true (P : nat -> bool) (k : nat) :
  P k = true ->
  exists k0, (k0 <= k)%nat /\ P k0 = true
             /\ forall j, (j < k0)%nat -> P j = false.
Proof.
  revert P. induction k as [|k' IH]; intros P Hk.
  - exists 0%nat. repeat split; auto. intros j Hj. lia.
  - destruct (P 0%nat) eqn:E0.
    + exists 0%nat. repeat split; auto; [lia | intros j Hj; lia].
    + destruct (IH (fun n => P (S n)) Hk) as (k0 & Hle & Hk0 & Hbefore).
      exists (S k0). repeat split; auto; [lia | ].
      intros [|j] Hj; [exact E0 | apply Hbefore; lia].
Qed.

(** ** The snapshots a run records *)

Lemma snapshots_of_app (l1 l2 : list Event) :
  snapshots_of (l1 ++ l2) = snapshots_of l1 ++ snapshots_of l2.
Proof. unfold snapshots_of. apply flat_map_app. Qed.

Lemma snapshots_of_drain_events w p c0 p0 n :
  snapshots_of (drain_events w p c0 p0 n) =
  map (fun j => snapshot (probe w p (p0 + j))) (seq 0 n).
Proof.
  revert c0 p0. induction n as [|n' IH]; intros c0 p0; [reflexivity | ].
  cbn [drain_events seq map]. cbn. rewrite Nat.add_0_r. f_equal.
  rewrite IH, <- seq_shift, map_map.
  apply map_ext. intro j. now rewrite Nat.add_succ_r.
Qed.

(** ** [timeout_tester] once the drain loop is reached *)

Lemma timeout_tester_drain fuel kw w c proc base st1 :
  prelude kw w (start c) = (Ret (proc, base), st1) ->
  timeout_tester fuel kw w (start c) =
  drain fuel proc (deadline_of w kw) base None w
        {| client := client st1; clock_reads := 1; scans := 1; probes := 1;
           trace := trace st1 ++ [EvMonotonic (clock w 0)] |}.
Proof.
  intro H. pose proof (prelude_inv _ _ _ _ _ H) as (tool & args & Hst & _).
  unfold timeout_tester. unfold bind at 1. rewrite H.
  unfold bind at 1, monotonic at 1. rewrite Hst. reflexivity.
Qed.

Lemma prelude_snapshots kw w c proc base st1 :
  prelude kw w (start c) = (Ret (proc, base), st1) ->
  snapshots_of (trace st1) = [base].
Proof.
  intro H. pose proof (prelude_inv _ _ _ _ _ H) as (tool & args & -> & _).
  reflexivity.
Qed.

(** C1. When some drain snapshot, taken while every deadline check up to it
    passes, satisfies the four decay conditions, the probe returns [Clean]
    with [final] the first such snapshot in time order ([k0]), and the
    snapshots of the run stop there: the baseline, then the drain snapshots
    up to and including that one. *)
Theorem first_decayed_snapshot_is_clean :
  forall (fuel : nat) (kw : Kwargs) (w : World) (c : MCPTesterClient)
         (proc : Proc) (base : Snapshot) (st1 : RunState) (k : nat),
    prelude kw w (start c) = (Ret (proc, base), st1) ->
    (forall j, (j <= k)%nat -> (drain_clock w j < deadline_of w kw)%Q) ->
    ok_cpu (drain_snapshot w proc k) = true ->
    ok_thr base (drain_snapshot w proc k) = true ->
    ok_kids base (drain_snapshot w proc k) = true ->
    ok_rss base (drain_snapshot w proc k) = true ->
    (k < fuel)%nat ->
    exists k0 : nat,
      (k0 <= k)%nat
      /\ decayed base (drain_snapshot w proc k0) = true
      /\ (forall j, (j < k0)%nat -> decayed base (drain_snapshot w proc j) = false)
      /\ fst (timeout_tester fuel kw w (start c)) =
         Ret {| status := Clean; baseline := base;
                final := Some (drain_snapshot w proc k0) |}
      /\ snapshots_of (trace (snd (timeout_tester fuel kw w (start c)))) =
         base :: map (drain_snapshot w proc) (seq 0 (S k0)).
Proof.
  intros fuel kw w c proc base st1 k Hpre Hclk Hcpu Hthr Hkids Hrss Hfuel.
  assert (Hk : decayed base (drain_snapshot w proc k) = true).
  { unfold decayed. now rewrite Hcpu, Hthr, Hkids, Hrss. }
  destruct (first_true (fun j => decayed base (drain_snapshot w proc j)) k Hk)
    as (k0 & Hle & Hk0 & Hbefore).
  exists k0. repeat split; auto.
  - rewrite (timeout_tester_drain _ _ _ _ _ _ _ Hpre).
    rewrite (drain_clean w proc (deadline_of w kw) base k0); cbn;
      [ reflexivity | | | | lia ].
    + intros j Hj. apply Hclk. lia.
    + exact Hbefore.
    + exact Hk0.
  - rewrite (timeout_tester_drain _ _ _ _ _ _ _ Hpre).
    rewrite (drain_clean w proc (deadline_of w kw) base k0);
      [ cbn [snd trace probes clock_reads] | | | | lia ].
    + rewrite seq_S, map_app, !snapshots_of_app,
        (prelude_snapshots _ _ _ _ _ _ Hpre), snapshots_of_drain_events.
      reflexivity.
    + intros j Hj. apply Hclk. lia.
    + exact Hbefore.
    + exact Hk0.
Qed.

Lemma first_decayed_snapshot_is_clean_witness :
  exists k0 : nat,
    (k0 <= 2)%nat
    /\ decayed demo_base (drain_snapshot demo_world demo_proc k0) = true
    /\ (forall j, (j < k0)%nat ->
                  decayed demo_base (drain_snapshot demo_world demo_proc j) = false)
    /\ fst (timeout_tester 10 default_kwargs demo_world (start demo_client)) =
       Ret {| status := Clean; baseline := demo_base;
              final := Some (drain_snapshot demo_world demo_proc k0) |}
    /\ snapshots_of
         (trace (snd (timeout_tester 10 default_kwargs demo_world
                                     (start demo_client)))) =
       demo_base :: map (drain_snapshot demo_world demo_proc) (seq 0 (S k0)).
Proof.
  apply (first_decayed_snapshot_is_clean
           10 default_kwargs demo_world demo_client demo_proc demo_base
           (snd (prelude default_kwargs demo_world (start demo_client))) 2).
  - vm_compute. reflexivity.
  - intros j Hj. destruct j as [|[|[|j]]]; [ vm_compute; reflexivity .. | lia ].
  - vm_compute. reflexivity.
  - vm_compute. reflexivity.
  - vm_compute. reflexivity.
  - vm_compute. reflexivity.
  - lia.
Defined.

(** C2, as the code has it. In a run that reaches the drain loop (lines
    10-34 returned), when the clock reaches the deadline and no drain
    snapshot taken before it is decayed, the probe returns [SuspectLeak]; its
    [final] is the last snapshot the drain loop took, and [None] when the
    loop took none (the first deadline check already fails: [m = 0]); the
    snapshots of the run are the baseline and the [m] drain snapshots; and
    the clock reading that ends the loop is not below the deadline, the
    binary64 sum of the reading of line 37 and [grace]. *)
Theorem no_decay_is_suspect_leak :
  forall (fuel : nat) (kw : Kwargs) (w : World) (c : MCPTesterClient)
         (proc : Proc) (base : Snapshot) (st1 : RunState) (n : nat),
    prelude kw w (start c) = (Ret (proc, base), st1) ->
    (deadline_of w kw <= drain_clock w n)%Q ->
    (forall j, (drain_clock w j < deadline_of w kw)%Q ->
               decayed base (drain_snapshot w proc j) = false) ->
    (n < fuel)%nat ->
    exists m : nat,
      (m <= n)%nat
      /\ (forall j, (j < m)%nat -> (drain_clock w j < deadline_of w kw)%Q)
      /\ fst (timeout_tester fuel kw w (start c)) =
         Ret {| status := SuspectLeak; baseline := base;
                final := last_taken w proc m |}
      /\ snapshots_of (trace (snd (timeout_tester fuel kw w (start c)))) =
         base :: map (drain_snapshot w proc) (seq 0 m)
      /\ (deadline_of w kw <= drain_clock w m)%Q.
Proof.
  intros fuel kw w c proc base st1 n Hpre Hend Hno Hfuel.
  destruct (first_true
              (fun j => negb (Qltb (drain_clock w j) (deadline_of w kw))) n)
    as (m & Hle & Hm & Hbefore).
  { apply negb_true_iff, Qltb_ge. exact Hend. }
  apply negb_true_iff, Qltb_ge in Hm.
  assert (Hlt : forall j, (j < m)%nat -> (drain_clock w j < deadline_of w kw)%Q).
  { intros j Hj. apply Qltb_lt. specialize (Hbefore j Hj).
    now apply negb_false_iff in Hbefore. }
  assert (Hrun : drain fuel proc (deadline_of w kw) base None w
                   {| client := client st1; clock_reads := 1; scans := 1;
                      probes := 1;
                      trace := trace st1 ++ [EvMonotonic (clock w 0)] |} =
                 (Ret {| status := SuspectLeak; baseline := base;
                         final := last_taken w proc m |},
                  {| client := client st1; clock_reads := 1 + m + 1;
                     scans := 1; probes := 1 + m;
                     trace := (trace st1 ++ [EvMonotonic (clock w 0)])
                              ++ drain_events w (pid proc) 1 1 m
                              ++ [EvMonotonic (clock w (1 + m))] |})).
  { rewrite (drain_suspect w proc (deadline_of w kw) base m);
      [ destruct m; reflexivity | | | | lia ].
    - intros j Hj. apply Hlt, Hj.
    - exact Hm.
    - intros j Hj. apply Hno, Hlt, Hj. }
  exists m. repeat split; auto.
  - rewrite (timeout_tester_drain _ _ _ _ _ _ _ Hpre), Hrun. reflexivity.
  - rewrite (timeout_tester_drain _ _ _ _ _ _ _ Hpre), Hrun.
    cbn [snd trace].
    rewrite !snapshots_of_app, (prelude_snapshots _ _ _ _ _ _ Hpre),
      snapshots_of_drain_events.
    cbn [snapshots_of flat_map app]. rewrite !app_nil_r. reflexivity.
Qed.

Lemma no_decay_is_suspect_leak_witness :
  exists m : nat,
    (m <= 4)%nat
    /\ (forall j, (j < m)%nat ->
                  (drain_clock leaky_world j < deadline_of leaky_world default_kwargs)%Q)
    /\ fst (timeout_tester 10 default_kwargs leaky_world (start demo_client)) =
       Ret {| status := SuspectLeak; baseline := demo_base;
              final := last_taken leaky_world demo_proc m |}
    /\ snapshots_of
         (trace (snd (timeout_tester 10 default_kwargs leaky_world
                                     (start demo_client)))) =
       demo_base :: map (drain_snapshot leaky_world demo_proc) (seq 0 m)
    /\ (deadline_of leaky_world default_kwargs <= drain_clock leaky_world m)%Q.
Proof.
  apply (no_decay_is_suspect_leak
           10 default_kwargs leaky_world demo_client demo_proc demo_base
           (snd (prelude default_kwargs leaky_world (start demo_client))) 4).
  - vm_compute. reflexivity.
  - vm_compute. discriminate.
  - intros j _. unfold drain_snapshot, leaky_world, probe.
    cbn [Nat.eqb]. vm_compute. reflexivity.
  - lia.
Defined.

(** The run of [leaky_world] with the default grace of five seconds: four
    drain snapshots, all far above the baseline. *)
Example leaky_run :
  fst (timeout_tester 10 default_kwargs leaky_world (start demo_client)) =
  Ret {| status := SuspectLeak; baseline := demo_base;
         final := Some (Alive 200000000 1.0%float 4 (Some 3) None 0) |}
  /\ length (snapshots_of
               (trace (snd (timeout_tester 10 default_kwargs leaky_world
                                           (start demo_client))))) = 5%nat.
Proof. split; vm_compute; reflexivity. Qed.

(** C2 as stated fails when no drain snapshot is taken: with [grace = 0] the
    probe returns [SuspectLeak] with [final = None], although a snapshot (the
    baseline) was taken; [final] is no snapshot at all. And the deadline is
    the binary64 sum, which can lie below the exact one: with the clock at
    0.1 at line 37 and a grace of 0.7, the check at 0.7999999999999999
    already fails, and the probe returns [SuspectLeak] less than the grace
    after the reading of line 37. *)
Lemma suspect_leak_final_can_be_None :
  fst (timeout_tester 10 zero_grace leaky_world (start demo_client)) =
  Ret {| status := SuspectLeak; baseline := demo_base; final := None |}
  /\ snapshots_of
       (trace (snd (timeout_tester 10 zero_grace leaky_world (start demo_client)))) =
     [demo_base]
  /\ fst (timeout_tester 10 rounding_kwargs rounding_world (start demo_client)) =
     Ret {| status := SuspectLeak; baseline := demo_base; final := None |}
  /\ (clock rounding_world 1 - clock rounding_world 0
      < grace_of rounding_kwargs)%Q.
Proof. repeat split; vm_compute; reflexivity. Qed.

(** X28. With a grace that is not positive, a first reading that is a
    double and a clock that does not go back between line 37 and the first
    check of line 39, the body of the drain loop never runs in a run that
    reaches it (lines 10-34 returned): the probe returns [SuspectLeak] with
    [final = None], and the only snapshot of the run is the baseline. *)
Theorem nonpositive_grace_gives_no_final :
  forall (fuel : nat) (kw : Kwargs) (w : World) (c : MCPTesterClient)
         (proc : Proc) (base : Snapshot) (st1 : RunState) (g : Q),
    prelude kw w (start c) = (Ret (proc, base), st1) ->
    kw_grace kw = Some g ->
    (g <= 0)%Q ->
    binary64 (clock w 0) ->
    (clock w 0 <= clock w 1)%Q ->
    (0 < fuel)%nat ->
    fst (timeout_tester fuel kw w (start c)) =
    Ret {| status := SuspectLeak; baseline := base; final := None |}
    /\ snapshots_of (trace (snd (timeout_tester fuel kw w (start c)))) = [base].
Proof.
  intros fuel kw w c proc base st1 g Hpre Hg Hneg Hdouble Hmono Hfuel.
  assert (Hend : (deadline_of w kw <= clock w 1)%Q).
  { eapply Qle_trans; [ | exact Hmono ].
    apply round_binary64_le; [ exact Hdouble | ].
    unfold grace_of. rewrite Hg. simpl. lra. }
  rewrite (timeout_tester_drain _ _ _ _ _ _ _ Hpre).
  rewrite (drain_suspect w proc (deadline_of w kw) base 0);
    [ | intros j Hj; lia | exact Hend | intros j Hj; lia | exact Hfuel ].
  split; [ reflexivity | ].
  cbn [snd trace drain_events].
  rewrite !snapshots_of_app, (prelude_snapshots _ _ _ _ _ _ Hpre).
  reflexivity.
Qed.

Lemma nonpositive_grace_gives_no_final_witness :
  fst (timeout_tester 1 zero_grace demo_world (start demo_client)) =
  Ret {| status := SuspectLeak; baseline := demo_base; final := None |}
  /\ snapshots_of
       (trace (snd (timeout_tester 1 zero_grace demo_world (start demo_client)))) =
     [demo_base].
Proof.
  apply (nonpositive_grace_gives_no_final
           1 zero_grace demo_world demo_client demo_proc demo_base
           (snd (prelude zero_grace demo_world (start demo_client))) (0 # 1)).
  - vm_compute. reflexivity.
  - reflexivity.
  - vm_compute. discriminate.
  - exists 0, 0. split; [ reflexivity | split; [ lia | reflexivity ] ].
  - vm_compute. discriminate.
  - lia.
Defined.

(** The deadline of that run: the reading of the first check is the
    binary64 sum of 0.1 and 0.7, below their exact sum. *)
Example deadline_is_the_binary64_sum :
  deadline_of rounding_world rounding_kwargs = clock rounding_world 1
  /\ (deadline_of rounding_world rounding_kwargs
      < clock rounding_world 0 + grace_of rounding_kwargs)%Q.
Proof. split; vm_compute; reflexivity. Qed.

(** ** The guard on the transport *)

(** C6, as the code has it. The guard of line 10 reads the attribute
    [transport_name] of the client. When it holds a name other than
    ["stdio"], the probe raises the guard's [RuntimeError] at once and
    leaves the run state as it found it: no process is located, no snapshot
    is taken, no event occurs. *)
Theorem non_stdio_transport_fails_fast :
  forall (fuel : nat) (kw : Kwargs) (w : World) (c : MCPTesterClient)
         (name : string),
    transport_name c = Some name ->
    name <> "stdio" ->
    timeout_tester fuel kw w (start c) =
    (Raise (RuntimeError "timeout_tester only works with stdio transport"),
     start c)
    /\ snapshots_of (trace (snd (timeout_tester fuel kw w (start c)))) = []
    /\ scans (snd (timeout_tester fuel kw w (start c))) = 0%nat.
Proof.
  intros fuel kw w c name Hname Hne.
  assert (Hrun : timeout_tester fuel kw w (start c) =
                 (Raise (RuntimeError
                           "timeout_tester only works with stdio transport"),
                  start c)).
  { run. rewrite Hname.
    destruct (String.eqb name "stdio") eqn:E; [ | reflexivity ].
    apply String.eqb_eq in E. now contradiction Hne. }
  rewrite Hrun. repeat split.
Qed.

Lemma non_stdio_transport_fails_fast_witness :
  timeout_tester 10 default_kwargs demo_world (start https_client) =
  (Raise (RuntimeError "timeout_tester only works with stdio transport"),
   start https_client)
  /\ snapshots_of
       (trace (snd (timeout_tester 10 default_kwargs demo_world
                                   (start https_client)))) = []
  /\ scans (snd (timeout_tester 10 default_kwargs demo_world
                                (start https_client))) = 0%nat.
Proof.
  apply (non_stdio_transport_fails_fast 10 default_kwargs demo_world https_client
                                        "streamable_https").
  - reflexivity.
  - discriminate.
Defined.

(** C6 as stated fails: the guard does not look at the session. On a client
    whose [transport_name] is ["stdio"], the probe of a server whose session
    is a streamable-HTTP session is not refused: it locates a child of the
    tester by the registered command, takes the baseline and the drain
    snapshots of that process, and returns a verdict. *)
Lemma http_session_is_probed :
  transport_name mixed_client = Some "stdio"
  /\ sessions mixed_client !! "1"
     = Some (http_stream_session "https://example.com/mcp")
  /\ fst (timeout_tester 10 default_kwargs demo_world (start mixed_client)) =
     Ret {| status := Clean; baseline := demo_base;
            final := Some (drain_snapshot demo_world demo_proc 2) |}
  /\ snapshots_of
       (trace (snd (timeout_tester 10 default_kwargs demo_world
                                   (start mixed_client)))) =
     demo_base :: map (drain_snapshot demo_world demo_proc) (seq 0 3).
Proof. repeat split; vm_compute; reflexivity. Qed.

(** A client as the repository builds it has no [transport_name] at all:
    on it the probe raises [AttributeError] before anything else. *)
Example probe_on_a_constructed_client :
  fst (timeout_tester 10 default_kwargs demo_world (start connected_client)) =
  Raise (AttributeError "transport_name").
Proof. vm_compute. reflexivity. Qed.

(** A server registered with a URL has no ["server_params"] entry: even on a
    client whose [transport_name] is ["stdio"], the probe raises [KeyError]
    at line 16, before the process table is scanned or a snapshot taken. *)
Lemma url_config_fails_before_baseline fuel kw w c tp cfg :
  transport_name c = Some "stdio" ->
  transport_params c = Some tp ->
  tp !! server_id_of kw = Some cfg ->
  cfg !! "server_params" = None ->
  timeout_tester fuel kw w (start c) =
  (Raise (KeyError "server_params"),
   {| client := c; clock_reads := 0; scans := 0; probes := 0;
      trace := [EvLog INFO ("Running timeout_tester on server "
                              ++ server_id_of kw)] |}).
Proof.
  intros Htn Htp Hcfg Hsp. run. rewrite Htn. cbn. rewrite Htp, Hcfg, Hsp.
  reflexivity.
Qed.

(** With the attributes in place but the module globals [tool] and [args]
    unbound, as advanced.py leaves them, the probe raises [NameError] at
    line 24: after the baseline snapshot, before any call. *)
Example probe_without_globals :
  timeout_tester 10 default_kwargs unbound_world (start demo_client) =
  (Raise (NameError "tool"),
   {| client := demo_client; clock_reads := 0; scans := 1; probes := 1;
      trace := [ EvLog INFO "Running timeout_tester on server 1";
                 EvSleep (1 # 10); EvScan 0; EvSnapshot 42 demo_base ] |}).
Proof. vm_compute. reflexivity. Qed.

(** Lines 10-27 on a client without [transport_name], or with one of the
    module globals unbound: they raise, before the clock is read and before
    any stack is closed. *)
Lemma baseline_and_cancel_stops kw w c :
  transport_name c = None \/ glob_tool w = None \/ glob_args w = None ->
  exists e st',
    baseline_and_cancel kw w (start c) = (Raise e, st')
    /\ clock_reads st' = 0%nat
    /\ closes_of (trace st') = [].
Proof.
  intro H. run.
  repeat match goal with
         | |- context [match ?x with _ => _ end] =>
             lazymatch x with
             | context [match _ with _ => _ end] => fail
             | _ => destruct x eqn:?; run
             end
         end;
    try (do 2 eexists; split; [ reflexivity | split; reflexivity ]);
    destruct H as [H | [H | H]]; congruence.
Qed.

(** C10, what the code does. As the repository leaves it, a run of the
    probe never reaches the drain loop, whatever the grace: on a client
    without [transport_name] (the class sets none) line 10 raises
    [AttributeError] with the run state untouched, and with [tool] or [args]
    unbound (advanced.py binds neither) the run raises at line 24 at the
    latest. The probe raises; the clock is never read (line 37 is not
    reached) and no stack is closed. *)
Theorem shipped_probe_stops_before_the_drain_loop :
  forall (fuel : nat) (kw : Kwargs) (w : World) (c : MCPTesterClient),
    transport_name c = None \/ glob_tool w = None \/ glob_args w = None ->
    (exists e, fst (timeout_tester fuel kw w (start c)) = Raise e)
    /\ clock_reads (snd (timeout_tester fuel kw w (start c))) = 0%nat
    /\ closes_of (trace (snd (timeout_tester fuel kw w (start c)))) = []
    /\ (transport_name c = None ->
        timeout_tester fuel kw w (start c)
        = (Raise (AttributeError "transport_name"), start c)).
Proof.
  intros fuel kw w c H.
  destruct (baseline_and_cancel_stops kw w c H) as (e & st' & Hrun & Hclock & Hcl).
  assert (Hprobe : timeout_tester fuel kw w (start c) = (Raise e, st')).
  { unfold timeout_tester, prelude. unfold bind at 1, bind at 1.
    rewrite Hrun. reflexivity. }
  rewrite Hprobe. cbn [fst snd].
  split; [ now exists e | split; [ exact Hclock | split; [ exact Hcl | ] ] ].
  intro Hnone. rewrite <- Hprobe. run. rewrite Hnone. reflexivity.
Qed.

Lemma shipped_probe_stops_before_the_drain_loop_witness :
  fst (timeout_tester 10 zero_grace demo_world (start connected_client))
  = Raise (AttributeError "transport_name")
  /\ (exists e, fst (timeout_tester 10 zero_grace unbound_world (start demo_client))
                = Raise e).
Proof.
  split.
  - destruct (shipped_probe_stops_before_the_drain_loop
                10 zero_grace demo_world connected_client (or_introl eq_refl))
      as (_ & _ & _ & Hrun).
    now rewrite (Hrun eq_refl).
  - exact (proj1 (shipped_probe_stops_before_the_drain_loop
                    10 zero_grace unbound_world demo_client
                    (or_intror (or_introl eq_refl)))).
Defined.

(** The same run with the attributes set by the caller: [NameError] at
    line 24, after the baseline snapshot. *)
Example zero_grace_without_globals :
  fst (timeout_tester 10 zero_grace unbound_world (start demo_client))
  = Raise (NameError "tool").
Proof. vm_compute. reflexivity. Qed.

(** With the attributes in place and the module globals bound, a run goes
    through every phase. *)
Example demo_run_trace :
  trace (snd (timeout_tester 10 default_kwargs demo_world (start demo_client))) =
  [ EvLog INFO "Running timeout_tester on server 1";
    EvSleep (1 # 10); EvScan 0; EvSnapshot 42 demo_base;
    EvCallTool "slow_tool" "{}"; EvSleep (2 # 10); EvCancel; EvAwaitTask;
    EvAclose "1"; EvMonotonic (0 # 1);
    EvMonotonic (1 # 1);
    EvSnapshot 42 (Alive 200000000 1.0%float 4 (Some 3) None 0);
    EvSleep (2 # 10);
    EvMonotonic (2 # 1);
    EvSnapshot 42 (Alive 200000000 1.0%float 4 (Some 3) None 0);
    EvSleep (2 # 10);
    EvMonotonic (3 # 1); EvSnapshot 42 demo_base ].
Proof. vm_compute. reflexivity. Qed.

(** ** Order of the events of a run *)

Lemma precedes_b_sound earlier later tr :
  forall seen,
    precedes_b earlier later seen tr = true ->
    forall l1 e l2,
      tr = l1 ++ e :: l2 -> later e = true ->
      seen = true \/ exists e', In e' l1 /\ earlier e' = true.
Proof.
  induction tr as [|x tr' IH]; intros seen Hb l1 e l2 Heq Hlater.
  - destruct l1; discriminate Heq.
  - cbn [precedes_b] in Hb. apply andb_true_iff in Hb as [Hx Hrest].
    destruct l1 as [|y l1']; cbn in Heq; inversion Heq; subst; clear Heq.
    + rewrite Hlater in Hx. cbn in Hx. now left.
    + destruct (IH _ Hrest l1' e l2 eq_refl Hlater) as [Hs | (e' & Hin & He')].
      * apply orb_true_iff in Hs as [Hs | Hs]; [ now left | ].
        right. exists y. split; [ now left | exact Hs ].
      * right. exists e'. split; [ now right | exact He' ].
Qed.

Lemma never_before_b_sound a b tr :
  forall seen,
    never_before_b a b seen tr = true ->
    forall l1 e l2,
      tr = l1 ++ e :: l2 -> b e = true ->
      seen = false /\ forall e', In e' l1 -> a e' = false.
Proof.
  induction tr as [|x tr' IH]; intros seen Hb l1 e l2 Heq Hlater.
  - destruct l1; discriminate Heq.
  - cbn [never_before_b] in Hb. apply andb_true_iff in Hb as [Hx Hrest].
    destruct l1 as [|y l1']; cbn in Heq; inversion Heq; subst; clear Heq.
    + rewrite Hlater in Hx. cbn in Hx. apply negb_true_iff in Hx.
      split; [ exact Hx | intros e' [] ].
    + destruct (IH _ Hrest l1' e l2 eq_refl Hlater) as [Hs Hall].
      apply orb_false_iff in Hs as [Hs Hy].
      split; [ exact Hs | ].
      intros e' [<- | Hin]; [ exact Hy | now apply Hall ].
Qed.

Lemma precedes_b_app earlier later l1 l2 :
  Forall (fun e => later e = false) l2 ->
  forall seen,
    precedes_b earlier later seen (l1 ++ l2) = precedes_b earlier later seen l1.
Proof.
  intro Hl2. induction l1 as [|x l1' IH]; intro seen.
  - cbn [app]. revert seen.
    induction Hl2 as [|y l2' Hy _ IH2]; intro seen; [ reflexivity | ].
    cbn [precedes_b]. rewrite Hy, IH2. reflexivity.
  - cbn [app precedes_b]. now rewrite IH.
Qed.

Lemma never_before_b_app a b l1 l2 :
  Forall (fun e => b e = false) l2 ->
  forall seen,
    never_before_b a b seen (l1 ++ l2) = never_before_b a b seen l1.
Proof.
  intro Hl2. induction l1 as [|x l1' IH]; intro seen.
  - cbn [app]. revert seen.
    induction Hl2 as [|y l2' Hy _ IH2]; intro seen; [ reflexivity | ].
    cbn [never_before_b]. rewrite Hy, IH2. reflexivity.
  - cbn [app never_before_b]. now rewrite IH.
Qed.

Lemma ordered_b_app l1 l2 :
  Forall (fun e => is_drain_event e = true) l2 ->
  ordered_b (l1 ++ l2) = ordered_b l1.
Proof.
  intro H. unfold ordered_b.
  rewrite !precedes_b_app, never_before_b_app; [ reflexivity | | | ];
    (eapply Forall_impl; [ exact H | ]); intros [] He; cbn in *; congruence.
Qed.

(** The drain loop only appends clock readings, snapshots and sleeps, and
    leaves the baseline of its result alone. *)
Lemma drain_appends fuel proc deadline base :
  forall last w st,
    exists evs,
      trace (snd (drain fuel proc deadline base last w st)) = trace st ++ evs
      /\ Forall (fun e => is_drain_event e = true) evs
      /\ client (snd (drain fuel proc deadline base last w st)) = client st
      /\ forall r, fst (drain fuel proc deadline base last w st) = Ret r ->
                   baseline r = base.
Proof.
  induction fuel as [|fuel' IH]; intros last w st.
  - exists []. cbn. rewrite app_nil_r.
    split; [ reflexivity | split; [ constructor | split; [ reflexivity | ] ] ].
    intros r Hr. discriminate Hr.
  - cbn [drain]. unfold bind, monotonic, take_snapshot, sleep, emit, ret. cbn.
    destruct (Qltb (clock w (clock_reads st)) deadline); cbn.
    + destruct (decayed base (snapshot (probe w (pid proc) (probes st)))); cbn.
      * eexists. rewrite <- app_assoc.
        split; [ reflexivity | split; [ | split; [ reflexivity | ] ] ].
        -- cbn. repeat constructor.
        -- intros r Hr. now inversion Hr.
      * match goal with
        | |- context [drain fuel' proc deadline base ?l w ?s] =>
            destruct (IH l w s) as (evs & Htr & Hall & Hcl & Hbase)
        end.
        cbn [client trace] in Htr, Hcl.
        eexists.
        split; [ rewrite Htr, <- !app_assoc; reflexivity
               | split; [ | split; [ exact Hcl | exact Hbase ] ] ].
        cbn. repeat constructor. exact Hall.
    + exists [EvMonotonic (clock w (clock_reads st))]. cbn.
      split; [ reflexivity | split; [ | split; [ reflexivity | ] ] ].
      * repeat constructor.
      * intros r Hr. now inversion Hr.
Qed.

Lemma closes_of_drain_events evs :
  Forall (fun e => is_drain_event e = true) evs -> closes_of evs = [].
Proof.
  induction 1 as [|e evs' He _ IH]; [ reflexivity | ].
  unfold closes_of in *. cbn [flat_map]. rewrite IH.
  destruct e; try discriminate He; reflexivity.
Qed.

(** Whatever the outcome of lines 10-34, their events are in order. *)
Lemma prelude_ordered kw w c r st1 :
  prelude kw w (start c) = (r, st1) -> ordered_b (trace st1) = true.
Proof.
  intro H. run_in H. repeat case_in H; inversion H; reflexivity.
Qed.

Lemma timeout_tester_ordered fuel kw w c :
  ordered_b (trace (snd (timeout_tester fuel kw w (start c)))) = true.
Proof.
  unfold timeout_tester. unfold bind at 1.
  destruct (prelude kw w (start c)) as [[pb| |] st1] eqn:E;
    pose proof (prelude_ordered _ _ _ _ _ E) as Hord; [ | exact Hord .. ].
  unfold bind, monotonic.
  match goal with
  | |- context [drain fuel ?p ?d ?b ?l w ?s] =>
      destruct (drain_appends fuel p d b l w s) as (evs & Htr & Hall & _)
  end.
  rewrite Htr. cbn [trace]. rewrite <- app_assoc, ordered_b_app; [ exact Hord | ].
  constructor; [ reflexivity | exact Hall ].
Qed.

(** C9. In every run of the probe, whatever its outcome: each call event has
    a snapshot event strictly before it; each forced close has the request
    to cancel strictly before it; no forced close comes before a request to
    cancel; and when the run returns a result, its trace starts with the
    lookup of the process, the snapshot that is the result's [baseline], the
    call, the sleep, the request to cancel, the await and the forced close,
    in this order. *)
Theorem baseline_before_call_and_close_after_cancel :
  forall (fuel : nat) (kw : Kwargs) (w : World) (c : MCPTesterClient),
    precedes is_snapshot_event is_call_event
             (trace (snd (timeout_tester fuel kw w (start c))))
    /\ precedes is_cancel_event is_aclose_event
                (trace (snd (timeout_tester fuel kw w (start c))))
    /\ never_before is_aclose_event is_cancel_event
                    (trace (snd (timeout_tester fuel kw w (start c))))
    /\ (forall r,
           fst (timeout_tester fuel kw w (start c)) = Ret r ->
           exists p tool args rest,
             trace (snd (timeout_tester fuel kw w (start c))) =
             [ EvLog INFO ("Running timeout_tester on server " ++ server_id_of kw);
               EvSleep (1 # 10); EvScan 0; EvSnapshot p (baseline r);
               EvCallTool tool args; EvSleep (2 # 10); EvCancel;
               EvAwaitTask; EvAclose (server_id_of kw) ] ++ rest).
Proof.
  intros fuel kw w c.
  pose proof (timeout_tester_ordered fuel kw w c) as Hord.
  unfold ordered_b in Hord.
  apply andb_true_iff in Hord as [Hord Hnever].
  apply andb_true_iff in Hord as [Hcall Hclose].
  split; [ | split; [ | split ] ].
  - intros l1 e l2 Heq He.
    destruct (precedes_b_sound _ _ _ _ Hcall l1 e l2 Heq He) as [Hf | Hex];
      [ discriminate Hf | exact Hex ].
  - intros l1 e l2 Heq He.
    destruct (precedes_b_sound _ _ _ _ Hclose l1 e l2 Heq He) as [Hf | Hex];
      [ discriminate Hf | exact Hex ].
  - intros l1 e l2 Heq He.
    exact (proj2 (never_before_b_sound _ _ _ _ Hnever l1 e l2 Heq He)).
  - intros r Hr. unfold timeout_tester in *. unfold bind at 1 in Hr.
    unfold bind at 1.
    destruct (prelude kw w (start c)) as [[[proc base]| |] st1] eqn:E;
      try discriminate Hr.
    destruct (prelude_inv _ _ _ _ _ E) as (tool & args & -> & _).
    unfold bind, monotonic in *. cbn [fst snd] in *.
    match goal with
    | |- context [drain fuel ?p ?d ?b ?l w ?s] =>
        destruct (drain_appends fuel p d b l w s) as (evs & Htr & _ & _ & Hbase)
    end.
    rewrite Htr, (Hbase r Hr). cbn [trace].
    exists (pid proc), tool, args. eexists.
    unfold baseline_events, cancelling_events. cbn [app]. reflexivity.
Qed.

(** The run of [demo_world] returns: the fourth part of the theorem above is
    not empty. *)
Example demo_run_returns :
  fst (timeout_tester 10 default_kwargs demo_world (start demo_client)) =
  Ret {| status := Clean; baseline := demo_base; final := Some demo_base |}.
Proof. vm_compute. reflexivity. Qed.

(** ** Awaiting the cancelled call *)

(** C7, as the code has it. Once the request to cancel is made (lines 10-27
    returned): if awaiting the call raises [CancelledError] or nothing, the
    exit stack of the session is closed next, and unless that close raises,
    the run is the drain loop from there; any other exception raised by the
    awaited call leaves the probe as it is: the stack is not closed, the
    client is untouched and no drain snapshot is taken. *)
Theorem only_cancellation_is_passed_over :
  forall (fuel : nat) (kw : Kwargs) (w : World) (c : MCPTesterClient)
         (pb : Proc * Snapshot) (st1 : RunState),
    baseline_and_cancel kw w (start c) = (Ret pb, st1) ->
    ((await_task w = None \/ await_task w = Some CancelledError) ->
     closes_of (trace (snd (timeout_tester fuel kw w (start c)))) =
     [server_id_of kw]
     /\ (aclose_raises w (server_id_of kw) = None ->
         timeout_tester fuel kw w (start c) =
         drain fuel (fst pb) (deadline_of w kw) (snd pb) None w
               {| client := closed_client (server_id_of kw) c;
                  clock_reads := 1; scans := 1; probes := 1;
                  trace := trace st1 ++ cancelling_events kw
                                     ++ [EvMonotonic (clock w 0)] |}))
    /\ (forall e,
           await_task w = Some e -> e <> CancelledError ->
           timeout_tester fuel kw w (start c) =
           (Raise e, {| client := c; clock_reads := 0; scans := 1; probes := 1;
                        trace := trace st1 ++ [EvAwaitTask] |})
           /\ closes_of (trace (snd (timeout_tester fuel kw w (start c)))) = []
           /\ snapshots_of (trace (snd (timeout_tester fuel kw w (start c)))) =
              [snd pb]).
Proof.
  intros fuel kw w c pb st1 H.
  destruct (baseline_and_cancel_inv _ _ _ _ _ H) as (tool & args & -> & _).
  split.
  - intros Hawait.
    assert (Hpre : prelude kw w (start c) =
                   (match aclose_raises w (server_id_of kw) with
                    | Some e => Raise e
                    | None => Ret pb
                    end,
                    {| client := closed_client (server_id_of kw) c;
                       clock_reads := 0; scans := 1; probes := 1;
                       trace := baseline_events kw (fst pb) (snd pb) tool args
                                ++ cancelling_events kw |})).
    { unfold prelude. unfold bind at 1. rewrite H. run.
      destruct Hawait as [-> | ->]; cbn;
        destruct (aclose_raises w (server_id_of kw)); reflexivity. }
    split.
    + unfold timeout_tester. unfold bind at 1. rewrite Hpre.
      destruct (aclose_raises w (server_id_of kw)); [ reflexivity | ].
      unfold bind, monotonic.
      match goal with
      | |- context [drain fuel ?p ?d ?b ?l w ?s] =>
          destruct (drain_appends fuel p d b l w s) as (evs & Htr & Hall & _)
      end.
      rewrite Htr. cbn [trace]. unfold closes_of.
      rewrite !flat_map_app. fold (closes_of evs).
      rewrite (closes_of_drain_events _ Hall). reflexivity.
    + intros Hclose. rewrite Hclose in Hpre. destruct pb as [proc base].
      rewrite (timeout_tester_drain _ _ _ _ _ _ _ Hpre).
      cbn [client trace fst snd]. rewrite <- app_assoc. reflexivity.
  - intros e Hawait Hne.
    assert (Hrun : timeout_tester fuel kw w (start c) =
                   (Raise e,
                    {| client := c; clock_reads := 0; scans := 1; probes := 1;
                       trace := baseline_events kw (fst pb) (snd pb) tool args
                                ++ [EvAwaitTask] |})).
    { unfold timeout_tester, prelude. unfold bind at 1 2. rewrite H. run.
      rewrite Hawait. destruct e; try reflexivity. now contradiction Hne. }
    rewrite Hrun. repeat split.
Qed.

Lemma only_cancellation_is_passed_over_witness :
  closes_of (trace (snd (timeout_tester 10 default_kwargs demo_world
                                        (start demo_client)))) =
  ["1"%string].
Proof.
  refine (proj1 (proj1 (only_cancellation_is_passed_over
                          10 default_kwargs demo_world demo_client
                          (demo_proc, demo_base)
                          (snd (baseline_and_cancel default_kwargs demo_world
                                                    (start demo_client))) _)
                       (or_intror eq_refl))).
  vm_compute. reflexivity.
Defined.

(** C7 as stated fails: when the awaited call raises an error other than
    [CancelledError], the probe raises it; the session's exit stack is not
    closed (its two contexts stay entered) and no drain snapshot is taken. *)
Lemma other_errors_abort_the_probe :
  await_task failing_call_world = Some (OtherException "McpError")
  /\ fst (timeout_tester 10 default_kwargs failing_call_world (start demo_client)) =
     Raise (OtherException "McpError")
  /\ closes_of
       (trace (snd (timeout_tester 10 default_kwargs failing_call_world
                                   (start demo_client)))) = []
  /\ snapshots_of
       (trace (snd (timeout_tester 10 default_kwargs failing_call_world
                                   (start demo_client)))) = [demo_base]
  /\ option_map closed_stack
       (PyDict.get "1"
          (exit_stacks
             (client (snd (timeout_tester 10 default_kwargs failing_call_world
                                          (start demo_client)))))) = Some false.
Proof. repeat split; vm_compute; reflexivity. Qed.

(** ** The process locator *)

Lemma first_match_None w cmd_stem l :
  first_match w cmd_stem l = None <->
  forall p, In p l -> matches w cmd_stem p = false.
Proof.
  induction l as [|q l' IH]; cbn [first_match].
  - split; [ intros _ p [] | reflexivity ].
  - destruct (matches w cmd_stem q) eqn:E.
    + split; [ discriminate | ].
      intro H. rewrite (H q (or_introl eq_refl)) in E. discriminate E.
    + rewrite IH. split.
      * intros H p [<- | Hin]; [ exact E | now apply H ].
      * intros H p Hin. apply H. now right.
Qed.

Lemma first_match_Some w cmd_stem l p :
  first_match w cmd_stem l = Some p ->
  exists l1 l2,
    l = l1 ++ p :: l2
    /\ matches w cmd_stem p = true
    /\ forall q, In q l1 -> matches w cmd_stem q = false.
Proof.
  induction l as [|x l' IH]; cbn [first_match]; [ discriminate | ].
  destruct (matches w cmd_stem x) eqn:E.
  - intro H. inversion H; subst. exists [], l'. repeat split; auto.
    intros q [].
  - intro H. destruct (IH H) as (l1 & l2 & -> & Hp & Hbefore).
    exists (x :: l1), l2. repeat split; auto.
    intros q [<- | Hin]; [ exact E | now apply Hbefore ].
Qed.

(** C8, as the code has it. The locator sleeps once for a tenth of a second
    and scans the direct children once; its outcome is decided by that one
    scan: it returns the first running child, in the order of the scan,
    whose lowered command line contains the stem (children whose command
    line cannot be read are passed over), and raises [RuntimeError] when
    that scan has none. *)
Theorem find_stdio_child_scans_once :
  forall (cmd_stem : string) (w : World) (st : RunState),
    find_stdio_child cmd_stem w st =
    (match first_match w cmd_stem (List.filter is_running (children w (scans st))) with
     | Some p => Ret p
     | None => Raise (RuntimeError "Could not locate stdio server process")
     end,
     {| client := client st; clock_reads := clock_reads st;
        scans := S (scans st); probes := probes st;
        trace := trace st ++ [EvSleep (1 # 10); EvScan (scans st)] |})
    /\ (is_raise (fst (find_stdio_child cmd_stem w st)) = true <->
        forall p, In p (children w (scans st)) ->
                  is_running p = true -> matches w cmd_stem p = false)
    /\ (forall p,
           fst (find_stdio_child cmd_stem w st) = Ret p ->
           exists l1 l2,
             List.filter is_running (children w (scans st)) = l1 ++ p :: l2
             /\ matches w cmd_stem p = true
             /\ forall q, In q l1 -> matches w cmd_stem q = false).
Proof.
  intros cmd_stem w st.
  assert (Hrun : find_stdio_child cmd_stem w st =
    (match first_match w cmd_stem (List.filter is_running (children w (scans st))) with
     | Some p => Ret p
     | None => Raise (RuntimeError "Could not locate stdio server process")
     end,
     {| client := client st; clock_reads := clock_reads st;
        scans := S (scans st); probes := probes st;
        trace := trace st ++ [EvSleep (1 # 10); EvScan (scans st)] |})).
  { unfold find_stdio_child, bind, sleep, emit, scan_children, ask, ret, raise. cbn.
    rewrite <- app_assoc.
    destruct (first_match w cmd_stem _); reflexivity. }
  rewrite Hrun. cbn [fst]. split; [ reflexivity | split ].
  - destruct (first_match w cmd_stem _) as [p|] eqn:E; cbn [is_raise].
    + split; [ discriminate | ]. intro H.
      destruct (first_match_Some _ _ _ _ E) as (l1 & l2 & Hl & Hp & _).
      assert (Hin : In p (List.filter is_running (children w (scans st)))).
      { rewrite Hl. apply in_or_app. right. now left. }
      apply filter_In in Hin as [Hin Hr].
      rewrite (H p Hin Hr) in Hp. discriminate Hp.
    + split; [ | reflexivity ]. intros _ p Hin Hr.
      apply (proj1 (first_match_None _ _ _) E). apply filter_In. now split.
  - intros p Hp.
    destruct (first_match w cmd_stem _) as [q|] eqn:E; inversion Hp; subst.
    exact (first_match_Some _ _ _ _ E).
Qed.

(** C8 as stated fails: the locator does not check again. The server shows
    up at the second scan of the process table; the locator has raised after
    the first, having scanned once. *)
Lemma single_scan_misses_a_late_child :
  find_stdio_child "python3" late_child_world (start demo_client) =
  (Raise (RuntimeError "Could not locate stdio server process"),
   {| client := demo_client; clock_reads := 0; scans := 1; probes := 0;
      trace := [EvSleep (1 # 10); EvScan 0] |})
  /\ first_match late_child_world "python3"
                 (List.filter is_running (children late_child_world 1)) =
     Some demo_proc.
Proof. split; reflexivity. Qed.

(** The locator on the process table of [demo_world]: a child that is not
    running and one whose command line cannot be read are passed over. *)
Example locator_on_demo_world :
  fst (find_stdio_child "python3" demo_world (start demo_client)) = Ret demo_proc.
Proof. reflexivity. Qed.

(** The stem is looked for anywhere in the command line; when two children
    match, the first in the scan is taken. *)
Example locator_takes_first_match :
  first_match demo_world "python3"
    [ {| pid := 1; is_running := true; cmdline := Some ["python3"; "a.py"] |};
      {| pid := 2; is_running := true; cmdline := Some ["PYTHON3"; "b.py"] |} ] =
  Some {| pid := 1; is_running := true; cmdline := Some ["python3"; "a.py"] |}.
Proof. reflexivity. Qed.

(** ** The dict of exit stacks *)

Lemma PyDict_get_set_eq {V} (k : string) (v : V) d :
  PyDict.get k (PyDict.set k v d) = Some v.
Proof.
  induction d as [|[k' v'] d' IH]; cbn.
  - now rewrite String.eqb_refl.
  - destruct (String.eqb k k') eqn:E; cbn; rewrite ?String.eqb_refl, ?E; auto.
Qed.

Lemma PyDict_get_alter_eq {V} (f : V -> V) (k : string) d :
  PyDict.get k (PyDict.alter f k d) = option_map f (PyDict.get k d).
Proof.
  induction d as [|[k' v'] d' IH]; cbn; [ reflexivity | ].
  destruct (String.eqb k k') eqn:E; cbn; rewrite E; auto.
Qed.

Lemma PyDict_keys_alter {V} (f : V -> V) (k : string) d :
  PyDict.keys (PyDict.alter f k d) = PyDict.keys d.
Proof.
  induction d as [|[k' v'] d' IH]; cbn; [ reflexivity | ].
  destruct (String.eqb k k'); cbn; [ reflexivity | ].
  unfold PyDict.keys in IH. now rewrite IH.
Qed.

Lemma PyDict_In_keys_set {V} (k k0 : string) (v : V) d :
  In k0 (PyDict.keys (PyDict.set k v d)) -> k0 = k \/ In k0 (PyDict.keys d).
Proof.
  induction d as [|[k' v'] d' IH]; cbn.
  - intros [<- | []]. now left.
  - destruct (String.eqb k k') eqn:E; cbn.
    + apply String.eqb_eq in E. subst k'. intros [<- | H]; auto.
    + intros [<- | H]; auto. destruct (IH H); auto.
Qed.

(** Assignment keeps the keys of a dict distinct. *)
Lemma PyDict_NoDup_set {V} (k : string) (v : V) d :
  List.NoDup (PyDict.keys d) -> List.NoDup (PyDict.keys (PyDict.set k v d)).
Proof.
  induction d as [|[k' v'] d' IH]; cbn; intro H.
  - constructor; [ intros [] | constructor ].
  - inversion H as [|? ? Hnotin Hd']; subst.
    destruct (String.eqb k k') eqn:E; cbn.
    + apply String.eqb_eq in E. subst k'. now constructor.
    + constructor; [ | now apply IH ].
      intro Hin. apply PyDict_In_keys_set in Hin as [-> | Hin]; auto.
      now rewrite String.eqb_refl in E.
Qed.

(** ** [add_server] *)

(** C4, as the code has it. [add_server] never fails: it logs, and stores
    the configuration under the id, in place of the one registered before
    if there is one; the other ids keep theirs. *)
Theorem add_server_replaces :
  forall (server_id : string) (params : gmap string ConfigValue)
         (w : World) (st : RunState),
    fst (add_server server_id params w st) = Ret tt
    /\ server_params (client (snd (add_server server_id params w st)))
       = <[server_id := params]> (server_params (client st))
    /\ server_params (client (snd (add_server server_id params w st)))
         !! server_id = Some params
    /\ forall other,
         other <> server_id ->
         server_params (client (snd (add_server server_id params w st))) !! other
         = server_params (client st) !! other.
Proof.
  intros server_id params w st. cbn.
  split; [ reflexivity | split; [ reflexivity | split ] ].
  - apply lookup_insert_eq.
  - intros other Hne. now apply lookup_insert_ne.
Qed.

(** C4 as stated fails: registering a second configuration under an id that
    is already registered succeeds, and the second configuration (which has
    a ["server_url"], unlike the first) replaces the first. *)
Lemma add_server_twice_succeeds :
  fst ((add_server "1" demo_config ;; add_server "1" https_config)
         demo_world (start (init None))) = Ret tt
  /\ server_params
       (client (snd ((add_server "1" demo_config ;; add_server "1" https_config)
                       demo_world (start (init None))))) !! "1"
     = Some https_config
  /\ demo_config !! "server_url" = None
  /\ https_config !! "server_url" = Some (CfgStr "https://example.com/mcp").
Proof. repeat split; vm_compute; reflexivity. Qed.

(** ** The handshake timeout of [connect_server_stdio] *)

Ltac client_run :=
  cbv beta iota zeta delta
      [bind ret raise getattr subscript may_raise ask emit log get_client
       put_client try_except await_aclose add_server enter_async_context
       unawaited_aclose await_initialize read_timeout_seconds handshake
       connect_server_stdio
       connect_server_streamable_https cleanup start
       client clock_reads scans probes trace fst snd].

(** C3, what the code does. When the transport and the session are entered
    and the handshake then times out, [connect_server_stdio] returns [None]
    without raising and removes the session, but closes nothing: the exit
    stack stays registered with both contexts entered (the child process and
    the session stay open), and no [aclose()] is awaited. *)
Theorem handshake_timeout_leaves_stack_open :
  forall (server_id : string) (p : StdioServerParameters)
         (w : World) (c : MCPTesterClient),
    enter_transport w server_id = None ->
    enter_session w server_id = None ->
    initialize w server_id = Some TimeoutError ->
    fst (connect_server_stdio server_id p w (start c)) = Ret None
    /\ sessions (client (snd (connect_server_stdio server_id p w (start c))))
         !! server_id = None
    /\ PyDict.get server_id
         (exit_stacks (client (snd (connect_server_stdio server_id p w (start c)))))
       = Some {| entered :=
                   [ ClientSessionCtx {| read_stream := ChildStdout (command p);
                                         write_stream := ChildStdin (command p);
                                         read_timeout_seconds := NoReadTimeout |};
                     StdioClientCtx p ] |}
    /\ closes_of (trace (snd (connect_server_stdio server_id p w (start c)))) = [].
Proof.
  intros server_id p w c Htr Hse Hin.
  client_run. rewrite Htr, Hse, Hin. cbn.
  split; [ reflexivity | split; [ | split; [ | reflexivity ] ] ].
  - apply lookup_delete_eq.
  - rewrite !PyDict_get_alter_eq, PyDict_get_set_eq. reflexivity.
Qed.

Lemma handshake_timeout_leaves_stack_open_witness :
  fst (connect_server_stdio "1" demo_params timeout_world (start (init (Some "stdio"))))
  = Ret None
  /\ option_map closed_stack
       (PyDict.get "1"
          (exit_stacks
             (client (snd (connect_server_stdio "1" demo_params timeout_world
                                                (start (init (Some "stdio")))))))) =
     Some false.
Proof.
  destruct (handshake_timeout_leaves_stack_open
              "1" demo_params timeout_world (init (Some "stdio"))
              eq_refl eq_refl eq_refl) as (Hret & _ & Hstack & _).
  split; [ exact Hret | ]. rewrite Hstack. reflexivity.
Defined.

(** ** The keys of [exit_stacks] stay distinct *)

(** Projections of the run state and of the client, and nothing else. *)
Ltac fields :=
  cbn [client snd fst exit_stacks sessions set_exit_stacks set_sessions
       set_streams set_server_params].

Lemma init_keys_distinct tr :
  List.NoDup (PyDict.keys (exit_stacks (init tr))).
Proof. constructor. Qed.

(** Whatever its outcome, a connect leaves the keys of [exit_stacks]
    distinct: it assigns one key and updates the stack stored under it. *)
Lemma connect_stdio_keys_distinct server_id p w c :
  List.NoDup (PyDict.keys (exit_stacks c)) ->
  List.NoDup
    (PyDict.keys
       (exit_stacks (client (snd (connect_server_stdio server_id p w (start c)))))).
Proof.
  intro H. client_run.
  destruct (enter_transport w server_id); fields;
    [ now apply PyDict_NoDup_set | ].
  destruct (enter_session w server_id); fields;
    [ rewrite PyDict_keys_alter; now apply PyDict_NoDup_set | ].
  destruct (initialize w server_id) as [e|]; fields;
    [ destruct (is_TimeoutError e); fields | ];
    rewrite !PyDict_keys_alter; now apply PyDict_NoDup_set.
Qed.

Lemma connect_https_keys_distinct server_id url w c :
  List.NoDup (PyDict.keys (exit_stacks c)) ->
  List.NoDup
    (PyDict.keys
       (exit_stacks
          (client (snd (connect_server_streamable_https server_id url w (start c)))))).
Proof.
  intro H. client_run.
  destruct (enter_transport w server_id); fields;
    [ now apply PyDict_NoDup_set | ].
  destruct (enter_session w server_id); cbn [is_TimeoutError]; fields;
    rewrite ?PyDict_keys_alter; now apply PyDict_NoDup_set.
Qed.

(** ** [cleanup] *)

Lemma close_each_run (w : World) (items : list (string * AsyncExitStack)) :
  forall st,
    (forall id e, In id (PyDict.keys items) ->
                  aclose_raises w id = Some e -> is_Exception e = true) ->
    close_each items w st =
    (Ret tt,
     {| client := set_exit_stacks
                    (close_stacks (PyDict.keys items) (exit_stacks (client st)))
                    (client st);
        clock_reads := clock_reads st; scans := scans st; probes := probes st;
        trace := trace st ++ close_events w items |}).
Proof.
  induction items as [|[id stk] rest IH]; intros st Hexc.
  - cbn. rewrite app_nil_r. destruct st as [[] ? ? ? ?]. reflexivity.
  - cbn [close_each]. unfold bind at 1, try_except. client_run.
    assert (Hrest : forall id' e, In id' (PyDict.keys rest) ->
                                  aclose_raises w id' = Some e ->
                                  is_Exception e = true).
    { intros id' e Hin. apply Hexc. now right. }
    destruct (aclose_raises w id) as [e|] eqn:E.
    + rewrite (Hexc id e (or_introl eq_refl) E).
      rewrite (IH _ Hrest). cbn. rewrite E. cbn. rewrite <- !app_assoc.
      reflexivity.
    + rewrite (IH _ Hrest). cbn. rewrite E. cbn. rewrite <- !app_assoc.
      reflexivity.
Qed.

Lemma closes_of_close_events w items :
  closes_of (close_events w items) = PyDict.keys items.
Proof.
  induction items as [|[id stk] rest IH]; [ reflexivity | ].
  cbn. destruct (aclose_raises w id); cbn; f_equal; exact IH.
Qed.

Lemma warning_in_close_events w items id e :
  In id (PyDict.keys items) ->
  aclose_raises w id = Some e ->
  In (EvLog WARNING ("Error closing " ++ id)) (close_events w items).
Proof.
  induction items as [|[id' stk] rest IH]; cbn; [ intros [] | ].
  intros [-> | Hin] He.
  - rewrite He. right. right. now left.
  - right. right. apply in_or_app. right. now apply IH.
Qed.

(** C5. On a client whose exit stacks have distinct keys (as the keys of a
    dict are), and when whatever a close raises is an [Exception] (what
    [except Exception] catches), [cleanup] returns; it awaits [aclose()] on
    the stacks in the order of the dict, once each; each failure is logged
    as a warning; and it leaves both the sessions and the exit stacks empty. *)
Theorem cleanup_closes_every_stack_once :
  forall (w : World) (c : MCPTesterClient),
    List.NoDup (PyDict.keys (exit_stacks c)) ->
    (forall id e, In id (PyDict.keys (exit_stacks c)) ->
                  aclose_raises w id = Some e -> is_Exception e = true) ->
    fst (cleanup w (start c)) = Ret tt
    /\ closes_of (trace (snd (cleanup w (start c)))) = PyDict.keys (exit_stacks c)
    /\ (forall id, In id (PyDict.keys (exit_stacks c)) ->
                   count_occ string_dec
                             (closes_of (trace (snd (cleanup w (start c))))) id
                   = 1%nat)
    /\ (forall id e, In id (PyDict.keys (exit_stacks c)) ->
                     aclose_raises w id = Some e ->
                     In (EvLog WARNING ("Error closing " ++ id))
                        (trace (snd (cleanup w (start c)))))
    /\ sessions (client (snd (cleanup w (start c)))) = ∅
    /\ exit_stacks (client (snd (cleanup w (start c)))) = [].
Proof.
  intros w c Hnodup Hexc.
  assert (Hrun : cleanup w (start c) =
                 (Ret tt,
                  {| client := set_exit_stacks [] (set_sessions ∅ c);
                     clock_reads := 0; scans := 0; probes := 0;
                     trace := EvLog INFO "Cleaning up MCP client connections..."
                              :: close_events w (exit_stacks c)
                              ++ [EvLog INFO "All connections cleaned up"] |})).
  { unfold cleanup. unfold bind at 1, log, emit. unfold bind at 1, get_client.
    unfold bind at 1. cbn [client]. rewrite (close_each_run w _ _ Hexc).
    reflexivity. }
  rewrite Hrun. cbn [fst snd trace client].
  assert (Hcloses : closes_of
                      (EvLog INFO "Cleaning up MCP client connections..."
                         :: close_events w (exit_stacks c)
                         ++ [EvLog INFO "All connections cleaned up"]) =
                    PyDict.keys (exit_stacks c)).
  { unfold closes_of. cbn [flat_map app]. rewrite flat_map_app. cbn.
    rewrite app_nil_r. apply closes_of_close_events. }
  split; [ reflexivity | split; [ exact Hcloses | split; [ | split ] ] ].
  - intros id Hin. rewrite Hcloses.
    now apply (proj1 (NoDup_count_occ' string_dec _) Hnodup).
  - intros id e Hin He. right. apply in_or_app. left.
    now apply (warning_in_close_events w _ id e).
  - split; reflexivity.
Qed.

Lemma cleanup_closes_every_stack_once_witness :
  closes_of (trace (snd (cleanup faulty_close_world (start three_server_client)))) =
  ["a"; "b"; "c"]%string
  /\ In (EvLog WARNING "Error closing a")
        (trace (snd (cleanup faulty_close_world (start three_server_client))))
  /\ sessions (client (snd (cleanup faulty_close_world (start three_server_client))))
     = ∅.
Proof.
  assert (Hkeys : PyDict.keys (exit_stacks three_server_client) =
                  ["a"; "b"; "c"]%string) by (vm_compute; reflexivity).
  assert (Hnodup : List.NoDup (PyDict.keys (exit_stacks three_server_client))).
  { rewrite Hkeys. apply (proj2 (NoDup_count_occ' string_dec _)).
    intros id [<- | [<- | [<- | []]]]; vm_compute; reflexivity. }
  assert (Hexc : forall id e,
             In id (PyDict.keys (exit_stacks three_server_client)) ->
             aclose_raises faulty_close_world id = Some e -> is_Exception e = true).
  { rewrite Hkeys.
    intros id e [<- | [<- | [<- | []]]] He; vm_compute in He; inversion He;
      reflexivity. }
  destruct (cleanup_closes_every_stack_once
              faulty_close_world three_server_client Hnodup Hexc)
    as (_ & Hcloses & _ & Hwarn & Hsessions & _).
  split; [ rewrite Hcloses; exact Hkeys | split; [ | exact Hsessions ] ].
  apply (Hwarn "a"%string (RuntimeError "broken pipe")).
  - rewrite Hkeys. now left.
  - reflexivity.
Defined.

(** The whole trace of that cleanup. *)
Example cleanup_trace :
  trace (snd (cleanup faulty_close_world (start three_server_client))) =
  [ EvLog INFO "Cleaning up MCP client connections...";
    EvLog INFO "Closing connection to a"; EvAclose "a";
    EvLog WARNING "Error closing a";
    EvLog INFO "Closing connection to b"; EvAclose "b";
    EvLog INFO "Closing connection to c"; EvAclose "c";
    EvLog INFO "All connections cleaned up" ].
Proof. vm_compute. reflexivity. Qed.

(** C5 as stated fails when a close raises an error that is no
    [Exception]: [except Exception] does not catch it. Closing the stack of
    ["b"] is cancelled; [cleanup] raises [CancelledError], the stack of
    ["c"] is never closed, and neither dict is cleared. *)
Lemma cancelled_close_stops_cleanup :
  is_Exception CancelledError = false
  /\ fst (cleanup cancelled_close_world (start three_server_client))
     = Raise CancelledError
  /\ closes_of (trace (snd (cleanup cancelled_close_world
                                    (start three_server_client))))
     = ["a"; "b"]%string
  /\ PyDict.keys (exit_stacks (client (snd (cleanup cancelled_close_world
                                                    (start three_server_client)))))
     = ["a"; "b"; "c"]%string
  /\ option_map closed_stack
       (PyDict.get "c"
          (exit_stacks (client (snd (cleanup cancelled_close_world
                                             (start three_server_client))))))
     = Some false
  /\ sessions (client (snd (cleanup cancelled_close_world
                                    (start three_server_client))))
     = sessions three_server_client.
Proof. repeat split; vm_compute; reflexivity. Qed.

(* ===================================================================== *)
(** * Further properties of the session manager *)
(* ===================================================================== *)

Lemma PyDict_get_set_ne {V} (k k' : string) (v : V) d :
  k' <> k -> PyDict.get k' (PyDict.set k v d) = PyDict.get k' d.
Proof.
  intro Hne. induction d as [|[k0 v0] d' IH]; cbn.
  - destruct (String.eqb k' k) eqn:E; [ | reflexivity ].
    apply String.eqb_eq in E. contradiction.
  - destruct (String.eqb k k0) eqn:E; cbn.
    + apply String.eqb_eq in E. subst k0.
      destruct (String.eqb k' k) eqn:E'; [ | reflexivity ].
      apply String.eqb_eq in E'. contradiction.
    + destruct (String.eqb k' k0); [ reflexivity | exact IH ].
Qed.

Lemma PyDict_get_alter_ne {V} (f : V -> V) (k k' : string) d :
  k' <> k -> PyDict.get k' (PyDict.alter f k d) = PyDict.get k' d.
Proof.
  intro Hne. induction d as [|[k0 v0] d' IH]; cbn; [ reflexivity | ].
  destruct (String.eqb k k0) eqn:E; cbn.
  - apply String.eqb_eq in E. subst k0.
    destruct (String.eqb k' k) eqn:E'; [ | reflexivity ].
    apply String.eqb_eq in E'. contradiction.
  - destruct (String.eqb k' k0); [ reflexivity | exact IH ].
Qed.

Lemma PyDict_get_In_keys {V} (k : string) (d : list (string * V)) :
  is_Some (PyDict.get k d) <-> In k (PyDict.keys d).
Proof.
  induction d as [|[k0 v0] d' IH]; cbn.
  - split; [ intros [x Hx]; discriminate Hx | intros [] ].
  - destruct (String.eqb k k0) eqn:E.
    + apply String.eqb_eq in E. subst k0. split; [ now left | now eexists ].
    + rewrite IH. split; [ now right | ].
      intros [<- | H]; [ | exact H ]. now rewrite String.eqb_refl in E.
Qed.

(** X1. [connect_server_stdio] when nothing raises: it returns the session
    it built, registers it under the id, leaves under the id a stack holding
    the session's and the transport's contexts (latest first), awaits no
    close, and touches neither the configurations nor the session and the
    stack of any other id. *)
Theorem connect_stdio_success :
  forall (server_id : string) (p : StdioServerParameters)
         (w : World) (c : MCPTesterClient),
    enter_transport w server_id = None ->
    enter_session w server_id = None ->
    initialize w server_id = None ->
    fst (connect_server_stdio server_id p w (start c)) = Ret (Some (stdio_session p))
    /\ sessions (client (snd (connect_server_stdio server_id p w (start c))))
         !! server_id = Some (stdio_session p)
    /\ PyDict.get server_id
         (exit_stacks (client (snd (connect_server_stdio server_id p w (start c)))))
       = Some {| entered := [ClientSessionCtx (stdio_session p); StdioClientCtx p] |}
    /\ closes_of (trace (snd (connect_server_stdio server_id p w (start c)))) = []
    /\ server_params (client (snd (connect_server_stdio server_id p w (start c))))
       = server_params c
    /\ forall other,
         other <> server_id ->
         sessions (client (snd (connect_server_stdio server_id p w (start c))))
           !! other = sessions c !! other
         /\ PyDict.get other
              (exit_stacks (client (snd (connect_server_stdio server_id p w (start c)))))
            = PyDict.get other (exit_stacks c).
Proof.
  intros server_id p w c Htr Hse Hin.
  client_run. rewrite Htr, Hse, Hin. fields. unfold stdio_session.
  split; [ reflexivity | split; [ | split; [ | split; [ reflexivity | split;
    [ reflexivity | ] ] ] ] ].
  - apply lookup_insert_eq.
  - rewrite !PyDict_get_alter_eq, PyDict_get_set_eq. reflexivity.
  - intros other Hne. split.
    + now apply lookup_insert_ne.
    + now rewrite !PyDict_get_alter_ne, PyDict_get_set_ne.
Qed.

Lemma connect_stdio_success_witness :
  fst (connect_server_stdio "1" demo_params demo_world (start (init (Some "stdio"))))
  = Ret (Some (stdio_session demo_params))
  /\ sessions
       (client (snd (connect_server_stdio "1" demo_params demo_world
                                          (start (init (Some "stdio"))))))
       !! "1" = Some (stdio_session demo_params).
Proof.
  destruct (connect_stdio_success "1" demo_params demo_world (init (Some "stdio"))
                                  eq_refl eq_refl eq_refl)
    as (Hret & Hsess & _).
  split; [ exact Hret | exact Hsess ].
Defined.

(** X2. Whatever happens during [connect_server_stdio], it awaits no close,
    and the stack stored under the id afterwards is a new one that holds at
    most the contexts of this connect: a stack registered under the same id
    before is dropped from the dict with its contexts still entered. *)
Theorem connect_stdio_replaces_stack :
  forall (server_id : string) (p : StdioServerParameters)
         (w : World) (c : MCPTesterClient),
    closes_of (trace (snd (connect_server_stdio server_id p w (start c)))) = []
    /\ exists stk,
         PyDict.get server_id
           (exit_stacks (client (snd (connect_server_stdio server_id p w (start c)))))
         = Some stk
         /\ (entered stk = []
             \/ entered stk = [StdioClientCtx p]
             \/ entered stk = [ClientSessionCtx (stdio_session p); StdioClientCtx p]).
Proof.
  intros server_id p w c. client_run. unfold stdio_session.
  destruct (enter_transport w server_id); fields.
  { split; [ reflexivity | ]. eexists. rewrite PyDict_get_set_eq.
    split; [ reflexivity | now left ]. }
  destruct (enter_session w server_id); fields.
  { split; [ reflexivity | ]. eexists.
    rewrite PyDict_get_alter_eq, PyDict_get_set_eq.
    split; [ reflexivity | right; now left ]. }
  destruct (initialize w server_id) as [e|]; cbn;
    [ destruct (is_TimeoutError e); cbn | ];
    (split; [ reflexivity | ]); eexists;
    rewrite !PyDict_get_alter_eq, PyDict_get_set_eq;
    (split; [ reflexivity | right; now right ]).
Qed.

(** A second connect under the id of an open session: the first stack, with
    its two contexts, is no longer in the dict, and nothing was closed. *)
Example reconnect_drops_the_open_stack :
  closes_of
    (trace (snd ((connect_server_stdio "1" demo_params ;;
                  connect_server_streamable_https "1" "https://example.com/mcp")
                   demo_world (start (init None))))) = []
  /\ exit_stacks
       (client (snd ((connect_server_stdio "1" demo_params ;;
                      connect_server_streamable_https "1" "https://example.com/mcp")
                       demo_world (start (init None))))) =
     [("1"%string,
       {| entered :=
            [ClientSessionCtx (https_session "https://example.com/mcp");
             StreamableHttpCtx "https://example.com/mcp"] |})].
Proof. split; vm_compute; reflexivity. Qed.

(** X3. When the handshake raises anything but [TimeoutError], the handler
    of [connect_server_stdio] does not run: the exception propagates, the
    session stays registered and its stack stays open with both contexts;
    no close is awaited. *)
Theorem connect_stdio_handshake_error_propagates :
  forall (server_id : string) (p : StdioServerParameters)
         (w : World) (c : MCPTesterClient) (e : PyExc),
    enter_transport w server_id = None ->
    enter_session w server_id = None ->
    initialize w server_id = Some e ->
    is_TimeoutError e = false ->
    fst (connect_server_stdio server_id p w (start c)) = Raise e
    /\ sessions (client (snd (connect_server_stdio server_id p w (start c))))
         !! server_id = Some (stdio_session p)
    /\ PyDict.get server_id
         (exit_stacks (client (snd (connect_server_stdio server_id p w (start c)))))
       = Some {| entered := [ClientSessionCtx (stdio_session p); StdioClientCtx p] |}
    /\ closes_of (trace (snd (connect_server_stdio server_id p w (start c)))) = [].
Proof.
  intros server_id p w c e Htr Hse Hin He.
  client_run. rewrite Htr, Hse, Hin. cbn. rewrite He. fields.
  unfold stdio_session.
  split; [ reflexivity | split; [ | split; [ | reflexivity ] ] ].
  - apply lookup_insert_eq.
  - rewrite !PyDict_get_alter_eq, PyDict_get_set_eq. reflexivity.
Qed.

Lemma connect_stdio_handshake_error_propagates_witness :
  fst (connect_server_stdio "1" demo_params handshake_error_world
                            (start (init (Some "stdio"))))
  = Raise (OtherException "McpError").
Proof.
  exact (proj1 (connect_stdio_handshake_error_propagates
                  "1" demo_params handshake_error_world (init (Some "stdio"))
                  (OtherException "McpError") eq_refl eq_refl eq_refl eq_refl)).
Defined.

(** X4. When the transport cannot be entered (the child cannot be spawned),
    [connect_server_stdio] raises what the transport raised; the new, empty
    stack is already registered under the id; the sessions are as before and
    no close is awaited. *)
Theorem connect_stdio_spawn_failure :
  forall (server_id : string) (p : StdioServerParameters)
         (w : World) (c : MCPTesterClient) (e : PyExc),
    enter_transport w server_id = Some e ->
    fst (connect_server_stdio server_id p w (start c)) = Raise e
    /\ PyDict.get server_id
         (exit_stacks (client (snd (connect_server_stdio server_id p w (start c)))))
       = Some new_exit_stack
    /\ sessions (client (snd (connect_server_stdio server_id p w (start c))))
       = sessions c
    /\ closes_of (trace (snd (connect_server_stdio server_id p w (start c)))) = [].
Proof.
  intros server_id p w c e Htr.
  client_run. rewrite Htr. fields.
  split; [ reflexivity | split; [ | split; reflexivity ] ].
  apply PyDict_get_set_eq.
Qed.

Lemma connect_stdio_spawn_failure_witness :
  fst (connect_server_stdio "1" demo_params spawn_failure_world
                            (start (init (Some "stdio"))))
  = Raise (OtherException "FileNotFoundError").
Proof.
  exact (proj1 (connect_stdio_spawn_failure
                  "1" demo_params spawn_failure_world (init (Some "stdio"))
                  (OtherException "FileNotFoundError") eq_refl)).
Defined.

(** X5. [connect_server_streamable_https] never returns: every run of it
    raises. When the HTTP streams and the session are entered, the handshake
    raises [AttributeError] at once, whatever the server does (line 110 has
    passed the function [get_session_id] as the session's read timeout):
    this is no [TimeoutError], the handler of lines 116-120 does not run, the
    session stays registered, the stack stays open with both contexts, and
    no close is awaited. *)
Theorem https_connect_raises_at_the_handshake :
  forall (server_id server_url : string) (w : World) (c : MCPTesterClient),
    (exists e,
        fst (connect_server_streamable_https server_id server_url w (start c))
        = Raise e)
    /\ (enter_transport w server_id = None ->
        enter_session w server_id = None ->
        fst (connect_server_streamable_https server_id server_url w (start c))
        = Raise (AttributeError "total_seconds")
        /\ sessions
             (client (snd (connect_server_streamable_https server_id server_url w
                                                           (start c))))
             !! server_id = Some (https_session server_url)
        /\ PyDict.get server_id
             (exit_stacks
                (client (snd (connect_server_streamable_https server_id server_url
                                                              w (start c)))))
           = Some {| entered := [ClientSessionCtx (https_session server_url);
                                 StreamableHttpCtx server_url] |}
        /\ closes_of
             (trace (snd (connect_server_streamable_https server_id server_url w
                                                          (start c)))) = []).
Proof.
  intros server_id server_url w c. split.
  - client_run.
    destruct (enter_transport w server_id) as [e|];
      [ now exists e | ].
    destruct (enter_session w server_id) as [e|];
      [ now exists e | ].
    cbn [is_TimeoutError]. now eexists.
  - intros Htr Hse. client_run. rewrite Htr, Hse. cbn [is_TimeoutError]. fields.
    unfold https_session.
    split; [ reflexivity | split; [ | split; [ | reflexivity ] ] ].
    + apply lookup_insert_eq.
    + rewrite !PyDict_get_alter_eq, PyDict_get_set_eq. reflexivity.
Qed.

Lemma https_connect_raises_at_the_handshake_witness :
  fst (connect_server_streamable_https "2" "https://example.com/mcp" demo_world
                                       (start (init (Some "https"))))
  = Raise (AttributeError "total_seconds")
  /\ fst (connect_server_streamable_https "2" "https://example.com/mcp" timeout_world
                                          (start (init (Some "https"))))
     = Raise (AttributeError "total_seconds").
Proof.
  split.
  - exact (proj1 (proj2 (https_connect_raises_at_the_handshake
                           "2" "https://example.com/mcp" demo_world
                           (init (Some "https"))) eq_refl eq_refl)).
  - exact (proj1 (proj2 (https_connect_raises_at_the_handshake
                           "2" "https://example.com/mcp" timeout_world
                           (init (Some "https"))) eq_refl eq_refl)).
Defined.

Lemma prelude_client kw w c r st1 :
  prelude kw w (start c) = (r, st1) ->
  client st1 = c \/ client st1 = closed_client (server_id_of kw) c.
Proof.
  intro H. run_in H.
  repeat case_in H; inversion H; subst; cbn [client]; auto.
Qed.

Lemma timeout_tester_client fuel kw w c :
  client (snd (timeout_tester fuel kw w (start c))) = c
  \/ client (snd (timeout_tester fuel kw w (start c)))
     = closed_client (server_id_of kw) c.
Proof.
  remember (timeout_tester fuel kw w (start c)) as run eqn:Hrun.
  unfold timeout_tester in Hrun. unfold bind at 1 in Hrun.
  destruct (prelude kw w (start c)) as [[pb| |] st1] eqn:E;
    pose proof (prelude_client _ _ _ _ _ E) as Hc;
    [ | subst run; exact Hc .. ].
  unfold bind, monotonic in Hrun.
  match type of Hrun with
  | context [drain fuel ?p ?d ?b ?l w ?s] =>
      destruct (drain_appends fuel p d b l w s) as (evs & _ & _ & Hcl & _)
  end.
  subst run. rewrite Hcl. exact Hc.
Qed.

(** The loop of [cleanup], whatever the closes raise: it changes nothing of
    the client but the stacks, and keeps their keys. *)
Lemma close_each_client (w : World) (items : list (string * AsyncExitStack)) :
  forall st,
    exists d',
      client (snd (close_each items w st)) = set_exit_stacks d' (client st)
      /\ PyDict.keys d' = PyDict.keys (exit_stacks (client st)).
Proof.
  induction items as [|[id stk] rest IH]; intros st.
  - exists (exit_stacks (client st)). cbn.
    split; [ destruct (client st); reflexivity | reflexivity ].
  - cbn [close_each].
    cbv beta iota zeta delta
        [bind ret raise may_raise ask emit log get_client put_client
         try_except await_aclose].
    destruct (aclose_raises w id) as [e|]; [ destruct (is_Exception e) | ];
      cbn [client clock_reads scans probes trace snd fst].
    + match goal with
      | |- context [close_each rest w ?s] =>
          destruct (IH s) as (d' & Hc & Hk)
      end.
      exists d'. rewrite Hc, Hk. fields.
      split; [ reflexivity | apply PyDict_keys_alter ].
    + eexists. fields. split; [ reflexivity | apply PyDict_keys_alter ].
    + match goal with
      | |- context [close_each rest w ?s] =>
          destruct (IH s) as (d' & Hc & Hk)
      end.
      exists d'. rewrite Hc, Hk. fields.
      split; [ reflexivity | apply PyDict_keys_alter ].
Qed.

Lemma lockstep_same_keys (c c' : MCPTesterClient) :
  sessions c' = sessions c ->
  PyDict.keys (exit_stacks c') = PyDict.keys (exit_stacks c) ->
  lockstep c -> lockstep c'.
Proof.
  intros Hs Hk H id Hid. apply PyDict_get_In_keys. rewrite Hk.
  apply PyDict_get_In_keys, H. now rewrite <- Hs.
Qed.

(** One case of a connect: the id connected has a stack, the others are as
    they were. *)
Ltac lockstep_case H id :=
  let id' := fresh "id'" in
  let Hs := fresh "Hs" in
  let E := fresh "E" in
  unfold lockstep; intros id' Hs;
  cbn [client snd fst exit_stacks sessions set_exit_stacks set_sessions
       set_streams set_server_params] in Hs |- *;
  destruct (String.eqb id' id) eqn:E;
  [ apply String.eqb_eq in E; subst id';
    rewrite ?PyDict_get_alter_eq, PyDict_get_set_eq; eexists; reflexivity
  | apply String.eqb_neq in E;
    rewrite ?PyDict_get_alter_ne, PyDict_get_set_ne by assumption;
    apply H;
    rewrite ?lookup_delete_ne, ?lookup_insert_ne in Hs by congruence;
    exact Hs ].

(** X6. The sessions and the exit stacks are kept in step: when every
    session of a client has an exit stack, this is still so after
    [add_server], after either connect, after [cleanup] and after
    [timeout_tester], whatever their outcome. *)
Theorem lockstep_is_kept :
  forall (c : MCPTesterClient) (w : World),
    lockstep c ->
    (forall id params, lockstep (client (snd (add_server id params w (start c)))))
    /\ (forall id p,
           lockstep (client (snd (connect_server_stdio id p w (start c)))))
    /\ (forall id url,
           lockstep (client (snd (connect_server_streamable_https id url w
                                                                  (start c)))))
    /\ lockstep (client (snd (cleanup w (start c))))
    /\ (forall fuel kw,
           lockstep (client (snd (timeout_tester fuel kw w (start c))))).
Proof.
  intros c w H.
  split; [ | split; [ | split; [ | split ] ] ].
  - intros id params. exact H.
  - intros id p. client_run.
    destruct (enter_transport w id);
      [ | destruct (enter_session w id);
          [ | destruct (initialize w id) as [e|];
              [ destruct (is_TimeoutError e) | ] ] ];
      lockstep_case H id.
  - intros id url. client_run.
    destruct (enter_transport w id);
      [ | destruct (enter_session w id) ];
      cbn [is_TimeoutError]; lockstep_case H id.
  - unfold cleanup. unfold bind at 1, log, emit. unfold bind at 1, get_client.
    unfold bind at 1. cbn [client].
    match goal with
    | |- context [close_each ?items w ?s] =>
        destruct (close_each_client w items s) as (d' & Hc & Hk);
        destruct (close_each items w s) as [[[]| |] st']
    end; cbn [snd client] in *.
    + client_run. intros id [x Hx]. cbn in Hx. rewrite lookup_empty in Hx.
      discriminate Hx.
    + rewrite Hc. eapply lockstep_same_keys; [ | | exact H ];
        [ reflexivity | exact Hk ].
    + rewrite Hc. eapply lockstep_same_keys; [ | | exact H ];
        [ reflexivity | exact Hk ].
  - intros fuel kw.
    destruct (timeout_tester_client fuel kw w c) as [-> | ->]; [ exact H | ].
    eapply lockstep_same_keys; [ | | exact H ];
      [ reflexivity | apply PyDict_keys_alter ].
Qed.

Lemma lockstep_is_kept_witness :
  lockstep (client (snd (cleanup demo_world (start connected_client))))
  /\ lockstep (client (snd (timeout_tester 10 default_kwargs demo_world
                                           (start connected_client)))).
Proof.
  assert (H : lockstep connected_client).
  { intros id [x Hx].
    destruct (String.eqb id "1") eqn:E.
    - apply String.eqb_eq in E. subst id. eexists. vm_compute. reflexivity.
    - apply String.eqb_neq in E. exfalso.
      assert (Hs : sessions connected_client = <["1"%string := stdio_session demo_params]> ∅)
        by (vm_compute; reflexivity).
      rewrite Hs, lookup_insert_ne, lookup_empty in Hx by congruence.
      discriminate Hx. }
  destruct (lockstep_is_kept connected_client demo_world H)
    as (_ & _ & _ & Hcl & Hprobe).
  split; [ exact Hcl | exact (Hprobe 10%nat default_kwargs) ].
Defined.

(** [cleanup] from any state, when whatever a close raises is an
    [Exception]. *)
Lemma cleanup_run (w : World) (st : RunState) :
  (forall id e, In id (PyDict.keys (exit_stacks (client st))) ->
                aclose_raises w id = Some e -> is_Exception e = true) ->
  cleanup w st =
  (Ret tt,
   {| client := set_exit_stacks [] (set_sessions ∅ (client st));
      clock_reads := clock_reads st; scans := scans st; probes := probes st;
      trace := trace st
               ++ EvLog INFO "Cleaning up MCP client connections..."
               :: close_events w (exit_stacks (client st))
               ++ [EvLog INFO "All connections cleaned up"] |}).
Proof.
  intro Hexc.
  unfold cleanup. unfold bind at 1, log, emit. unfold bind at 1, get_client.
  unfold bind at 1. cbn [client].
  rewrite (close_each_run w _ _ Hexc). cbn.
  rewrite <- !app_assoc. reflexivity.
Qed.

Lemma closes_of_app (l1 l2 : list Event) :
  closes_of (l1 ++ l2) = closes_of l1 ++ closes_of l2.
Proof. unfold closes_of. apply flat_map_app. Qed.

Lemma keys_close_stacks (ids : list string) (d : list (string * AsyncExitStack)) :
  PyDict.keys (close_stacks ids d) = PyDict.keys d.
Proof.
  unfold close_stacks. revert d.
  induction ids as [|k ks IH]; intro d; [ reflexivity | ].
  cbn [fold_left]. rewrite IH. apply PyDict_keys_alter.
Qed.

(** The loop of [cleanup] over a list in two parts. *)
Lemma close_each_app (w : World) (l1 l2 : list (string * AsyncExitStack)) :
  forall st,
    close_each (l1 ++ l2) w st =
    match close_each l1 w st with
    | (Ret _, st') => close_each l2 w st'
    | other => other
    end.
Proof.
  induction l1 as [|[id stk] rest IH]; intros st; [ reflexivity | ].
  cbn [app close_each]. unfold bind at 1 3.
  destruct (try_except _ _ _ w st) as [[[]| |] st']; [ apply IH | reflexivity .. ].
Qed.

(** X7. When a close raises an exception that is not an [Exception]
    ([CancelledError], [KeyboardInterrupt]), the handler of [cleanup] does
    not catch it: [cleanup] raises it; the stacks before that one were
    closed, it was attempted, those after it are not; and neither dict is
    cleared. *)
Theorem cleanup_stops_at_base_exception :
  forall (w : World) (c : MCPTesterClient)
         (before after : list (string * AsyncExitStack))
         (id : string) (stk : AsyncExitStack) (e : PyExc),
    exit_stacks c = before ++ (id, stk) :: after ->
    (forall id' e', In id' (PyDict.keys before) ->
                    aclose_raises w id' = Some e' -> is_Exception e' = true) ->
    aclose_raises w id = Some e ->
    is_Exception e = false ->
    fst (cleanup w (start c)) = Raise e
    /\ closes_of (trace (snd (cleanup w (start c)))) = PyDict.keys before ++ [id]
    /\ sessions (client (snd (cleanup w (start c)))) = sessions c
    /\ PyDict.keys (exit_stacks (client (snd (cleanup w (start c)))))
       = PyDict.keys (exit_stacks c).
Proof.
  intros w c before after id stk e Hstacks Hbefore He Hbase.
  assert (Hrun : exists d',
             cleanup w (start c) =
             (Raise e,
              {| client := set_exit_stacks d' c;
                 clock_reads := 0; scans := 0; probes := 0;
                 trace := EvLog INFO "Cleaning up MCP client connections..."
                          :: close_events w before
                          ++ [EvLog INFO ("Closing connection to " ++ id);
                              EvAclose id] |})
             /\ PyDict.keys d' = PyDict.keys (exit_stacks c)).
  { unfold cleanup. unfold bind at 1, log, emit. unfold bind at 1, get_client.
    unfold bind at 1. cbn [client start]. rewrite Hstacks, close_each_app.
    rewrite (close_each_run w before _ Hbefore).
    cbn [close_each]. unfold bind at 1, try_except.
    cbv beta iota zeta delta
        [bind ret raise may_raise ask emit log get_client put_client await_aclose].
    cbn [client clock_reads scans probes trace]. rewrite He, Hbase.
    eexists. split.
    - rewrite <- !app_assoc. reflexivity.
    - fields. rewrite PyDict_keys_alter, keys_close_stacks, ?Hstacks.
      reflexivity. }
  destruct Hrun as (d' & Hrun & Hk). rewrite Hrun. cbn [fst snd trace client].
  split; [ reflexivity | split; [ | split; [ reflexivity | exact Hk ] ] ].
  change (EvLog INFO "Cleaning up MCP client connections..."
            :: close_events w before
            ++ [EvLog INFO ("Closing connection to " ++ id); EvAclose id])
    with ([EvLog INFO "Cleaning up MCP client connections..."]
            ++ close_events w before
            ++ [EvLog INFO ("Closing connection to " ++ id); EvAclose id]).
  rewrite !closes_of_app, closes_of_close_events. reflexivity.
Qed.

Lemma cleanup_stops_at_base_exception_witness :
  fst (cleanup cancelled_close_world (start three_server_client)) = Raise CancelledError
  /\ closes_of (trace (snd (cleanup cancelled_close_world
                                    (start three_server_client)))) =
     ["a"; "b"]%string.
Proof.
  assert (Hstacks : exists sa sb sc,
             exit_stacks three_server_client =
             [("a"%string, sa)] ++ ("b"%string, sb) :: [("c"%string, sc)]).
  { do 3 eexists. vm_compute. reflexivity. }
  destruct Hstacks as (sa & sb & sc & Hstacks).
  destruct (cleanup_stops_at_base_exception
              cancelled_close_world three_server_client
              [("a"%string, sa)] [("c"%string, sc)] "b" sb CancelledError Hstacks)
    as (Hret & Hcloses & _).
  - intros id' e' [<- | []] He'. discriminate He'.
  - reflexivity.
  - reflexivity.
  - split; [ exact Hret | exact Hcloses ].
Defined.

(** X8. Calling [cleanup] twice closes every stack once: the second call
    finds no stack, awaits no close and returns (when whatever the closes of
    the first call raise is an [Exception]). *)
Theorem cleanup_twice_closes_once :
  forall (w : World) (c : MCPTesterClient),
    (forall id e, In id (PyDict.keys (exit_stacks c)) ->
                  aclose_raises w id = Some e -> is_Exception e = true) ->
    fst ((cleanup ;; cleanup) w (start c)) = Ret tt
    /\ closes_of (trace (snd ((cleanup ;; cleanup) w (start c))))
       = PyDict.keys (exit_stacks c)
    /\ closes_of (trace (snd (cleanup w (snd (cleanup w (start c))))))
       = closes_of (trace (snd (cleanup w (start c))))
    /\ client (snd ((cleanup ;; cleanup) w (start c)))
       = client (snd (cleanup w (start c))).
Proof.
  intros w c Hexc.
  assert (H1 := cleanup_run w (start c) Hexc).
  assert (H2 := fun st (Hst : exit_stacks (client st) = []) =>
                  cleanup_run w st
                    (fun id e (Hin : In id (PyDict.keys (exit_stacks (client st)))) _ =>
                       match eq_ind _ (fun d => In id (PyDict.keys d)) Hin _ Hst
                       with end)).
  unfold bind. rewrite H1. cbn [snd fst].
  rewrite H2 by reflexivity. cbn [fst snd trace client start exit_stacks
                                  set_exit_stacks set_sessions sessions].
  split; [ reflexivity | ].
  rewrite !closes_of_app. cbn [close_events flat_map app].
  change (EvLog INFO "Cleaning up MCP client connections..."
            :: close_events w (exit_stacks c)
            ++ [EvLog INFO "All connections cleaned up"])
    with ([EvLog INFO "Cleaning up MCP client connections..."]
            ++ close_events w (exit_stacks c)
            ++ [EvLog INFO "All connections cleaned up"]).
  rewrite !closes_of_app, closes_of_close_events. cbn. rewrite !app_nil_r.
  repeat split.
Qed.

Lemma cleanup_twice_closes_once_witness :
  closes_of (trace (snd ((cleanup ;; cleanup) faulty_close_world
                           (start three_server_client)))) =
  ["a"; "b"; "c"]%string.
Proof.
  assert (Hkeys : PyDict.keys (exit_stacks three_server_client) =
                  ["a"; "b"; "c"]%string) by (vm_compute; reflexivity).
  assert (Hexc : forall id e,
             In id (PyDict.keys (exit_stacks three_server_client)) ->
             aclose_raises faulty_close_world id = Some e -> is_Exception e = true).
  { rewrite Hkeys.
    intros id e [<- | [<- | [<- | []]]] He; vm_compute in He; inversion He;
      reflexivity. }
  destruct (cleanup_twice_closes_once faulty_close_world three_server_client Hexc)
    as (_ & Hcloses & _).
  rewrite Hcloses. exact Hkeys.
Defined.

(** X9. A handshake timeout followed by [cleanup]: the stack that the
    connect left open is closed by [cleanup], once, with every other stack
    of the client; afterwards no stack and no session is registered. (The
    closes are taken to raise nothing but [Exception]s, and the keys of the
    client's stacks to be distinct.) *)
Theorem cleanup_closes_the_stack_of_a_timed_out_connect :
  forall (server_id : string) (p : StdioServerParameters)
         (w : World) (c : MCPTesterClient),
    List.NoDup (PyDict.keys (exit_stacks c)) ->
    enter_transport w server_id = None ->
    enter_session w server_id = None ->
    initialize w server_id = Some TimeoutError ->
    (forall id e, aclose_raises w id = Some e -> is_Exception e = true) ->
    fst ((connect_server_stdio server_id p ;; cleanup) w (start c)) = Ret tt
    /\ count_occ string_dec
         (closes_of (trace (snd ((connect_server_stdio server_id p ;; cleanup)
                                   w (start c)))))
         server_id = 1%nat
    /\ closes_of (trace (snd ((connect_server_stdio server_id p ;; cleanup)
                                w (start c))))
       = PyDict.keys (PyDict.set server_id new_exit_stack (exit_stacks c))
    /\ exit_stacks (client (snd ((connect_server_stdio server_id p ;; cleanup)
                                   w (start c)))) = []
    /\ sessions (client (snd ((connect_server_stdio server_id p ;; cleanup)
                                w (start c)))) = ∅.
Proof.
  intros server_id p w c Hnodup Htr Hse Hin Hexc.
  assert (Hconn : exists tr,
             connect_server_stdio server_id p w (start c) =
             (Ret None,
              {| client :=
                   set_sessions
                     (delete server_id
                        (<[server_id := stdio_session p]> (sessions c)))
                     (set_streams (ChildStdout (command p)) (ChildStdin (command p))
                        (set_exit_stacks
                           (PyDict.alter
                              (enter_context (ClientSessionCtx (stdio_session p)))
                              server_id
                              (PyDict.alter (enter_context (StdioClientCtx p))
                                 server_id
                                 (PyDict.set server_id new_exit_stack
                                    (exit_stacks c)))) c));
                 clock_reads := 0; scans := 0; probes := 0; trace := tr |})
             /\ closes_of tr = []).
  { eexists. client_run. rewrite Htr, Hse, Hin. cbn. split; reflexivity. }
  destruct Hconn as (tr & Hconn & Htrace).
  unfold bind. rewrite Hconn.
  rewrite cleanup_run by (intros id e _; apply Hexc).
  cbn [fst snd trace client exit_stacks sessions set_exit_stacks set_sessions
       set_streams].
  assert (Hcloses :
            closes_of
              (tr ++ EvLog INFO "Cleaning up MCP client connections..."
                  :: close_events w
                       (PyDict.alter
                          (enter_context (ClientSessionCtx (stdio_session p)))
                          server_id
                          (PyDict.alter (enter_context (StdioClientCtx p)) server_id
                             (PyDict.set server_id new_exit_stack (exit_stacks c))))
                  ++ [EvLog INFO "All connections cleaned up"]) =
            PyDict.keys (PyDict.set server_id new_exit_stack (exit_stacks c))).
  { rewrite closes_of_app, Htrace.
    change (closes_of (?e :: ?l)) with (closes_of ([e] ++ l)).
    rewrite !closes_of_app, closes_of_close_events, !PyDict_keys_alter.
    cbn. now rewrite app_nil_r. }
  rewrite Hcloses.
  split; [ reflexivity | split; [ | repeat split ] ].
  apply (proj1 (NoDup_count_occ' string_dec _)).
  - now apply PyDict_NoDup_set.
  - apply PyDict_get_In_keys. rewrite PyDict_get_set_eq. now eexists.
Qed.

Lemma cleanup_closes_the_stack_of_a_timed_out_connect_witness :
  closes_of (trace (snd ((connect_server_stdio "1" demo_params ;; cleanup)
                           timeout_world (start (init (Some "stdio")))))) =
  ["1"%string].
Proof.
  destruct (cleanup_closes_the_stack_of_a_timed_out_connect
              "1" demo_params timeout_world (init (Some "stdio")))
    as (_ & _ & Hcloses & _).
  - constructor.
  - reflexivity.
  - reflexivity.
  - reflexivity.
  - intros id e He. discriminate He.
  - rewrite Hcloses. reflexivity.
Defined.

(* ===================================================================== *)
(** * Further properties of the leak probe *)
(* ===================================================================== *)

(** The drain loop never reports [Clean] on a snapshot that is not decayed,
    nor [SuspectLeak] on one that is. *)
Lemma drain_sound fuel proc deadline base :
  forall last w st r,
    (forall s, last = Some s -> decayed base s = false) ->
    fst (drain fuel proc deadline base last w st) = Ret r ->
    match status r with
    | Clean => exists s, final r = Some s /\ decayed base s = true
    | SuspectLeak => forall s, final r = Some s -> decayed base s = false
    end.
Proof.
  induction fuel as [|fuel' IH]; intros last w st r Hlast Hr.
  - discriminate Hr.
  - cbn [drain] in Hr.
    unfold bind, monotonic, take_snapshot, sleep, emit, ret in Hr. cbn in Hr.
    destruct (Qltb (clock w (clock_reads st)) deadline); cbn in Hr.
    + destruct (decayed base (snapshot (probe w (pid proc) (probes st)))) eqn:E;
        cbn in Hr.
      * inversion Hr; subst; clear Hr. cbn. eexists. split; [ reflexivity | exact E ].
      * eapply IH; [ | exact Hr ]. intros s Hs. inversion Hs; subst. exact E.
    + inversion Hr; subst; clear Hr. cbn. exact Hlast.
Qed.

(** X10. The verdict agrees with the evidence returned with it: when the
    probe returns [Clean], its [final] is a snapshot that is decayed with
    respect to its [baseline]; when it returns [SuspectLeak], its [final], if
    it is a snapshot, is not. *)
Theorem verdict_matches_evidence :
  forall (fuel : nat) (kw : Kwargs) (w : World) (c : MCPTesterClient)
         (r : ProbeResult),
    fst (timeout_tester fuel kw w (start c)) = Ret r ->
    match status r with
    | Clean => exists s, final r = Some s /\ decayed (baseline r) s = true
    | SuspectLeak => forall s, final r = Some s -> decayed (baseline r) s = false
    end.
Proof.
  intros fuel kw w c r Hr.
  unfold timeout_tester in Hr. unfold bind at 1 in Hr.
  destruct (prelude kw w (start c)) as [[[proc base]| |] st1]; try discriminate Hr.
  unfold bind, monotonic in Hr. cbn [fst snd] in Hr.
  match type of Hr with
  | context [drain fuel ?p ?d ?b ?l w ?s] =>
      destruct (drain_appends fuel p d b l w s) as (_ & _ & _ & _ & Hbase);
      rewrite (Hbase r Hr);
      apply (drain_sound fuel p d b l w s r); [ | exact Hr ]
  end.
  intros s Hs. discriminate Hs.
Qed.

Lemma verdict_matches_evidence_witness :
  exists s, Some demo_base = Some s /\ decayed demo_base s = true.
Proof.
  exact (verdict_matches_evidence
           10 default_kwargs demo_world demo_client
           {| status := Clean; baseline := demo_base; final := Some demo_base |}
           demo_run_returns).
Defined.

(** A search below a bound: nothing, or a first hit. *)
Lemma bounded_search (P : nat -> bool) (m : nat) :
  (forall j, (j < m)%nat -> P j = false)
  \/ exists k, (k < m)%nat /\ P k = true /\ forall j, (j < k)%nat -> P j = false.
Proof.
  induction m as [|m' IH].
  - left. intros j Hj. lia.
  - destruct IH as [Hnone | Hsome].
    + destruct (P m') eqn:E.
      * right. exists m'. repeat split; auto.
      * left. intros j Hj. destruct (Nat.eq_dec j m') as [-> | Hne]; auto.
        apply Hnone. lia.
    + right. destruct Hsome as (k & Hk & Hpk & Hbefore).
      exists k. repeat split; auto.
Qed.

Lemma clock_lower_bound (w : World) (delta : Q) :
  (forall j, (clock w (S j) + delta <= clock w (S (S j)))%Q) ->
  forall j, (clock w 1 + inject_Z (Z.of_nat j) * delta <= clock w (S j))%Q.
Proof.
  intros Hstep j. induction j as [|j' IH].
  - change (inject_Z (Z.of_nat 0)) with 0%Q. lra.
  - specialize (Hstep j').
    rewrite Nat2Z.inj_succ. unfold Z.succ. rewrite inject_Z_plus.
    change (inject_Z 1) with 1%Q. lra.
Qed.

(** X11. The drain loop is a bounded poll. In a run that reaches it, when
    the clock does not go back between line 37 and the first check and each
    later reading is at least [delta] after the one before (the loop sleeps
    between them), the probe returns after at most [N] drain snapshots, for
    every [N] with [grace <= N * delta]; the reading of the [N]-th check is
    a double, as every reading of the clock is, so the rounding of the
    deadline does not delay the end. *)
Theorem drain_is_bounded :
  forall (fuel : nat) (kw : Kwargs) (w : World) (c : MCPTesterClient)
         (proc : Proc) (base : Snapshot) (st1 : RunState)
         (delta : Q) (N : nat),
    prelude kw w (start c) = (Ret (proc, base), st1) ->
    (clock w 0 <= clock w 1)%Q ->
    (forall j, (clock w (S j) + delta <= clock w (S (S j)))%Q) ->
    (grace_of kw <= inject_Z (Z.of_nat N) * delta)%Q ->
    binary64 (drain_clock w N) ->
    (N < fuel)%nat ->
    exists r,
      fst (timeout_tester fuel kw w (start c)) = Ret r
      /\ (List.length
            (snapshots_of (trace (snd (timeout_tester fuel kw w (start c)))))
          <= S N)%nat.
Proof.
  intros fuel kw w c proc base st1 delta N Hpre Hfirst Hstep HN Hdouble Hfuel.
  assert (Hend : (deadline_of w kw <= drain_clock w N)%Q).
  { pose proof (clock_lower_bound w delta Hstep N) as Hlow.
    apply round_binary64_le; [ exact Hdouble | ].
    unfold drain_clock. lra. }
  destruct (first_true
              (fun j => negb (Qltb (drain_clock w j) (deadline_of w kw))) N)
    as (m & Hle & Hm & Hbefore).
  { apply negb_true_iff, Qltb_ge. exact Hend. }
  apply negb_true_iff, Qltb_ge in Hm.
  assert (Hlt : forall j, (j < m)%nat -> (drain_clock w j < deadline_of w kw)%Q).
  { intros j Hj. apply Qltb_lt. specialize (Hbefore j Hj).
    now apply negb_false_iff in Hbefore. }
  rewrite (timeout_tester_drain _ _ _ _ _ _ _ Hpre).
  destruct (bounded_search (fun j => decayed base (drain_snapshot w proc j)) m)
    as [Hnone | (k & Hk & Hpk & Hnot)].
  - rewrite (drain_suspect w proc (deadline_of w kw) base m);
      [ | intros j Hj; apply Hlt, Hj | exact Hm
        | intros j Hj; apply Hnone, Hj | lia ].
    eexists. split; [ reflexivity | ].
    cbn [snd trace].
    rewrite !snapshots_of_app, (prelude_snapshots _ _ _ _ _ _ Hpre),
      snapshots_of_drain_events.
    rewrite !length_app, length_map, length_seq. cbn. lia.
  - rewrite (drain_clean w proc (deadline_of w kw) base k);
      [ | intros j Hj; apply Hlt; lia | exact Hnot | exact Hpk | lia ].
    eexists. split; [ reflexivity | ].
    cbn [snd trace].
    rewrite !snapshots_of_app, (prelude_snapshots _ _ _ _ _ _ Hpre),
      snapshots_of_drain_events.
    rewrite !length_app, length_map, length_seq. cbn. lia.
Qed.

Lemma drain_is_bounded_witness :
  exists r,
    fst (timeout_tester 10 default_kwargs leaky_world (start demo_client)) = Ret r
    /\ (List.length
          (snapshots_of
             (trace (snd (timeout_tester 10 default_kwargs leaky_world
                                         (start demo_client)))))
        <= 6)%nat.
Proof.
  apply (drain_is_bounded
           10 default_kwargs leaky_world demo_client demo_proc demo_base
           (snd (prelude default_kwargs leaky_world (start demo_client)))
           (1 # 1) 5).
  - vm_compute. reflexivity.
  - vm_compute. discriminate.
  - intro j. unfold leaky_world, demo_world, clock. unfold Qle, Qplus. cbn. lia.
  - vm_compute. discriminate.
  - exists 6, 0. split; [ reflexivity | split; [ lia | reflexivity ] ].
  - lia.
Defined.

Lemma prelude_has_session kw w c pb st1 :
  prelude kw w (start c) = (Ret pb, st1) ->
  is_Some (sessions c !! server_id_of kw)
  /\ is_Some (PyDict.get (server_id_of kw) (exit_stacks c)).
Proof.
  intro H. run_in H. repeat case_in H; (split; eexists; reflexivity).
Qed.

(** X12. A run of the probe that returns leaves the session it probed
    registered in [client.sessions], while the exit stack of that session is
    closed and empty; the sessions and the configurations are as before the
    run. *)
Theorem probe_leaves_a_closed_session_registered :
  forall (fuel : nat) (kw : Kwargs) (w : World) (c : MCPTesterClient)
         (r : ProbeResult),
    fst (timeout_tester fuel kw w (start c)) = Ret r ->
    sessions (client (snd (timeout_tester fuel kw w (start c)))) = sessions c
    /\ is_Some (sessions c !! server_id_of kw)
    /\ PyDict.get (server_id_of kw)
         (exit_stacks (client (snd (timeout_tester fuel kw w (start c)))))
       = Some new_exit_stack
    /\ server_params (client (snd (timeout_tester fuel kw w (start c))))
       = server_params c.
Proof.
  intros fuel kw w c r Hr.
  remember (timeout_tester fuel kw w (start c)) as run eqn:Hrun.
  unfold timeout_tester in Hrun. unfold bind at 1 in Hrun.
  destruct (prelude kw w (start c)) as [[[proc base]| |] st1] eqn:E;
    [ | subst run; discriminate Hr .. ].
  destruct (prelude_has_session _ _ _ _ _ E) as (Hsess & [stk Hstk]).
  destruct (prelude_inv _ _ _ _ _ E) as (tool & args & -> & _).
  unfold bind, monotonic in Hrun. cbn [fst snd] in Hrun.
  match type of Hrun with
  | context [drain fuel ?p ?d ?b ?l w ?s] =>
      destruct (drain_appends fuel p d b l w s) as (_ & _ & _ & Hcl & _)
  end.
  subst run. rewrite Hcl. cbn [client]. unfold closed_client. fields.
  split; [ reflexivity | split; [ exact Hsess | split; [ | reflexivity ] ] ].
  rewrite PyDict_get_alter_eq, Hstk. reflexivity.
Qed.

Lemma probe_leaves_a_closed_session_registered_witness :
  is_Some (sessions demo_client !! server_id_of default_kwargs)
  /\ PyDict.get (server_id_of default_kwargs)
       (exit_stacks
          (client (snd (timeout_tester 10 default_kwargs demo_world
                                       (start demo_client)))))
     = Some new_exit_stack.
Proof.
  destruct (probe_leaves_a_closed_session_registered
              10 default_kwargs demo_world demo_client _ demo_run_returns)
    as (_ & Hsess & Hstack & _).
  split; [ exact Hsess | exact Hstack ].
Defined.

(* ===================================================================== *)
(** * Further properties of the process locator *)
(* ===================================================================== *)

Lemma append_cons (a : ascii) (s1 s2 : string) :
  (String a s1 ++ s2)%string = String a (s1 ++ s2)%string.
Proof. reflexivity. Qed.

Lemma append_nil_l (s : string) : (EmptyString ++ s)%string = s.
Proof. reflexivity. Qed.

Lemma append_nil_r (s : string) : (s ++ EmptyString)%string = s.
Proof.
  induction s as [|a s' IH]; [ reflexivity | ].
  now rewrite append_cons, IH.
Qed.

Lemma append_assoc (s1 s2 s3 : string) :
  ((s1 ++ s2) ++ s3)%string = (s1 ++ s2 ++ s3)%string.
Proof.
  induction s1 as [|a s1' IH]; [ reflexivity | ].
  now rewrite !append_cons, IH.
Qed.

Lemma chars_append (s1 s2 : string) : chars (s1 ++ s2) = chars s1 ++ chars s2.
Proof.
  induction s1 as [|a s1' IH]; [ reflexivity | ].
  rewrite append_cons. unfold chars in *. cbn [list_ascii_of_string app].
  now rewrite IH.
Qed.

Lemma contains_empty (hay : string) : contains EmptyString hay = true.
Proof. destruct hay; reflexivity. Qed.

Lemma prefix_chars (needle hay : string) :
  String.prefix needle hay = true ->
  forall c, In c (chars needle) -> In c (chars hay).
Proof.
  revert hay. induction needle as [|a n' IH]; intros hay H c Hc; [ destruct Hc | ].
  destruct hay as [|b h']; cbn [String.prefix] in H; [ discriminate H | ].
  destruct (ascii_dec a b) as [-> | ]; [ | discriminate H ].
  destruct Hc as [<- | Hc]; [ now left | right; exact (IH _ H _ Hc) ].
Qed.

Lemma contains_chars (needle hay : string) :
  contains needle hay = true ->
  forall c, In c (chars needle) -> In c (chars hay).
Proof.
  induction hay as [|b h' IH]; intros H c Hc.
  - cbn [contains] in H. destruct (String.prefix needle EmptyString) eqn:E;
      [ exact (prefix_chars _ _ E _ Hc) | discriminate H ].
  - cbn [contains] in H. destruct (String.prefix needle (String b h')) eqn:E;
      [ exact (prefix_chars _ _ E _ Hc) | ].
    right. exact (IH H _ Hc).
Qed.

Lemma lower_ascii_not_upper (c : ascii) : is_upper (lower_ascii c) = false.
Proof. destruct c as [[] [] [] [] [] [] [] []]; reflexivity. Qed.

Lemma ascii_lower_not_upper (s : string) :
  forall c, In c (chars (ascii_lower s)) -> is_upper c = false.
Proof.
  induction s as [|a s' IH]; intros c Hc; [ destruct Hc | ].
  destruct Hc as [<- | Hc]; [ apply lower_ascii_not_upper | now apply IH ].
Qed.

(** Whatever the Unicode tables are, a lowered text holds none of [A-Z]. *)
Lemma lower_not_upper (w : World) (s : string) :
  forall c, In c (chars (lower w s)) -> is_upper c = false.
Proof. unfold lower. apply ascii_lower_not_upper. Qed.

Lemma first_match_find (w : World) (cmd_stem : string) (l : list Proc) :
  (forall p, matches w cmd_stem p
             = match cmdline p with Some _ => true | None => false end) ->
  first_match w cmd_stem (List.filter is_running l) = List.find readable l.
Proof.
  intro Hm. induction l as [|p l' IH]; [ reflexivity | ].
  cbn [List.filter List.find]. unfold readable at 1.
  destruct (is_running p); cbn [andb first_match]; [ | exact IH ].
  rewrite Hm. destruct (cmdline p); [ reflexivity | exact IH ].
Qed.

(** X13. With the empty stem the locator does not look at the command
    lines: it returns the first running child whose command line can be
    read, and raises only when the scan has none. *)
Theorem empty_stem_takes_the_first_readable_child :
  forall (w : World) (st : RunState),
    fst (find_stdio_child EmptyString w st) =
    match List.find readable (children w (scans st)) with
    | Some p => Ret p
    | None => Raise (RuntimeError "Could not locate stdio server process")
    end.
Proof.
  intros w st.
  unfold find_stdio_child, bind, sleep, emit, scan_children, ask, ret, raise. cbn.
  rewrite (first_match_find w EmptyString (children w (scans st))).
  - destruct (List.find readable (children w (scans st))); reflexivity.
  - intro p. unfold matches. destruct (cmdline p); [ | reflexivity ].
    apply contains_empty.
Qed.

(** X14. The locator lowers the command lines and not the stem: a stem that
    has an uppercase ASCII letter matches no child, and the locator raises
    whatever the process table holds. *)
Theorem uppercase_stem_finds_nothing :
  forall (cmd_stem : string) (w : World) (st : RunState),
    has_upper cmd_stem = true ->
    (forall p, matches w cmd_stem p = false)
    /\ fst (find_stdio_child cmd_stem w st) =
       Raise (RuntimeError "Could not locate stdio server process").
Proof.
  intros cmd_stem w st Hup.
  assert (Hno : forall p, matches w cmd_stem p = false).
  { intro p. unfold matches. destruct (cmdline p) as [cl|]; [ | reflexivity ].
    destruct (contains cmd_stem (lower w (join " " cl))) eqn:E; [ | reflexivity ].
    unfold has_upper in Hup. apply existsb_exists in Hup as (c & Hc & Hupper).
    rewrite (lower_not_upper _ _ c (contains_chars _ _ E c Hc)) in Hupper.
    discriminate Hupper. }
  split; [ exact Hno | ].
  unfold find_stdio_child, bind, sleep, emit, scan_children, ask, ret, raise. cbn.
  destruct (first_match w cmd_stem _) as [p|] eqn:E; [ | reflexivity ].
  destruct (first_match_Some _ _ _ _ E) as (_ & _ & _ & Hp & _).
  rewrite Hno in Hp. discriminate Hp.
Qed.

Lemma uppercase_stem_finds_nothing_witness :
  fst (find_stdio_child "Python3" demo_world (start demo_client)) =
  Raise (RuntimeError "Could not locate stdio server process").
Proof.
  exact (proj2 (uppercase_stem_finds_nothing
                  "Python3" demo_world (start demo_client) eq_refl)).
Defined.

Lemma split_last_from_spec (sep : ascii) (s : string) :
  forall done pre,
    (forall c, In c (chars done) -> c <> sep) ->
    (pre = EmptyString \/ exists pre', pre = (pre' ++ String sep EmptyString)%string) ->
    exists pre2,
      (pre ++ done ++ s)%string
      = (pre2 ++ split_last_from sep s (done ++ s)%string)%string
      /\ (forall c, In c (chars (split_last_from sep s (done ++ s)%string)) ->
                    c <> sep)
      /\ (pre2 = EmptyString
          \/ exists pre', pre2 = (pre' ++ String sep EmptyString)%string).
Proof.
  induction s as [|a s' IH]; intros done pre Hdone Hpre.
  - exists pre. cbn [split_last_from]. rewrite append_nil_r.
    split; [ reflexivity | split; [ exact Hdone | exact Hpre ] ].
  - cbn [split_last_from]. destruct (Ascii.eqb a sep) eqn:E.
    + apply Ascii.eqb_eq in E. subst a.
      destruct (IH EmptyString (pre ++ done ++ String sep EmptyString)%string)
        as (pre2 & Heq & Hno & Hpre2).
      * intros c [].
      * right. exists (pre ++ done)%string. now rewrite append_assoc.
      * exists pre2. rewrite !append_nil_l in Heq, Hno.
        split; [ | split; [ exact Hno | exact Hpre2 ] ].
        rewrite <- Heq, !append_assoc. reflexivity.
    + apply Ascii.eqb_neq in E.
      destruct (IH (done ++ String a EmptyString)%string pre)
        as (pre2 & Heq & Hno & Hpre2).
      * intros c Hc. rewrite chars_append in Hc.
        apply in_app_or in Hc as [Hc | [<- | []]]; [ now apply Hdone | exact E ].
      * exact Hpre.
      * rewrite !append_assoc in Heq, Hno.
        exists pre2. split; [ exact Heq | split; [ exact Hno | exact Hpre2 ] ].
Qed.

(** X15. The stem of line 20, before it is lowered: [split_last sep s] is
    the end of [s] that follows the last separator. It has no separator; what
    comes before it in [s] is empty or ends with a separator. *)
Theorem split_last_is_the_last_component :
  forall (sep : ascii) (s : string),
    exists pre,
      s = (pre ++ split_last sep s)%string
      /\ (forall c, In c (chars (split_last sep s)) -> c <> sep)
      /\ (pre = EmptyString
          \/ exists pre', pre = (pre' ++ String sep EmptyString)%string).
Proof.
  intros sep s.
  destruct (split_last_from_spec sep s EmptyString EmptyString)
    as (pre2 & Heq & Hno & Hpre2).
  - intros c [].
  - now left.
  - exists pre2. rewrite !append_nil_l in Heq, Hno.
    split; [ exact Heq | split; [ exact Hno | exact Hpre2 ] ].
Qed.

(** The stems of some commands: a path, a bare name, a path that ends with
    the separator. *)
Example stems :
  lower demo_world (split_last "/" "/usr/bin/Python3") = "python3"
  /\ lower demo_world (split_last "/" "node") = "node"
  /\ lower demo_world (split_last "/" "/opt/server/") = EmptyString.
Proof. repeat split. Qed.

(** The command line is lowered, the stem is taken as it is: a command line
    written with capitals matches a lowercase stem, also outside ASCII (the
    tables of [demo_world] lower the capitals of Latin-1). *)
Example lowered_command_lines :
  matches demo_world "python3"
          {| pid := 9; is_running := true;
             cmdline := Some ["Python3"; "srv.py"] |} = true
  /\ matches demo_world (small_a_grave ++ "pp")
             {| pid := 9; is_running := true;
                cmdline := Some [("/opt/" ++ capital_a_grave ++ "PP")%string] |}
     = true.
Proof. split; vm_compute; reflexivity. Qed.

(* ===================================================================== *)
(** ** Properties of the judge's parser *)
(* ===================================================================== *)

(** One step of [lstrip]: a text is empty, or starts with a white-space
    character of one, two or three bytes, or is kept as it is. *)
Lemma lstrip_cases s :
  s = EmptyString
  \/ (exists c1 r,
         s = String c1 r /\ is_space c1 = true /\ lstrip s = lstrip r
         /\ forall t, lstrip (s ++ t)%string = lstrip (r ++ t)%string)
  \/ (exists c1 c2 r,
         s = String c1 (String c2 r) /\ is_space c1 = false
         /\ two_byte_space c1 c2 = true /\ lstrip s = lstrip r
         /\ forall t, lstrip (s ++ t)%string = lstrip (r ++ t)%string)
  \/ (exists c1 c2 c3 r,
         s = String c1 (String c2 (String c3 r)) /\ is_space c1 = false
         /\ two_byte_space c1 c2 = false /\ three_byte_space c1 c2 c3 = true
         /\ lstrip s = lstrip r
         /\ forall t, lstrip (s ++ t)%string = lstrip (r ++ t)%string)
  \/ (s <> EmptyString /\ lstrip s = s).
Proof.
  destruct s as [|c1 r1]; [now left|]. right.
  destruct (is_space c1) eqn:E1.
  { left. exists c1, r1. split; [reflexivity|]. split; [assumption|].
    split; [cbn [lstrip]; now rewrite E1|].
    intros t. rewrite append_cons. cbn [lstrip]. now rewrite E1. }
  right. destruct r1 as [|c2 r2].
  { right. right. split; [discriminate|]. cbn [lstrip]. now rewrite E1. }
  destruct (two_byte_space c1 c2) eqn:E2.
  { left. exists c1, c2, r2. split; [reflexivity|]. split; [assumption|].
    split; [assumption|]. split; [cbn [lstrip]; now rewrite E1, E2|].
    intros t. rewrite !append_cons. cbn [lstrip]. now rewrite E1, E2. }
  right. destruct r2 as [|c3 r3].
  { right. split; [discriminate|]. cbn [lstrip]. now rewrite E1, E2. }
  destruct (three_byte_space c1 c2 c3) eqn:E3.
  { left. exists c1, c2, c3, r3. split; [reflexivity|]. split; [assumption|].
    split; [assumption|]. split; [assumption|].
    split; [cbn [lstrip]; now rewrite E1, E2, E3|].
    intros t. rewrite !append_cons. cbn [lstrip]. now rewrite E1, E2, E3. }
  right. split; [discriminate|]. cbn [lstrip]. now rewrite E1, E2, E3.
Qed.

(** White space in front of a text is dropped with it, and holds no colon. *)
Lemma blank_prefix n :
  forall pad, (String.length pad <= n)%nat -> blank pad = true ->
              (forall s, lstrip (pad ++ s)%string = lstrip s)
              /\ free_of ":" pad = true.
Proof.
  induction n as [|n IH]; intros pad Hlen Hb.
  - destruct pad; [|cbn in Hlen; lia].
    split; [intros s; now rewrite append_nil_l|reflexivity].
  - unfold blank in Hb.
    destruct (lstrip_cases pad)
      as [-> | [(c1 & r & -> & E1 & Hl & Happ)
               | [(c1 & c2 & r & -> & E1 & E2 & Hl & Happ)
                 | [(c1 & c2 & c3 & r & -> & E1 & E2 & E3 & Hl & Happ)
                   | [Hne Hl]]]]].
    + split; [intros s; now rewrite append_nil_l|reflexivity].
    + rewrite Hl in Hb.
      destruct (IH r) as [Hs Hf]; [cbn in Hlen; lia | exact Hb |].
      split; [intros s; now rewrite Happ, Hs|].
      cbn [free_of]. rewrite Hf, andb_true_r.
      destruct (Ascii.eqb c1 ":") eqn:E; [|reflexivity].
      apply Ascii.eqb_eq in E. subst c1. discriminate E1.
    + rewrite Hl in Hb.
      destruct (IH r) as [Hs Hf]; [cbn in Hlen; lia | exact Hb |].
      split; [intros s; now rewrite Happ, Hs|].
      cbn [free_of]. rewrite Hf, andb_true_r.
      destruct (Ascii.eqb c1 ":") eqn:Ea;
        [apply Ascii.eqb_eq in Ea; subst c1; discriminate E2|].
      destruct (Ascii.eqb c2 ":") eqn:Eb;
        [apply Ascii.eqb_eq in Eb; subst c2|reflexivity].
      unfold two_byte_space in E2. cbn in E2. now rewrite andb_false_r in E2.
    + rewrite Hl in Hb.
      destruct (IH r) as [Hs Hf]; [cbn in Hlen; lia | exact Hb |].
      split; [intros s; now rewrite Happ, Hs|].
      cbn [free_of]. rewrite Hf, andb_true_r.
      destruct (Ascii.eqb c1 ":") eqn:Ea;
        [apply Ascii.eqb_eq in Ea; subst c1; discriminate E3|].
      destruct (Ascii.eqb c2 ":") eqn:Eb;
        [apply Ascii.eqb_eq in Eb; subst c2; unfold three_byte_space in E3;
         cbn in E3; rewrite ?andb_false_r in E3; cbn in E3;
         rewrite ?andb_false_r in E3; discriminate E3|].
      destruct (Ascii.eqb c3 ":") eqn:Ec;
        [apply Ascii.eqb_eq in Ec; subst c3|reflexivity].
      unfold three_byte_space in E3. cbn in E3.
      rewrite ?andb_false_r in E3. discriminate E3.
    + rewrite Hl in Hb. destruct pad; [now elim Hne | discriminate Hb].
Qed.

Lemma lstrip_blank_app pad s :
  blank pad = true -> lstrip (pad ++ s)%string = lstrip s.
Proof.
  intros H. now apply (proj1 (blank_prefix (String.length pad) pad (le_n _) H)).
Qed.

Lemma blank_free_of_colon pad : blank pad = true -> free_of ":" pad = true.
Proof.
  intros H. exact (proj2 (blank_prefix (String.length pad) pad (le_n _) H)).
Qed.

(** A byte of ASCII that is no white space starts no white-space character. *)
Lemma lstrip_keeps c s : plain c = true -> lstrip (String c s) = String c s.
Proof.
  unfold plain. intros H. apply andb_true_iff in H as [Hlt Hsp].
  apply Nat.ltb_lt in Hlt. apply negb_true_iff in Hsp.
  cbn [lstrip]. rewrite Hsp.
  destruct s as [|c2 [|c3 r]]; [reflexivity| |];
    unfold two_byte_space, three_byte_space; cbn zeta;
    rewrite ?(proj2 (Nat.eqb_neq (nat_of_ascii c) 194)),
            ?(proj2 (Nat.eqb_neq (nat_of_ascii c) 225)),
            ?(proj2 (Nat.eqb_neq (nat_of_ascii c) 226)),
            ?(proj2 (Nat.eqb_neq (nat_of_ascii c) 227)) by lia;
    reflexivity.
Qed.

Lemma rstrip_blank pad : blank pad = true -> rstrip pad = EmptyString.
Proof.
  intros H. destruct pad as [|c pad]; [reflexivity|].
  cbn [rstrip]. now rewrite H.
Qed.

Lemma rstrip_keeps c s :
  plain c = true -> rstrip (String c s) = String c (rstrip s).
Proof.
  intros H. cbn [rstrip]. unfold blank. now rewrite (lstrip_keeps c s H).
Qed.

(** White space after a text of plain bytes is what [rstrip] removes. *)
Lemma rstrip_app_blank s pad :
  all_plain s = true -> blank pad = true -> rstrip (s ++ pad)%string = s.
Proof.
  intros Hs H. induction s as [|c s IH].
  - rewrite append_nil_l. now apply rstrip_blank.
  - cbn [all_plain] in Hs. apply andb_true_iff in Hs as [Hc Hs].
    rewrite append_cons, (rstrip_keeps _ _ Hc), (IH Hs). reflexivity.
Qed.

Lemma split_once_app sep head tail :
  free_of sep head = true ->
  split_once sep (head ++ String sep tail)%string = Some (head, tail).
Proof.
  induction head as [|c head IH]; intros H.
  - rewrite append_nil_l. cbn [split_once]. now rewrite Ascii.eqb_refl.
  - cbn in H. apply andb_true_iff in H as [Hc Hh].
    rewrite append_cons. cbn [split_once].
    apply negb_true_iff in Hc. rewrite Hc, (IH Hh). reflexivity.
Qed.

Lemma split_once_Some sep s head tail :
  split_once sep s = Some (head, tail) ->
  s = (head ++ String sep tail)%string /\ free_of sep head = true.
Proof.
  revert head tail. induction s as [|c s IH]; intros head tail H; [discriminate|].
  cbn [split_once] in H. destruct (Ascii.eqb c sep) eqn:E.
  - apply Ascii.eqb_eq in E. inversion H; subst. now rewrite append_nil_l.
  - destruct (split_once sep s) as [[h t]|]; [|discriminate].
    inversion H; subst. destruct (IH h tail eq_refl) as [-> Hf].
    rewrite append_cons. split; [reflexivity|]. cbn. now rewrite E, Hf.
Qed.

Lemma free_of_app sep s t :
  free_of sep (s ++ t)%string = free_of sep s && free_of sep t.
Proof.
  induction s as [|c s IH].
  - now rewrite append_nil_l.
  - rewrite append_cons. cbn [free_of]. rewrite IH. now rewrite andb_assoc.
Qed.

Lemma risk_level_cases level :
  In level risk_levels -> level = "Strong" \/ level = "Moderate" \/ level = "Low".
Proof. cbn. intuition. Qed.

(** X16. A response of the expected form is read back: for a level among
    "Strong", "Moderate" and "Low", written with any white space of Unicode
    around it ([blank]: spaces, tabs, line ends, no-break spaces, ...), then
    a colon and any text, [parse_judgement] returns that level with the
    text stripped, and logs nothing. The text may hold further colons. *)
Theorem parse_judgement_reads_back level pad1 pad2 expl w st :
  In level risk_levels ->
  blank pad1 = true ->
  blank pad2 = true ->
  parse_judgement (pad1 ++ level ++ pad2 ++ String ":" expl)%string w st
  = (Ret {| risk_level := level; explanation := strip expl |}, st).
Proof.
  intros Hl H1 H2.
  assert (Hfree : free_of ":" (pad1 ++ level ++ pad2)%string = true).
  { rewrite !free_of_app, (blank_free_of_colon _ H1), (blank_free_of_colon _ H2).
    destruct (risk_level_cases _ Hl) as [-> | [-> | ->]]; reflexivity. }
  assert (Hstrip : strip (pad1 ++ level ++ pad2)%string = level).
  { unfold strip. rewrite (lstrip_blank_app _ _ H1).
    destruct (risk_level_cases _ Hl) as [-> | [-> | ->]];
      rewrite append_cons, lstrip_keeps by reflexivity;
      rewrite <- append_cons; now apply rstrip_app_blank. }
  unfold parse_judgement, parse_response.
  replace (pad1 ++ level ++ pad2 ++ String ":" expl)%string
    with ((pad1 ++ level ++ pad2) ++ String ":" expl)%string
    by now rewrite !append_assoc.
  rewrite (split_once_app _ _ _ Hfree). cbn zeta. rewrite Hstrip.
  destruct (risk_level_cases _ Hl) as [-> | [-> | ->]]; reflexivity.
Qed.

Lemma parse_judgement_reads_back_witness :
  parse_judgement " Moderate : some social engineering: no threat " demo_world
                  (start (init None))
  = (Ret {| risk_level := "Moderate";
            explanation := "some social engineering: no threat" |},
     start (init None)).
Proof.
  apply (parse_judgement_reads_back "Moderate" " " " "
           " some social engineering: no threat " demo_world (start (init None)));
    [cbn; tauto | reflexivity | reflexivity].
Defined.

(** White space outside ASCII is stripped as well: the no-break space and
    the ideographic space. The zero-width space U+200B is no white space. *)
Example unicode_white_space_is_stripped :
  parse_judgement (nbsp ++ "Low: ok") demo_world (start (init None))
  = (Ret {| risk_level := "Low"; explanation := "ok" |}, start (init None))
  /\ parse_judgement ("Low: fine" ++ nbsp) demo_world (start (init None))
     = (Ret {| risk_level := "Low"; explanation := "fine" |}, start (init None))
  /\ strip (ideographic_space ++ "x" ++ nbsp ++ " ") = "x"
  /\ strip (String (ascii_of_nat 226)
                   (String (ascii_of_nat 128) (String (ascii_of_nat 139) "x")))
     = String (ascii_of_nat 226)
              (String (ascii_of_nat 128) (String (ascii_of_nat 139) "x")).
Proof. repeat split; vm_compute; reflexivity. Qed.

(** X17. [parse_judgement] never raises and its risk level is one of four.
    A level other than "Unknown" is returned only when the text before the
    first colon is that level up to white space (of Unicode, as
    [str.strip()] has it), the explanation then being the stripped rest, and
    nothing is logged. "Unknown" always comes with the fixed explanation and
    one error line. *)
Theorem parse_judgement_is_closed response w st :
  exists j,
    fst (parse_judgement response w st) = Ret j
    /\ client (snd (parse_judgement response w st)) = client st
    /\ In (risk_level j) ("Unknown" :: risk_levels)
    /\ (risk_level j <> "Unknown" ->
        snd (parse_judgement response w st) = st
        /\ exists head tail,
            response = (head ++ String ":" tail)%string
            /\ free_of ":" head = true
            /\ strip head = risk_level j
            /\ strip tail = explanation j)
    /\ (risk_level j = "Unknown" ->
        j = unknown_judgement
        /\ exists msg,
            trace (snd (parse_judgement response w st))
            = trace st ++ [EvLog ERROR msg]).
Proof.
  unfold parse_judgement, parse_response.
  destruct (split_once ":" response) as [[head tail]|] eqn:Hs.
  - apply split_once_Some in Hs as [-> Hfree]. cbn zeta.
    destruct (existsb (String.eqb (strip head)) risk_levels) eqn:Hin.
    + eexists. split; [reflexivity|]. split; [reflexivity|].
      cbn [risk_level explanation].
      apply existsb_exists in Hin as (l & Hl & Heq).
      apply String.eqb_eq in Heq. rewrite Heq.
      split; [now right|]. split.
      * intros _. split; [reflexivity|]. exists head, tail.
        rewrite Heq. now repeat split.
      * intros Hu. exfalso. destruct (risk_level_cases _ Hl) as [-> | [-> | ->]];
          discriminate Hu.
    + eexists. split; [reflexivity|]. split; [reflexivity|].
      split; [now left|]. split; [intros H; now elim H|].
      intros _. split; [reflexivity|]. eexists. reflexivity.
  - eexists. split; [reflexivity|]. split; [reflexivity|].
    split; [now left|]. split; [intros H; now elim H|].
    intros _. split; [reflexivity|]. eexists. reflexivity.
Qed.

(* ===================================================================== *)
(** ** Properties of the basic suite *)
(* ===================================================================== *)

Lemma after_nil st : after st [] = st.
Proof. destruct st. unfold after. cbn. now rewrite app_nil_r. Qed.

Lemma after_after st evs evs' : after (after st evs) evs' = after st (evs ++ evs').
Proof. unfold after. cbn. now rewrite app_assoc. Qed.

Lemma log_run lvl msg w st : log lvl msg w st = (Ret tt, after st [EvLog lvl msg]).
Proof. reflexivity. Qed.

Lemma only_logs_ret {A} (a : A) : only_logs (ret a).
Proof. intros w st. exists []. cbn. now rewrite after_nil. Qed.

Lemma only_logs_raise {A} e : only_logs (@raise A e).
Proof. intros w st. exists []. cbn. now rewrite after_nil. Qed.

Lemma only_logs_log lvl msg : only_logs (log lvl msg).
Proof. intros w st. now exists [EvLog lvl msg]. Qed.

Lemma only_logs_get_client : only_logs get_client.
Proof. intros w st. exists []. cbn. now rewrite after_nil. Qed.

Lemma only_logs_bind {A B} (m : M A) (k : A -> M B) :
  only_logs m -> (forall a, only_logs (k a)) -> only_logs (bind m k).
Proof.
  intros Hm Hk w st. unfold bind. destruct (Hm w st) as (evs & Hevs & Hl & Hd).
  destruct (m w st) as [[a|e|] st']; cbn in Hevs, Hd; subst st'.
  - destruct (Hk a w (after st evs)) as (evs' & Hevs' & Hl' & Hd').
    exists (evs ++ evs'). rewrite Hevs', after_after, forallb_app, Hl, Hl'.
    now repeat split.
  - now exists evs.
  - now elim Hd.
Qed.

Lemma only_logs_try_except {A} (m : M A) catches handler :
  only_logs m -> (forall e, only_logs (handler e)) ->
  only_logs (try_except m catches handler).
Proof.
  intros Hm Hh w st. unfold try_except. destruct (Hm w st) as (evs & Hevs & Hl & Hd).
  destruct (m w st) as [[a|e|] st']; cbn in Hevs, Hd; subst st'.
  - now exists evs.
  - destruct (catches e); [|now exists evs].
    destruct (Hh e w (after st evs)) as (evs' & Hevs' & Hl' & Hd').
    exists (evs ++ evs'). rewrite Hevs', after_after, forallb_app, Hl, Hl'.
    now repeat split.
  - now elim Hd.
Qed.

Lemma only_logs_returned {A} (r : PyExc + A) : only_logs (returned r).
Proof. destruct r; [apply only_logs_raise | apply only_logs_ret]. Qed.

Lemma only_logs_may_raise o : only_logs (may_raise o).
Proof. destruct o; [apply only_logs_raise | apply only_logs_ret]. Qed.

Lemma only_logs_subscript {A} key (o : option A) : only_logs (subscript key o).
Proof. destruct o; [apply only_logs_ret | apply only_logs_raise]. Qed.

Lemma only_logs_parse_judgement response : only_logs (parse_judgement response).
Proof.
  unfold parse_judgement. destruct (parse_response response).
  - apply only_logs_bind; [apply only_logs_log | intros; apply only_logs_ret].
  - apply only_logs_ret.
Qed.

Lemma only_logs_log_risk t j : only_logs (log_risk t j).
Proof.
  unfold log_risk.
  repeat match goal with
         | |- only_logs (if ?b then _ else _) => destruct b
         end; try apply only_logs_log; apply only_logs_ret.
Qed.

Lemma only_logs_judge_tool jw id i t : only_logs (judge_tool jw id i t).
Proof.
  unfold judge_tool.
  apply only_logs_bind; [apply only_logs_log | intros _].
  apply only_logs_bind;
    [destruct (no_description t); [apply only_logs_log | apply only_logs_ret]
    | intros _].
  apply only_logs_bind; [apply only_logs_returned | intros response].
  apply only_logs_bind; [apply only_logs_parse_judgement | intros j].
  apply only_logs_bind; [apply only_logs_log | intros _].
  apply only_logs_log_risk.
Qed.

Lemma only_logs_judge_tools jw id tools : forall i, only_logs (judge_tools jw id i tools).
Proof.
  induction tools as [|t rest IH]; intros i; cbn [judge_tools].
  - apply only_logs_ret.
  - apply only_logs_bind; [apply only_logs_judge_tool | intros _; apply IH].
Qed.

Lemma only_logs_scan_server jw id : only_logs (scan_server jw id).
Proof.
  unfold scan_server.
  apply only_logs_bind; [apply only_logs_log | intros _].
  apply only_logs_bind; [apply only_logs_get_client | intros c].
  apply only_logs_bind; [apply only_logs_subscript | intros s].
  apply only_logs_bind; [apply only_logs_returned | intros tools].
  apply only_logs_judge_tools.
Qed.

Lemma only_logs_scan_servers jw ids : only_logs (scan_servers jw ids).
Proof.
  induction ids as [|id rest IH]; cbn [scan_servers].
  - apply only_logs_ret.
  - apply only_logs_bind; [apply only_logs_scan_server | intros _; apply IH].
Qed.

Lemma only_logs_tool_description_pinjection jw :
  only_logs (tool_description_pinjection jw).
Proof.
  unfold tool_description_pinjection.
  apply only_logs_bind; [apply only_logs_log | intros _].
  apply only_logs_bind; [apply only_logs_may_raise | intros _].
  apply only_logs_bind; [apply only_logs_log | intros _].
  apply only_logs_scan_servers.
Qed.

Lemma only_logs_log_servers ids : only_logs (log_servers ids).
Proof.
  induction ids as [|id rest IH]; cbn [log_servers].
  - apply only_logs_ret.
  - apply only_logs_bind; [apply only_logs_log | intros _; apply IH].
Qed.

Lemma only_logs_tool_response_pinjection jw :
  only_logs (tool_response_pinjection jw).
Proof.
  unfold tool_response_pinjection.
  apply only_logs_bind; [apply only_logs_log | intros _].
  apply only_logs_bind; [apply only_logs_log_servers | intros _].
  apply only_logs_raise.
Qed.

Lemma only_logs_client {A} (m : M A) w st :
  only_logs m -> client (snd (m w st)) = client st.
Proof. intros H. destruct (H w st) as (evs & -> & _). reflexivity. Qed.

(** ** A scan in which nothing raises *)

Lemma parse_judgement_run response w st :
  parse_judgement response w st
  = (Ret (judgement_of response), after st (parse_events response)).
Proof.
  unfold parse_judgement, judgement_of, parse_events.
  destruct (parse_response response); [reflexivity|].
  cbn. now rewrite after_nil.
Qed.

Lemma log_risk_run t j w st :
  log_risk t j w st = (Ret tt, after st (risk_events t j)).
Proof.
  unfold log_risk, risk_events.
  repeat match goal with
         | |- (if ?b then _ else _) _ _ = _ => destruct b
         end; try reflexivity.
  cbn. now rewrite after_nil.
Qed.

Lemma judge_tool_run jw id i t response w st :
  judge jw id i = inr response ->
  judge_tool jw id i t w st = (Ret tt, after st (tool_events t response)).
Proof.
  intros Hj. unfold judge_tool, tool_events, bind at 1.
  rewrite log_run. unfold bind at 1.
  destruct (no_description t).
  - rewrite log_run, after_after. unfold bind at 1. rewrite Hj. cbn [returned ret].
    unfold bind at 1. rewrite parse_judgement_run, after_after. unfold bind at 1.
    rewrite log_run, after_after, log_risk_run, after_after.
    do 2 f_equal. cbn. now rewrite <- !app_assoc.
  - cbn [ret]. unfold bind at 1. rewrite Hj. cbn [returned ret].
    unfold bind at 1. rewrite parse_judgement_run, after_after. unfold bind at 1.
    rewrite log_run, after_after, log_risk_run, after_after.
    do 2 f_equal. cbn. now rewrite <- !app_assoc.
Qed.

Lemma judge_tools_run jw id answers tools w :
  forall i st,
    (forall k, (k < length tools)%nat -> judge jw id (i + k) = inr (answers (i + k)%nat)) ->
    judge_tools jw id i tools w st
    = (Ret tt, after st (tools_events answers i tools)).
Proof.
  induction tools as [|t rest IH]; intros i st Hj.
  - cbn. now rewrite after_nil.
  - cbn [judge_tools tools_events]. unfold bind.
    rewrite (judge_tool_run jw id i t (answers i)).
    + rewrite IH, after_after; [reflexivity|].
      intros k Hk. replace (S i + k)%nat with (i + S k)%nat by lia.
      apply Hj. cbn. lia.
    + specialize (Hj 0%nat). rewrite Nat.add_0_r in Hj. apply Hj. cbn. lia.
Qed.

Lemma scan_servers_run jw tools answers w ids :
  forall st,
    (forall id, In id ids ->
                is_Some (sessions (client st) !! id)
                /\ list_tools jw id = inr (tools id)
                /\ forall i, (i < length (tools id))%nat ->
                             judge jw id i = inr (answers id i)) ->
    scan_servers jw ids w st
    = (Ret tt, after st (flat_map (server_events tools answers) ids)).
Proof.
  induction ids as [|id rest IH]; intros st H.
  - cbn. now rewrite after_nil.
  - destruct (H id (or_introl eq_refl)) as ([s Hs] & Hl & Hj).
    cbn [scan_servers flat_map]. unfold bind at 1, scan_server, bind at 1.
    rewrite log_run. unfold bind at 1, get_client. unfold bind at 1.
    cbn [after client]. rewrite Hs. cbn [subscript ret]. unfold bind at 1.
    rewrite Hl. cbn [returned ret].
    rewrite (judge_tools_run jw id (answers id)) by (intros k Hk; now apply Hj).
    rewrite after_after, IH.
    + rewrite after_after. reflexivity.
    + intros id' Hin. cbn [after client]. apply H. now right.
Qed.

Lemma evaluated_app tr tr' : evaluated (tr ++ tr') = evaluated tr ++ evaluated tr'.
Proof. apply flat_map_app. Qed.

Lemma strip_prefix_app p s : strip_prefix p (p ++ s)%string = Some s.
Proof.
  induction p as [|a p IH]; [reflexivity|].
  rewrite append_cons. cbn [strip_prefix]. now rewrite Ascii.eqb_refl.
Qed.

Lemma evaluated_tool_events t response :
  evaluated (tool_events t response) = [tool_name t].
Proof.
  unfold tool_events, evaluated. cbn [flat_map evaluated_in].
  rewrite strip_prefix_app. cbn [app]. f_equal.
  rewrite !flat_map_app. cbn [flat_map evaluated_in].
  replace (flat_map evaluated_in
             (if no_description t
              then [EvLog WARNING ("Tool " ++ tool_name t ++ " has no description")]
              else [])) with (@nil string) by (now destruct (no_description t)).
  replace (flat_map evaluated_in (parse_events response)) with (@nil string)
    by (unfold parse_events; now destruct (parse_response response)).
  replace (flat_map evaluated_in (risk_events t (judgement_of response)))
    with (@nil string).
  - reflexivity.
  - unfold risk_events.
    repeat match goal with
           | |- _ = flat_map _ (if ?b then _ else _) => destruct b
           end; reflexivity.
Qed.

Lemma evaluated_tools_events answers tools :
  forall i, evaluated (tools_events answers i tools) = map tool_name tools.
Proof.
  induction tools as [|t rest IH]; intros i; [reflexivity|].
  cbn [tools_events map]. now rewrite evaluated_app, evaluated_tool_events, IH.
Qed.

Lemma evaluated_server_events tools answers ids :
  evaluated (flat_map (server_events tools answers) ids)
  = flat_map (fun id => map tool_name (tools id)) ids.
Proof.
  induction ids as [|id rest IH]; [reflexivity|].
  cbn [flat_map]. rewrite evaluated_app, IH. f_equal.
  unfold server_events.
  change (evaluated (?e :: ?l)) with (evaluated_in e ++ evaluated l).
  now rewrite evaluated_tools_events.
Qed.

(** X18. When the model loads, every registered server has a session and
    neither [list_tools] nor the judge raises, the scan returns, leaves the
    client as it was, and evaluates every tool of every server once, in the
    order of the servers and of their tool lists: tools without a
    description and tools whose verdict cannot be parsed included. *)
Theorem scan_evaluates_every_tool_once jw tools answers w st :
  lists_the_servers jw (client st) ->
  load_model jw = None ->
  (forall id, In id (server_ids jw) ->
              is_Some (sessions (client st) !! id)
              /\ list_tools jw id = inr (tools id)
              /\ forall i, (i < length (tools id))%nat ->
                           judge jw id i = inr (answers id i)) ->
  fst (tool_description_pinjection jw w st) = Ret tt
  /\ client (snd (tool_description_pinjection jw w st)) = client st
  /\ evaluated (trace (snd (tool_description_pinjection jw w st)))
     = evaluated (trace st)
       ++ flat_map (fun id => map tool_name (tools id)) (server_ids jw).
Proof.
  intros _ Hload H.
  split; [|split; [apply only_logs_client, only_logs_tool_description_pinjection|]];
    unfold tool_description_pinjection, bind; rewrite log_run, Hload; cbn [may_raise ret];
    rewrite log_run, after_after;
    rewrite (scan_servers_run jw tools answers) by exact H;
    [reflexivity|].
  cbn [snd after trace]. rewrite !evaluated_app, evaluated_server_events.
  rewrite <- !app_assoc. f_equal.
Qed.

Lemma scan_servers_missing_session jw w ids id :
  In id ids ->
  forall st, sessions (client st) !! id = None ->
             exists e, fst (scan_servers jw ids w st) = Raise e.
Proof.
  induction ids as [|id' rest IH]; intros Hin st Hs; [destruct Hin|].
  cbn [scan_servers]. unfold bind at 1.
  pose proof (only_logs_client (scan_server jw id') w st (only_logs_scan_server jw id'))
    as Hc.
  destruct (String.eqb id' id) eqn:E.
  - apply String.eqb_eq in E. subst id'.
    unfold scan_server, bind at 1. rewrite log_run. unfold bind at 1, get_client.
    unfold bind at 1. cbn [after client]. rewrite Hs. cbn. eexists. reflexivity.
  - apply String.eqb_neq in E. destruct Hin as [-> | Hin]; [now elim E|].
    destruct (scan_server jw id' w st) as [[[]|e|] st'] eqn:Hrun; cbn [snd] in Hc.
    + apply IH; [exact Hin | now rewrite Hc].
    + eexists. reflexivity.
    + destruct (only_logs_scan_server jw id' w st) as (evs & _ & _ & Hd).
      rewrite Hrun in Hd. now elim Hd.
Qed.

Lemma lists_the_only_server jw c id cfg :
  server_ids jw = [id] ->
  server_params c = <[id := cfg]> ∅ ->
  lists_the_servers jw c.
Proof.
  intros Hids Hparams. unfold lists_the_servers. rewrite Hids, Hparams.
  split; [repeat constructor; intros []|].
  intros id'. split.
  - intros [<- | []]. rewrite lookup_insert_eq. eauto.
  - intros H. destruct (decide (id' = id)) as [->|Hne]; [now left|].
    rewrite lookup_insert_ne, lookup_empty in H by congruence.
    destruct H; discriminate.
Qed.

Lemma scan_evaluates_every_tool_once_witness :
  fst (tool_description_pinjection demo_judge_world demo_world (start scanned_client))
  = Ret tt
  /\ evaluated (trace (snd (tool_description_pinjection demo_judge_world demo_world
                                                        (start scanned_client))))
     = ["echo"; "shell"].
Proof.
  destruct (scan_evaluates_every_tool_once
              demo_judge_world (fun _ => demo_tools) (fun _ => demo_answers)
              demo_world (start scanned_client))
    as (Hret & _ & Hev).
  - apply (lists_the_only_server _ _ "1" demo_config); reflexivity.
  - reflexivity.
  - intros id [<- | []]. split; [|split; [reflexivity|intros; reflexivity]].
    cbn. rewrite lookup_insert_eq. eauto.
  - split; [exact Hret | exact Hev].
Defined.

(** X19. A registered server without a session stops the scan: if some id
    of [server_params] has no entry in [sessions] (as after a handshake that
    timed out), [tool_description_pinjection] raises, whatever the other
    servers answer. The client is left as it was. *)
Theorem scan_needs_every_session jw w st id :
  lists_the_servers jw (client st) ->
  is_Some (server_params (client st) !! id) ->
  sessions (client st) !! id = None ->
  (exists e, fst (tool_description_pinjection jw w st) = Raise e)
  /\ client (snd (tool_description_pinjection jw w st)) = client st.
Proof.
  intros [_ Hlist] Hreg Hs.
  split; [|apply only_logs_client, only_logs_tool_description_pinjection].
  apply Hlist in Hreg.
  unfold tool_description_pinjection, bind. rewrite log_run.
  destruct (load_model jw) as [e|]; cbn [may_raise raise ret]; [eexists; reflexivity|].
  rewrite log_run.
  apply (scan_servers_missing_session jw w _ id Hreg). exact Hs.
Qed.

Lemma scan_needs_every_session_witness :
  exists e,
    fst (tool_description_pinjection demo_judge_world demo_world
                                     (start registered_client)) = Raise e.
Proof.
  destruct (scan_needs_every_session demo_judge_world demo_world
                                     (start registered_client) "1")
    as (He & _).
  - apply (lists_the_only_server _ _ "1" demo_config); reflexivity.
  - cbn. rewrite lookup_insert_eq. eauto.
  - reflexivity.
  - exact He.
Defined.

(* ===================================================================== *)
(** ** Properties of the runner *)
(* ===================================================================== *)

Lemma log_servers_run ids w :
  forall st,
    log_servers ids w st
    = (Ret tt, after st (map (fun id => EvLog INFO ("Testing server " ++ id)) ids)).
Proof.
  induction ids as [|id rest IH]; intros st.
  - cbn. now rewrite after_nil.
  - cbn [log_servers map]. unfold bind. rewrite log_run, IH, after_after.
    reflexivity.
Qed.

Lemma tool_response_pinjection_raises jw w st :
  fst (tool_response_pinjection jw w st) = Raise (OtherException "NotImplementedError").
Proof.
  unfold tool_response_pinjection, bind. rewrite log_run, log_servers_run.
  reflexivity.
Qed.

Lemma given_Some t : t <> EmptyString -> given (Some t) = Some t.
Proof.
  intros H. unfold given. destruct (String.eqb t EmptyString) eqn:E; [|reflexivity].
  apply String.eqb_eq in E. contradiction.
Qed.

(** X20. Running a whole suite never completes: with no test named,
    [run_tests] on the registries of basic.py and advanced.py, if it returns
    at all, ends in [sys.exit(1)]. The last test of the basic suite raises
    [NotImplementedError], the last of the advanced suite is called with a
    keyword it does not take, and an unknown suite has no [items]. *)
Theorem whole_suite_never_completes jw fuel server_id suite test w st x :
  given test = None ->
  fst (run_tests (TEST_REGISTRY jw fuel) server_id suite test w st) = Ret x ->
  x = SysExit 1.
Proof.
  intros Hg H. unfold run_tests, try_except in H. rewrite Hg in H.
  unfold bind at 1 in H. rewrite log_run in H.
  match type of H with
  | fst (match ?m with (r, s) => _ end) = _ => destruct m as [r s] eqn:Hm
  end.
  assert (Hr : forall a, r = Ret a -> a = SysExit 1).
  { intros a ->. exfalso. revert Hm. unfold TEST_REGISTRY. cbn [PyDict.get].
    destruct (String.eqb suite "basic").
    - cbn [BASIC_TEST_REGISTRY run_all]. unfold bind.
      destruct (tool_description_pinjection jw w _) as [[[]|e|] st1];
        try discriminate.
      pose proof (tool_response_pinjection_raises jw w st1) as Hraise.
      destruct (tool_response_pinjection jw w st1) as [r1 st2].
      cbn in Hraise. subst r1. discriminate.
    - destruct (String.eqb suite "advanced").
      + cbn [ADVANCED_TOOL_REGISTRY run_all]. unfold bind.
        destruct (timeout_tester fuel _ w _) as [[pr|e|] st1]; cbn; discriminate.
      + cbn. discriminate. }
  destruct r as [a|e|]; cbn in H.
  - inversion H; subst. now apply Hr.
  - destruct (is_Exception e); cbn in H; [now inversion H | discriminate].
  - discriminate.
Qed.

Lemma whole_suite_never_completes_witness :
  exists x,
    fst (run_tests (TEST_REGISTRY demo_judge_world 5) "1" "basic" None
                   demo_world (start scanned_client)) = Ret x
    /\ x = SysExit 1.
Proof.
  assert (H : fst (run_tests (TEST_REGISTRY demo_judge_world 5) "1" "basic" None
                             demo_world (start scanned_client))
              = Ret (SysExit 1)) by (vm_compute; reflexivity).
  exists (SysExit 1). split; [exact H|].
  exact (whole_suite_never_completes demo_judge_world 5 "1" "basic" None
           demo_world (start scanned_client) (SysExit 1) eq_refl H).
Defined.

(** X21. A test name that the suite does not have, or a suite that the
    registry does not have, runs nothing: [run_tests] ends in [sys.exit(1)]
    with one error line and the client as it was. *)
Theorem unknown_test_runs_nothing registry server_id suite t w st :
  t <> EmptyString ->
  (PyDict.get suite registry = None
   \/ exists reg, PyDict.get suite registry = Some reg /\ PyDict.get t reg = None) ->
  exists msg,
    run_tests registry server_id suite (Some t) w st
    = (Ret (SysExit 1), after st [EvLog ERROR msg]).
Proof.
  intros Ht H. unfold run_tests, try_except. rewrite (given_Some _ Ht).
  destruct H as [Hs | (reg & Hs & Hreg)]; rewrite Hs.
  - eexists. reflexivity.
  - rewrite Hreg. eexists. reflexivity.
Qed.

Lemma unknown_test_runs_nothing_witness :
  exists msg,
    run_tests (TEST_REGISTRY demo_judge_world 5) "1" "advanced" (Some "leak_tester")
              demo_world (start demo_client)
    = (Ret (SysExit 1), after (start demo_client) [EvLog ERROR msg]).
Proof.
  apply unknown_test_runs_nothing; [discriminate|].
  right. eexists. split; reflexivity.
Defined.

(** X22. The runner drops the verdict of the probe and never passes
    [grace]: when [timeout_tester], called with the server id alone, returns
    a result, [run_tests] returns normally in the state the probe left,
    whatever the result says. *)
Theorem probe_verdict_is_dropped registry fuel server_id suite w st r st' :
  PyDict.get suite registry = Some (ADVANCED_TOOL_REGISTRY fuel) ->
  timeout_tester fuel {| kw_grace := None; kw_server_id := Some server_id |} w
    (after st [EvLog INFO ("Running specific test 'timeout_tester' from suite '"
                             ++ suite ++ "'")])
  = (Ret r, st') ->
  run_tests registry server_id suite (Some "timeout_tester") w st
  = (Ret (Done tt), st').
Proof.
  intros Hs Hrun. unfold run_tests, try_except. cbn [given String.eqb Ascii.eqb].
  rewrite Hs. cbn [ADVANCED_TOOL_REGISTRY PyDict.get].
  change (String.eqb "timeout_tester" "timeout_tester") with true. cbn iota.
  unfold bind at 1. rewrite log_run. unfold bind. cbv beta.
  match goal with
  | |- context [timeout_tester ?f ?k ?w0 ?s] =>
      replace (timeout_tester f k w0 s) with (Ret r, st')
        by (symmetry; exact Hrun)
  end.
  reflexivity.
Qed.

Lemma probe_verdict_is_dropped_witness :
  fst (run_tests (TEST_REGISTRY demo_judge_world 10) "1" "advanced"
                 (Some "timeout_tester") demo_world (start demo_client))
  = Ret (Done tt).
Proof.
  pose (kw := {| kw_grace := None; kw_server_id := Some "1" |}).
  pose (s0 := after (start demo_client)
                    [EvLog INFO ("Running specific test 'timeout_tester' from suite '"
                                   ++ "advanced" ++ "'")]).
  assert (Hfst : fst (timeout_tester 10 kw demo_world s0)
                 = Ret {| status := Clean; baseline := demo_base;
                          final := Some demo_base |})
    by (vm_compute; reflexivity).
  rewrite (probe_verdict_is_dropped
             (TEST_REGISTRY demo_judge_world 10) 10 "1" "advanced" demo_world
             (start demo_client)
             {| status := Clean; baseline := demo_base; final := Some demo_base |}
             (snd (timeout_tester 10 kw demo_world s0)) eq_refl).
  - reflexivity.
  - rewrite <- Hfst. apply surjective_pairing.
Defined.

(* ===================================================================== *)
(** ** Properties of the command line *)
(* ===================================================================== *)

Ltac cli_run :=
  cbv beta iota zeta delta
      [bind ret raise returned getattr subscript may_raise ask emit log
       get_client put_client try_except await_aclose add_server
       enter_async_context unawaited_aclose await_initialize read_timeout_seconds handshake
       connect_server_stdio
       connect_server_streamable_https];
  cbn [client clock_reads scans probes trace snd fst].

Lemma logs_are_cli_events evs :
  forallb is_log evs = true -> forallb is_cli_event evs = true.
Proof.
  induction evs as [|e evs IH]; [reflexivity|].
  cbn. intros H. apply andb_true_iff in H as [He Hevs].
  rewrite (IH Hevs), andb_true_r. now destruct e.
Qed.

Lemma cli_events_no_snapshot evs :
  forallb is_cli_event evs = true -> snapshots_of evs = [].
Proof.
  induction evs as [|e evs IH]; [reflexivity|].
  cbn. intros H. apply andb_true_iff in H as [He Hevs].
  unfold snapshots_of in *. cbn. rewrite (IH Hevs). now destruct e.
Qed.

Lemma logs_no_close evs : forallb is_log evs = true -> closes_of evs = [].
Proof.
  induction evs as [|e evs IH]; [reflexivity|].
  cbn. intros H. apply andb_true_iff in H as [He Hevs].
  unfold closes_of in *. cbn. rewrite (IH Hevs). now destruct e.
Qed.

Lemma stdio_parameters_is_Exception a e :
  stdio_parameters a = inl e -> is_Exception e = true.
Proof.
  unfold stdio_parameters, pairs_or_None.
  destruct (a_env a) as [[|x rest]|]; try destruct (dict_of _ _);
    destruct (a_cmd a); intros H; inversion H; reflexivity.
Qed.

Lemma pairs_or_None_is_Exception items e :
  pairs_or_None items = inl e -> is_Exception e = true.
Proof.
  unfold pairs_or_None.
  destruct items as [[|x rest]|]; try destruct (dict_of _ _);
    intros H; inversion H; reflexivity.
Qed.

(** The first [try] of [main]: what it adds to the trace, and the client it
    leaves when it does not raise. *)
Lemma create_and_connect_run a w st :
  exists evs,
    trace (snd (create_and_connect a w st)) = trace st ++ evs
    /\ forallb is_cli_event evs = true
    /\ closes_of evs = []
    /\ fst (create_and_connect a w st) <> Diverge
    /\ (fst (create_and_connect a w st) = Ret tt ->
        transport_name (client (snd (create_and_connect a w st))) = None
        /\ PyDict.keys (exit_stacks (client (snd (create_and_connect a w st))))
           = [a_server_id a]
        /\ a_transport a = "stdio").
Proof.
  unfold create_and_connect.
  destruct (String.eqb (a_transport a) "stdio") eqn:Es;
    [apply String.eqb_eq in Es
    |destruct (String.eqb (a_transport a) "http") eqn:Eh;
     [apply String.eqb_eq in Eh|]].
  - destruct (stdio_parameters a) as [e|p] eqn:Hp; cli_run;
      [|destruct (enter_transport w (a_server_id a)); cli_run;
        [|destruct (enter_session w (a_server_id a)); cli_run;
          [|destruct (initialize w (a_server_id a)) as [e|]; cli_run;
            [destruct (is_TimeoutError e); cli_run|]]]];
      (eexists; split; [first [rewrite <- ?app_assoc; reflexivity | symmetry; apply app_nil_r]|];
       split; [reflexivity|]; split; [reflexivity|]; split; [discriminate|];
       intros H;
       first [discriminate H
             |split; [reflexivity|]; split; [|exact Es];
              cbn [exit_stacks set_exit_stacks set_sessions set_streams
                   set_server_params init];
              rewrite ?PyDict_keys_alter; reflexivity]).
  - destruct (pairs_or_None (a_header a)) as [e|p] eqn:Hp; cli_run;
      [|destruct (enter_transport w (a_server_id a)); cli_run;
        [|destruct (enter_session w (a_server_id a)); cli_run;
          cbn [is_TimeoutError]]];
      (eexists; split; [first [rewrite <- ?app_assoc; reflexivity | symmetry; apply app_nil_r]|];
       split; [reflexivity|]; split; [reflexivity|]; split; [discriminate|];
       intros H; discriminate H).
  - cli_run. exists []. rewrite app_nil_r.
    split; [reflexivity|]. split; [reflexivity|]. split; [reflexivity|].
    split; discriminate.
Qed.

Lemma timeout_tester_without_attribute fuel kw w st :
  transport_name (client st) = None ->
  timeout_tester fuel kw w st = (Raise (AttributeError "transport_name"), st).
Proof.
  intros H. unfold timeout_tester, prelude, baseline_and_cancel, bind, get_client.
  rewrite H. reflexivity.
Qed.

Lemma given_inv test t : given test = Some t -> test = Some t.
Proof.
  unfold given. destruct test as [t'|]; [|discriminate].
  destruct (String.eqb t' EmptyString); [discriminate|]. now intros H.
Qed.

(** What [except Exception] of [run_tests] makes of the outcome of a test
    that only logs. *)
Lemma run_tests_handler (r : result (Exit unit)) (st : RunState) evs w :
  forallb is_log evs = true ->
  r <> Diverge ->
  exists x evs',
    match r with
    | Raise e =>
        if is_Exception e
        then (log ERROR "Error running tests" ;; ret (SysExit 1)) w (after st evs)
        else (Raise e, after st evs)
    | other => (other, after st evs)
    end = (x, after st evs')
    /\ forallb is_log evs' = true
    /\ x <> Diverge
    /\ (forall e, x = Raise e -> is_Exception e = false)
    /\ (x = Ret (Done tt) -> r = Ret (Done tt))
    /\ (forall ex, x = Ret ex -> ex = SysExit 1 \/ r = Ret ex).
Proof.
  intros Hl Hd. destruct r as [a|e|]; [| |now elim Hd].
  - exists (Ret a), evs.
    split; [reflexivity|]. split; [assumption|]. split; [discriminate|].
    split; [discriminate|]. split; [now intros H|]. intros ex H. now right.
  - destruct (is_Exception e) eqn:He.
    + exists (Ret (SysExit 1)), (evs ++ [EvLog ERROR "Error running tests"]).
      unfold bind. rewrite log_run, after_after, forallb_app, Hl.
      split; [reflexivity|]. split; [reflexivity|]. split; [discriminate|].
      split; [discriminate|]. split; [discriminate|].
      intros ex [= <-]. now left.
    + exists (Raise e), evs.
      split; [reflexivity|]. split; [assumption|]. split; [discriminate|].
      split; [now intros e' [= <-]|]. split; discriminate.
Qed.

(** [run_tests] on the client that [main] builds: the probe stops at its
    first line, since nothing sets [transport_name]. *)
Lemma run_tests_from_cli jw fuel server_id suite test w st :
  transport_name (client st) = None ->
  exists x evs,
    run_tests (TEST_REGISTRY jw fuel) server_id suite test w st = (x, after st evs)
    /\ forallb is_log evs = true
    /\ x <> Diverge
    /\ (forall e, x = Raise e -> is_Exception e = false)
    /\ (x = Ret (Done tt) ->
        suite = "basic" /\ test = Some "tool_description_pinjection")
    /\ (forall ex, x = Ret ex -> ex = Done tt \/ ex = SysExit 1).
Proof.
  intros Htn. unfold run_tests, try_except.
  set (kw := {| kw_grace := None; kw_server_id := Some server_id |}).
  assert (Hstep : forall (r : result (Exit unit)) evs,
             forallb is_log evs = true -> r <> Diverge ->
             (r = Ret (Done tt) ->
              suite = "basic" /\ test = Some "tool_description_pinjection") ->
             (forall ex, r = Ret ex -> ex = Done tt) ->
             exists x evs',
               match r with
               | Raise e =>
                   if is_Exception e
                   then (log ERROR "Error running tests" ;; ret (SysExit 1))
                          w (after st evs)
                   else (Raise e, after st evs)
               | other => (other, after st evs)
               end = (x, after st evs')
               /\ forallb is_log evs' = true
               /\ x <> Diverge
               /\ (forall e, x = Raise e -> is_Exception e = false)
               /\ (x = Ret (Done tt) ->
                   suite = "basic" /\ test = Some "tool_description_pinjection")
               /\ (forall ex, x = Ret ex -> ex = Done tt \/ ex = SysExit 1)).
  { intros r evs Hl Hd Hdone Hret.
    destruct (run_tests_handler r st evs w Hl Hd)
      as (x & evs' & H1 & H2 & H3 & H4 & H5 & H6).
    exists x, evs'.
    split; [assumption|]. split; [assumption|]. split; [assumption|].
    split; [assumption|]. split; [intros Hx; now apply Hdone, H5|].
    intros ex Hx. destruct (H6 ex Hx) as [-> | Hr]; [now right|].
    left. now apply Hret. }
  destruct (given test) as [t|] eqn:Hg.
  - apply given_inv in Hg. subst test.
    unfold TEST_REGISTRY. cbn [PyDict.get].
    destruct (String.eqb suite "basic") eqn:Eb;
      [|destruct (String.eqb suite "advanced") eqn:Ea].
    + apply String.eqb_eq in Eb.
      cbn [BASIC_TEST_REGISTRY PyDict.get].
      destruct (String.eqb t "tool_description_pinjection") eqn:E1;
        [|destruct (String.eqb t "tool_response_pinjection") eqn:E2].
      * apply String.eqb_eq in E1. subst t.
        unfold bind at 1. rewrite log_run. unfold bind at 1.
        match goal with
        | |- context [tool_description_pinjection jw w ?s] =>
            destruct (only_logs_tool_description_pinjection jw w s)
              as (evs & Hs & Hl & Hd);
            destruct (tool_description_pinjection jw w s) as [r s'];
            cbn [fst snd] in Hs, Hd; subst s'
        end.
        rewrite after_after.
        destruct r as [[]|e|]; [| |now elim Hd]; cbn [ret].
        -- apply (Hstep (Ret (Done tt))); [|discriminate|now split|now intros ex [= <-]].
           now rewrite forallb_app, Hl.
        -- apply (Hstep (Raise e)); [|discriminate|discriminate|discriminate].
           now rewrite forallb_app, Hl.
      * unfold bind at 1. rewrite log_run. unfold bind at 1.
        match goal with
        | |- context [tool_response_pinjection jw w ?s] =>
            destruct (only_logs_tool_response_pinjection jw w s)
              as (evs & Hs & Hl & Hd);
            pose proof (tool_response_pinjection_raises jw w s) as Hr;
            destruct (tool_response_pinjection jw w s) as [r s'];
            cbn [fst snd] in Hs, Hd, Hr; subst s' r
        end.
        rewrite after_after.
        apply (Hstep (Raise (OtherException "NotImplementedError")));
          [|discriminate|discriminate|discriminate].
        now rewrite forallb_app, Hl.
      * unfold bind, ret. rewrite log_run.
        eexists (Ret (SysExit 1)), _. split; [reflexivity|].
        split; [reflexivity|]. split; [discriminate|]. split; [discriminate|].
        split; [discriminate|]. intros ex [= <-]. now right.
    + cbn [ADVANCED_TOOL_REGISTRY PyDict.get].
      destruct (String.eqb t "timeout_tester") eqn:E1;
        [|destruct (String.eqb t "cancel_tester") eqn:E2].
      * unfold bind at 1. rewrite log_run. unfold bind at 1, bind at 1.
        rewrite timeout_tester_without_attribute by exact Htn.
        apply (Hstep (Raise (AttributeError "transport_name")));
          [reflexivity|discriminate|discriminate|discriminate].
      * unfold bind at 1. rewrite log_run. unfold bind at 1.
        cbn [cancel_tester kw kw_grace kw_server_id raise].
        apply (Hstep (Raise (OtherException "TypeError")));
          [reflexivity|discriminate|discriminate|discriminate].
      * unfold bind, ret. rewrite log_run.
        eexists (Ret (SysExit 1)), _. split; [reflexivity|].
        split; [reflexivity|]. split; [discriminate|]. split; [discriminate|].
        split; [discriminate|]. intros ex [= <-]. now right.
    + exists (Ret (SysExit 1)), [EvLog ERROR "Error running tests"].
      split; [reflexivity|].
      split; [reflexivity|]. split; [discriminate|]. split; [discriminate|].
        split; [discriminate|]. intros ex [= <-]. now right.
  - unfold bind at 1. rewrite log_run.
    unfold TEST_REGISTRY. cbn [PyDict.get].
    destruct (String.eqb suite "basic") eqn:Eb;
      [|destruct (String.eqb suite "advanced") eqn:Ea].
    + cbn [BASIC_TEST_REGISTRY run_all]. unfold bind at 1, bind at 1.
      match goal with
      | |- context [tool_description_pinjection jw w ?s] =>
          destruct (only_logs_tool_description_pinjection jw w s)
            as (evs & Hs & Hl & Hd);
          destruct (tool_description_pinjection jw w s) as [r s'];
          cbn [fst snd] in Hs, Hd; subst s'
      end.
      rewrite after_after.
      destruct r as [[]|e|]; [| |now elim Hd].
      * unfold bind at 1.
        match goal with
        | |- context [tool_response_pinjection jw w ?s] =>
            destruct (only_logs_tool_response_pinjection jw w s)
              as (evs2 & Hs2 & Hl2 & Hd2);
            pose proof (tool_response_pinjection_raises jw w s) as Hr;
            destruct (tool_response_pinjection jw w s) as [r s'];
            cbn [fst snd] in Hs2, Hd2, Hr; subst s' r
        end.
        rewrite after_after.
        apply (Hstep (Raise (OtherException "NotImplementedError")));
          [|discriminate|discriminate|discriminate].
        now rewrite !forallb_app, Hl, Hl2.
      * apply (Hstep (Raise e)); [|discriminate|discriminate|discriminate].
        now rewrite forallb_app, Hl.
    + cbn [ADVANCED_TOOL_REGISTRY run_all]. unfold bind at 1, bind at 1, bind at 1.
      rewrite timeout_tester_without_attribute by exact Htn.
      apply (Hstep (Raise (AttributeError "transport_name")));
        [reflexivity|discriminate|discriminate|discriminate].
    + cbn [raise].
      apply (Hstep (Raise (AttributeError "items")));
        [reflexivity|discriminate|discriminate|discriminate].
Qed.

(** The [finally] block on a client with one exit stack. *)
Lemma close_connections_run w st server_id :
  PyDict.keys (exit_stacks (client st)) = [server_id] ->
  exists evs,
    trace (snd (close_connections w st)) = trace st ++ evs
    /\ forallb is_cli_event evs = true
    /\ closes_of evs = [server_id]
    /\ PyDict.get server_id (exit_stacks (client (snd (close_connections w st))))
       = Some new_exit_stack
    /\ (fst (close_connections w st) = Ret tt
        \/ exists e, fst (close_connections w st) = Raise e
                     /\ aclose_raises w server_id = Some e
                     /\ is_Exception e = false).
Proof.
  intros Hkeys.
  destruct (exit_stacks (client st)) as [|[k stk] [|]] eqn:Hstacks;
    try discriminate Hkeys.
  injection Hkeys as ->.
  unfold close_connections. cli_run. rewrite Hstacks. cbn [close_all]. cli_run.
  rewrite Hstacks. cbn [PyDict.alter]. rewrite String.eqb_refl.
  destruct (aclose_raises w server_id) as [e|] eqn:Hraise; cli_run;
    [destruct (is_Exception e) eqn:He; cli_run|];
    (eexists; split; [rewrite <- ?app_assoc; reflexivity|];
     split; [reflexivity|]; split; [reflexivity|];
     split; [cbn; now rewrite String.eqb_refl|]).
  - now left.
  - right. exists e. now repeat split.
  - now left.
Qed.

(** A run of [main] on the registries of the two suites: it ends, it adds
    only events of the session manager and log lines, and it returns
    normally only from a run of [tool_description_pinjection], after having
    closed the stack of its server. *)
Lemma main_run jw fuel a w st :
  exists evs,
    trace (snd (main (TEST_REGISTRY jw fuel) a w st)) = trace st ++ evs
    /\ forallb is_cli_event evs = true
    /\ fst (main (TEST_REGISTRY jw fuel) a w st) <> Diverge
    /\ (fst (main (TEST_REGISTRY jw fuel) a w st) = Ret (Done tt) ->
        a_suite a = "basic"
        /\ a_test a = Some "tool_description_pinjection"
        /\ a_transport a = "stdio"
        /\ closes_of evs = [a_server_id a])
    /\ (fst (main (TEST_REGISTRY jw fuel) a w st) = Ret (Done tt)
        \/ fst (main (TEST_REGISTRY jw fuel) a w st) = Ret (SysExit 1)
        \/ exists e, fst (main (TEST_REGISTRY jw fuel) a w st) = Raise e
                     /\ is_Exception e = false).
Proof.
  destruct (main (TEST_REGISTRY jw fuel) a w st) as [rr stf] eqn:Hmain.
  cbn [fst snd].
  unfold main in Hmain. unfold bind at 1 in Hmain. rewrite log_run in Hmain.
  unfold bind at 1, try_except at 1, bind at 1 in Hmain.
  set (hello := EvLog INFO ("Starting MCP Tester with server_id=" ++ a_server_id a
                              ++ ", transport=" ++ a_transport a)) in *.
  destruct (create_and_connect_run a w (after st [hello]))
    as (evs1 & Htr & Hcli & Hcl & Hd & Hok).
  destruct (create_and_connect a w (after st [hello])) as [r st1].
  cbn [fst snd after trace] in Htr, Hd, Hok.
  destruct r as [[]|e|]; [| |now elim Hd].
  - destruct (Hok eq_refl) as (Htn & Hkeys & Htransport). clear Hok.
    cbn [ret] in Hmain. unfold bind at 1, get_client in Hmain.
    destruct (sessions (client st1) !! a_server_id a) as [session|].
    + unfold finally_, try_except at 1 in Hmain.
      destruct (run_tests_from_cli jw fuel (a_server_id a) (a_suite a) (a_test a)
                                   w st1 Htn)
        as (x & evs2 & Hrun & Hl2 & Hnd & Hraise & Hdone & Hret).
      rewrite Hrun in Hmain.
      assert (Hkeys2 : PyDict.keys (exit_stacks (client (after st1 evs2)))
                       = [a_server_id a]) by exact Hkeys.
      destruct (close_connections_run w (after st1 evs2) (a_server_id a) Hkeys2)
        as (evs3 & Htr3 & Hcli3 & Hcl3 & _ & Hend).
      exists ([hello] ++ evs1 ++ evs2 ++ evs3).
      assert (Hall : forallb is_cli_event ([hello] ++ evs1 ++ evs2 ++ evs3) = true).
      { rewrite !forallb_app, Hcli, (logs_are_cli_events _ Hl2), Hcli3.
        reflexivity. }
      assert (Hcloses : closes_of ([hello] ++ evs1 ++ evs2 ++ evs3)
                        = [a_server_id a]).
      { rewrite !closes_of_app, Hcl, (logs_no_close _ Hl2), Hcl3. reflexivity. }
      assert (Htrace : trace (snd (close_connections w (after st1 evs2)))
                       = trace st ++ [hello] ++ evs1 ++ evs2 ++ evs3).
      { rewrite Htr3. cbn [after trace]. rewrite Htr, <- !app_assoc. reflexivity. }
      assert (Hx : match x with Raise e => is_Exception e = false | _ => True end).
      { destruct x; try exact I. now apply Hraise. }
      destruct x as [ex|e|]; [| |now elim Hnd]; [|rewrite Hx in Hmain];
        (destruct (close_connections w (after st1 evs2)) as [r3 st3];
         cbn [fst snd] in Htrace, Hend;
         destruct Hend as [-> | (e' & -> & _ & He')];
         injection Hmain as <- <-;
         (split; [exact Htrace|]); (split; [exact Hall|]);
         (split; [discriminate|]);
         (split;
          [ intros Hex; try discriminate Hex
          | first [ destruct (Hret _ eq_refl) as [-> | ->];
                    [ now left | right; now left ]
                  | right; right; eexists; split; [reflexivity | assumption] ] ])).
      destruct (Hdone Hex) as [Hs Ht].
      split; [exact Hs|]. split; [exact Ht|]. split; [exact Htransport|].
      exact Hcloses.
    + unfold bind, ret in Hmain. rewrite log_run in Hmain.
      injection Hmain as <- <-.
      exists ([hello] ++ evs1
                ++ [EvLog ERROR "Failed to create or connect MCPTesterClient."]).
      cbn [after trace]. rewrite Htr, <- !app_assoc.
      split; [reflexivity|]. rewrite !forallb_app, Hcli.
      split; [reflexivity|]. split; [discriminate|]. split; [discriminate|].
      right. now left.
  - destruct (is_Exception e) eqn:He.
    + unfold bind, ret in Hmain. rewrite log_run in Hmain.
      injection Hmain as <- <-.
      exists ([hello] ++ evs1 ++ [EvLog ERROR "Unexpected error"]).
      cbn [after trace]. rewrite Htr, <- !app_assoc.
      split; [reflexivity|]. rewrite !forallb_app, Hcli.
      split; [reflexivity|]. split; [discriminate|]. split; [discriminate|].
      right. now left.
    + injection Hmain as <- <-.
      exists ([hello] ++ evs1).
      rewrite Htr, <- !app_assoc.
      split; [reflexivity|]. rewrite !forallb_app, Hcli.
      split; [reflexivity|]. split; [discriminate|]. split; [discriminate|].
      right. right. now exists e.
Qed.

(** X23. A transport other than "stdio" and "http" ends [main] at once:
    [sys.exit(1)] after the start line and one error line, with no client
    built and nothing entered. The parser's own choice "https" is such a
    transport. *)
Theorem unsupported_transport_exits registry a w st :
  a_transport a <> "stdio" ->
  a_transport a <> "http" ->
  main registry a w st
  = (Ret (SysExit 1),
     after st [EvLog INFO ("Starting MCP Tester with server_id=" ++ a_server_id a
                             ++ ", transport=" ++ a_transport a);
               EvLog ERROR "Unexpected error"]).
Proof.
  intros Hs Hh. unfold main, create_and_connect.
  destruct (String.eqb (a_transport a) "stdio") eqn:Es;
    [apply String.eqb_eq in Es; contradiction|].
  destruct (String.eqb (a_transport a) "http") eqn:Eh;
    [apply String.eqb_eq in Eh; contradiction|].
  unfold bind, try_except, raise, ret. rewrite !log_run. cbn [is_Exception].
  rewrite ?log_run, ?after_after. reflexivity.
Qed.

Lemma unsupported_transport_exits_witness :
  fst (main (TEST_REGISTRY demo_judge_world 10) https_args demo_world
            (start (init None)))
  = Ret (SysExit 1).
Proof.
  rewrite (unsupported_transport_exits
             (TEST_REGISTRY demo_judge_world 10) https_args demo_world
             (start (init None)));
    [reflexivity | discriminate | discriminate].
Defined.

(** X24. A handshake that times out ends [main] with [sys.exit(1)] at
    line 160, before the [try] whose [finally] closes the stacks: no close
    is awaited, and the exit stack of the server still holds the transport
    and the session it entered. *)
Theorem cli_handshake_timeout_exits_without_closing registry a p w st :
  a_transport a = "stdio" ->
  stdio_parameters a = inr p ->
  enter_transport w (a_server_id a) = None ->
  enter_session w (a_server_id a) = None ->
  initialize w (a_server_id a) = Some TimeoutError ->
  fst (main registry a w st) = Ret (SysExit 1)
  /\ closes_of (trace (snd (main registry a w st))) = closes_of (trace st)
  /\ PyDict.get (a_server_id a) (exit_stacks (client (snd (main registry a w st))))
     = Some {| entered := [ClientSessionCtx (stdio_session p); StdioClientCtx p] |}.
Proof.
  intros Ht Hp Het Hes Hi.
  destruct (main registry a w st) as [rr stf] eqn:Hmain. cbn [fst snd].
  unfold main, create_and_connect in Hmain. rewrite Ht, Hp in Hmain.
  change (String.eqb "stdio" "stdio") with true in Hmain. cbv iota in Hmain.
  revert Hmain. cli_run. rewrite Het. cli_run. rewrite Hes. cli_run.
  rewrite Hi. cli_run. cbn [is_TimeoutError]. cli_run.
  cbn [sessions set_sessions set_exit_stacks set_streams set_server_params init].
  rewrite lookup_delete_eq. cli_run.
  intros [= <- <-]. cbn [trace client exit_stacks set_sessions set_exit_stacks].
  split; [reflexivity|]. split.
  - rewrite !closes_of_app. cbn. now rewrite !app_nil_r.
  - cbn [set_streams set_server_params init exit_stacks].
    repeat (progress (cbn [PyDict.get PyDict.alter PyDict.set];
                      rewrite ?String.eqb_refl)).
    reflexivity.
Qed.

Lemma cli_handshake_timeout_exits_without_closing_witness :
  fst (main (TEST_REGISTRY demo_judge_world 10) (demo_args "basic" None)
            timeout_world (start (init None)))
  = Ret (SysExit 1)
  /\ closes_of (trace (snd (main (TEST_REGISTRY demo_judge_world 10)
                                 (demo_args "basic" None) timeout_world
                                 (start (init None)))))
     = [].
Proof.
  destruct (cli_handshake_timeout_exits_without_closing
              (TEST_REGISTRY demo_judge_world 10) (demo_args "basic" None)
              {| command := "python"; args := ["tester_server.py"];
                 cwd := None; env := None |}
              timeout_world (start (init None))
              eq_refl eq_refl eq_refl eq_refl eq_refl)
    as (Hexit & Hcloses & _).
  split; [exact Hexit | exact Hcloses].
Defined.

Lemma create_and_connect_stdio_ok a p w st :
  a_transport a = "stdio" ->
  stdio_parameters a = inr p ->
  enter_transport w (a_server_id a) = None ->
  enter_session w (a_server_id a) = None ->
  initialize w (a_server_id a) = None ->
  fst (create_and_connect a w st) = Ret tt
  /\ sessions (client (snd (create_and_connect a w st))) !! a_server_id a
     = Some (stdio_session p).
Proof.
  intros Ht Hp Het Hes Hi.
  unfold create_and_connect. rewrite Ht, Hp.
  change (String.eqb "stdio" "stdio") with true. cbv iota.
  cli_run. rewrite Het. cli_run. rewrite Hes. cli_run. rewrite Hi. cli_run.
  split; [reflexivity|].
  cbn [sessions set_sessions set_exit_stacks set_streams set_server_params init].
  now rewrite lookup_insert_eq.
Qed.

(** X25. Once the stdio connect has succeeded, [main] closes the exit
    stack of its server exactly once, in its [finally] block, whatever the
    suite and the test are and however the tests end; the stack is left
    empty. *)
Theorem cli_closes_the_stack_after_a_connect jw fuel a p w st :
  a_transport a = "stdio" ->
  stdio_parameters a = inr p ->
  enter_transport w (a_server_id a) = None ->
  enter_session w (a_server_id a) = None ->
  initialize w (a_server_id a) = None ->
  closes_of (trace (snd (main (TEST_REGISTRY jw fuel) a w st)))
  = closes_of (trace st) ++ [a_server_id a]
  /\ PyDict.get (a_server_id a)
       (exit_stacks (client (snd (main (TEST_REGISTRY jw fuel) a w st))))
     = Some new_exit_stack
  /\ fst (main (TEST_REGISTRY jw fuel) a w st) <> Diverge.
Proof.
  intros Ht Hp Het Hes Hi.
  destruct (main (TEST_REGISTRY jw fuel) a w st) as [rr stf] eqn:Hmain.
  cbn [fst snd].
  unfold main in Hmain. unfold bind at 1 in Hmain. rewrite log_run in Hmain.
  unfold bind at 1, try_except at 1, bind at 1 in Hmain.
  set (hello := EvLog INFO ("Starting MCP Tester with server_id=" ++ a_server_id a
                              ++ ", transport=" ++ a_transport a)) in *.
  destruct (create_and_connect_run a w (after st [hello]))
    as (evs1 & Htr & _ & Hcl & _ & Hok).
  destruct (create_and_connect_stdio_ok a p w (after st [hello]) Ht Hp Het Hes Hi)
    as (Hret & Hsession).
  destruct (create_and_connect a w (after st [hello])) as [r st1].
  cbn [fst snd after trace] in Htr, Hok, Hret, Hsession. subst r.
  destruct (Hok eq_refl) as (Htn & Hkeys & _). clear Hok.
  cbn [ret] in Hmain. unfold bind at 1, get_client in Hmain.
  rewrite Hsession in Hmain.
  unfold finally_, try_except at 1 in Hmain.
  destruct (run_tests_from_cli jw fuel (a_server_id a) (a_suite a) (a_test a)
                               w st1 Htn)
    as (x & evs2 & Hrun & Hl2 & Hnd & Hraise & _).
  rewrite Hrun in Hmain.
  assert (Hkeys2 : PyDict.keys (exit_stacks (client (after st1 evs2)))
                   = [a_server_id a]) by exact Hkeys.
  destruct (close_connections_run w (after st1 evs2) (a_server_id a) Hkeys2)
    as (evs3 & Htr3 & _ & Hcl3 & Hstack & Hend).
  assert (Hcloses : closes_of (trace (snd (close_connections w (after st1 evs2))))
                    = closes_of (trace st) ++ [a_server_id a]).
  { rewrite Htr3. cbn [after trace].
    rewrite Htr, !closes_of_app, Hcl, (logs_no_close _ Hl2), Hcl3.
    cbn. now rewrite !app_nil_r. }
  assert (Hx : match x with Raise e => is_Exception e = false | _ => True end).
  { destruct x; try exact I. now apply Hraise. }
  destruct x as [ex|e|]; [| |now elim Hnd]; [|rewrite Hx in Hmain];
    (destruct (close_connections w (after st1 evs2)) as [r3 st3];
     cbn [fst snd] in Hcloses, Hstack, Hend;
     destruct Hend as [-> | (e' & -> & _)];
     injection Hmain as <- <-;
     (split; [exact Hcloses|]); (split; [exact Hstack|]); discriminate).
Qed.

Lemma cli_closes_the_stack_after_a_connect_witness :
  closes_of (trace (snd (main (TEST_REGISTRY demo_judge_world 10)
                              (demo_args "advanced" (Some "timeout_tester"))
                              demo_world (start (init None)))))
  = ["1"].
Proof.
  destruct (cli_closes_the_stack_after_a_connect
              demo_judge_world 10 (demo_args "advanced" (Some "timeout_tester"))
              {| command := "python"; args := ["tester_server.py"];
                 cwd := None; env := None |}
              demo_world (start (init None))
              eq_refl eq_refl eq_refl eq_refl eq_refl)
    as (Hcloses & _).
  exact Hcloses.
Defined.

(** X26. Every run of [main] on the registries of the two suites ends in
    one of three ways: it returns normally (exit status 0), it ends in
    [sys.exit(1)], or it ends in an error that is no [Exception] (raised by
    a close in the [finally] block, or on its way through the handlers). It
    returns normally only from a run of the single test
    [tool_description_pinjection] of the basic suite over the stdio
    transport, and then it has closed the stack of its server once: a whole
    suite, a test of the advanced suite, any other test and any other
    transport end in one of the two other ways. *)
Theorem cli_returns_only_from_the_description_scan jw fuel a w st :
  (fst (main (TEST_REGISTRY jw fuel) a w st) = Ret (Done tt)
   \/ fst (main (TEST_REGISTRY jw fuel) a w st) = Ret (SysExit 1)
   \/ exists e, fst (main (TEST_REGISTRY jw fuel) a w st) = Raise e
                /\ is_Exception e = false)
  /\ (fst (main (TEST_REGISTRY jw fuel) a w st) = Ret (Done tt) ->
      a_suite a = "basic"
      /\ a_test a = Some "tool_description_pinjection"
      /\ a_transport a = "stdio"
      /\ closes_of (trace (snd (main (TEST_REGISTRY jw fuel) a w st)))
         = closes_of (trace st) ++ [a_server_id a]).
Proof.
  destruct (main_run jw fuel a w st) as (evs & Htr & _ & _ & H & Hends).
  split; [exact Hends|]. intros Hdone.
  destruct (H Hdone) as (Hs & Ht & Htransport & Hcl).
  split; [exact Hs|]. split; [exact Ht|]. split; [exact Htransport|].
  now rewrite Htr, closes_of_app, Hcl.
Qed.

Lemma cli_returns_only_from_the_description_scan_witness :
  fst (main (TEST_REGISTRY demo_judge_world 10)
            (demo_args "basic" (Some "tool_description_pinjection"))
            demo_world (start (init None)))
  = Ret (Done tt)
  /\ closes_of (trace (snd (main (TEST_REGISTRY demo_judge_world 10)
                                 (demo_args "basic"
                                            (Some "tool_description_pinjection"))
                                 demo_world (start (init None)))))
     = ["1"].
Proof.
  assert (H : fst (main (TEST_REGISTRY demo_judge_world 10)
                        (demo_args "basic" (Some "tool_description_pinjection"))
                        demo_world (start (init None)))
              = Ret (Done tt)) by (vm_compute; reflexivity).
  destruct (proj2 (cli_returns_only_from_the_description_scan
                     demo_judge_world 10
                     (demo_args "basic" (Some "tool_description_pinjection"))
                     demo_world (start (init None))) H)
    as (_ & _ & _ & Hcl).
  split; [exact H | exact Hcl].
Defined.

(** A whole suite ends in [sys.exit(1)]: the second test of the basic
    suite raises [NotImplementedError]. *)
Example cli_whole_basic_suite_exits :
  fst (main (TEST_REGISTRY demo_judge_world 10) (demo_args "basic" None)
            demo_world (start (init None)))
  = Ret (SysExit 1).
Proof. vm_compute. reflexivity. Qed.

(** X27. No run of [main] measures anything: whatever the arguments and
    the world, it ends, and it adds to the trace only log lines, entered
    contexts, handshakes and closes. No process is scanned, no snapshot is
    taken and no tool is called: [timeout_tester] reads [transport_name],
    which neither the client nor [main] sets. *)
Theorem cli_never_measures jw fuel a w st :
  fst (main (TEST_REGISTRY jw fuel) a w st) <> Diverge
  /\ snapshots_of (trace (snd (main (TEST_REGISTRY jw fuel) a w st)))
     = snapshots_of (trace st)
  /\ exists evs,
       trace (snd (main (TEST_REGISTRY jw fuel) a w st)) = trace st ++ evs
       /\ forallb is_cli_event evs = true.
Proof.
  destruct (main_run jw fuel a w st) as (evs & Htr & Hcli & Hd & _).
  split; [exact Hd|]. split.
  - rewrite Htr, snapshots_of_app, (cli_events_no_snapshot _ Hcli).
    now rewrite app_nil_r.
  - now exists evs.
Qed.
